(** * The CXP controller of the browser extension (src/app/backend/cxp.ts)

    A shallow embedding of the activation filter, the transport factory
    with its relay control channel, and the decoration renderer, followed
    by the properties of the design document that concern them.

    The source file holds two copies of the module (lines 1-349 importing
    cxp/lib, lines 350-693 importing cxp/module).  [environmentFilter],
    [createPlatformMessageTransports] and [applyDecoration] are literally
    the same in both; [createMessageTransports] differs in its tcp branch
    only, and is embedded once per copy (modules [CxpLib], [CxpModule]). *)

From Stdlib Require Import String Ascii List Bool Arith Lia DecimalString.
From stdpp Require Import base list strings.
Import ListNotations.

Local Open Scope string_scope.
Local Open Scope list_scope.
Set Warnings "-register-all".

(** ** Completions and the state-and-exception monad

    JavaScript code either completes normally with a value or throws.  A
    computation over a mutable store [S] is a function from the store to
    a completion and the store it leaves behind. *)

Inductive Exn : Type :=
| Error (message : string)        (* new Error(message) *)
| TypeError (message : string)    (* raised by the runtime *)
| Reason (value : string).        (* any other thrown or rejected value *)

Inductive Completion (A : Type) : Type :=
| Normal (a : A)
| Throw (e : Exn).
Arguments Normal {A} a.
Arguments Throw {A} e.

Definition JS (S A : Type) : Type := S -> Completion A * S.

Definition ret {S A} (a : A) : JS S A := fun s => (Normal a, s).

Definition throw {S A} (e : Exn) : JS S A := fun s => (Throw e, s).

Definition bind {S A B} (c : JS S A) (k : A -> JS S B) : JS S B :=
  fun s => match c s with
           | (Normal a, s') => k a s'
           | (Throw e, s') => (Throw e, s')
           end.

(** try { c } catch (err) { handler err } *)
Definition try_catch {S A} (c : JS S A) (handler : Exn -> JS S A) : JS S A :=
  fun s => match c s with
           | (Normal a, s') => (Normal a, s')
           | (Throw e, s') => handler e s'
           end.

Definition modify {S} (f : S -> S) : JS S unit := fun s => (Normal tt, f s).

Definition get {S} : JS S S := fun s => (Normal s, s).

Declare Scope js_scope.
Delimit Scope js_scope with js.
Notation "'let!' x ':=' c 'in' k" := (bind c (fun x => k))
  (at level 10, x name, c at level 100, k at level 200) : js_scope.
Notation "'do!' c 'in' k" := (bind c (fun _ => k))
  (at level 10, c at level 100, k at level 200) : js_scope.
Local Open Scope js_scope.

(** Array.prototype.filter with a callback that may have effects and may
    throw: the callback runs on the elements in order, and an exception
    of the callback leaves the method. *)
Fixpoint Array_filter {S A} (f : A -> JS S bool) (l : list A) : JS S (list A) :=
  match l with
  | [] => ret []
  | x :: l' =>
      let! b := f x in
      let! rest := Array_filter f l' in
      ret (if (b : bool) then x :: rest else rest)
  end.

(** ** Data model *)

(** ErrorLike of ./errors. *)
Record ErrorLike : Type := { message : string; code : option string }.

(** The platform descriptor of a manifest.  The schema lists the kinds;
    the factory compares [type] with string literals, so it stays a
    string here. *)
Record Platform : Type := {
  type : string;
  url : option string;
  address : option string
}.

(** The value found in a manifest's [activationEvents].  The schema types
    it [string[]]; the manifest is parsed JSON, and the filter tests the
    field for truthiness and then calls [.some] on it, so every shape a
    JSON value can have is kept: the field missing, [null], a boolean, a
    number (by whether it is other than 0, which is all the test can tell
    of it), a string, an object, and the array itself.  Only an array has
    a [some] method. *)
Inductive ActivationEvents : Type :=
| EventsUndefined
| EventsArray (events : list string)
| EventsString (s : string)
| EventsNull
| EventsBoolean (b : bool)
| EventsNumber (nonzero : bool)
| EventsObject.

(** SourcegraphExtension (the manifest schema), reduced to the two fields
    this module reads. *)
Record SourcegraphExtension : Type := {
  activationEvents : ActivationEvents;
  platform : Platform
}.

(** [manifest: SourcegraphExtension | null | ErrorLike] *)
Inductive ManifestField : Type :=
| ManifestNull
| ManifestError (e : ErrorLike)
| Manifest (m : SourcegraphExtension).

(** Modelled from the spec: [isErrorLike] is imported from ./errors, which
    is not among the sources; the design document calls the value it
    recognises "an error value (fetch/parse failure)", the third
    alternative of the manifest field. *)
Definition isErrorLike (v : ManifestField) : bool :=
  match v with ManifestError _ => true | _ => false end.

(** CXPExtensionWithManifest (lines 218-221): a CXP extension (id and
    settings) with the enabled flag and the manifest. *)
Record CXPExtensionWithManifest : Type := {
  id : string;
  settings : string;
  isEnabled : bool;
  manifest : ManifestField
}.

Record TextDocumentItem : Type := {
  uri : string;
  languageId : string;
  text : string
}.

(** The active component, reduced to its document. *)
Record Component : Type := { document : TextDocumentItem }.

(** Environment<CXPExtensionWithManifest>: root, component and extensions,
    each nullable. *)
Record Environment : Type := {
  root : option string;
  component : option Component;
  extensions : option (list CXPExtensionWithManifest)
}.

(** ** The activation filter (lines 61-82 and 402-423) *)

(** The console, as the list of values passed to [console.error]. *)
Definition Console : Type := list Exn.

Definition console_error (err : Exn) : JS Console unit :=
  modify (fun log => log ++ [err]).

(** e => e === '*' || (!!component && e === `onLanguage:${component.document.languageId}`) *)
Definition eventMatches (component : option Component) (e : string) : bool :=
  String.eqb e "*" ||
  match component with
  | Some c => String.eqb e ("onLanguage:" +:+ languageId (document c))
  | None => false
  end.

(** x.manifest.activationEvents, as the condition of the [if]: falsy are
    undefined, null, false, 0 and the empty string. *)
Definition truthy (a : ActivationEvents) : bool :=
  match a with
  | EventsUndefined => false
  | EventsArray _ => true
  | EventsString s => negb (String.eqb s EmptyString)
  | EventsNull => false
  | EventsBoolean b => b
  | EventsNumber nonzero => nonzero
  | EventsObject => true
  end.

(** x.manifest.activationEvents.some(callback): an array runs the
    callback on its elements up to the first that gives true; a string,
    a boolean, a number and an object of JSON have no [some] to call, and
    undefined and null have no properties at all. *)
Definition activationEvents_some (a : ActivationEvents) (callback : string -> bool)
  : JS Console bool :=
  match a with
  | EventsArray es => ret (existsb callback es)
  | EventsString _ | EventsBoolean _ | EventsNumber _ | EventsObject =>
      throw (TypeError "x.manifest.activationEvents.some is not a function")
  | EventsUndefined =>
      throw (TypeError "Cannot read property 'some' of undefined")
  | EventsNull =>
      throw (TypeError "Cannot read property 'some' of null")
  end.

(** x.manifest, as a condition: only [null] is falsy. *)
Definition present (v : ManifestField) : bool :=
  match v with ManifestNull => false | _ => true end.

(** x.manifest.activationEvents, read once the manifest is known not to
    be [null]; an error value has no such property. *)
Definition manifest_activationEvents (v : ManifestField) : ActivationEvents :=
  match v with
  | Manifest m => activationEvents m
  | _ => EventsUndefined
  end.

(** The body of the [try] block.  [Some b] is [return b] from inside the
    block; [None] is control leaving the block at its end. *)
Definition tryBlock (nextEnvironment : Environment) (x : CXPExtensionWithManifest)
  : JS Console (option bool) :=
  let component := component nextEnvironment in
  if isEnabled x && present (manifest x) && negb (isErrorLike (manifest x))
     && truthy (manifest_activationEvents (manifest x))
  then let! b := activationEvents_some (manifest_activationEvents (manifest x))
                                       (eventMatches component) in
       ret (Some b)
  else ret None.

(** The callback given to [filter]: the [try] statement, then [return false]. *)
Definition filterCallback (nextEnvironment : Environment) (x : CXPExtensionWithManifest)
  : JS Console bool :=
  let! r := try_catch (tryBlock nextEnvironment x)
                      (fun err => do! console_error err in ret None) in
  match r with
  | Some b => ret b
  | None => ret false
  end.

Definition environmentFilter (nextEnvironment : Environment) : JS Console Environment :=
  let! exts := match extensions nextEnvironment with
                | None => ret None
                | Some xs =>
                    let! ys := Array_filter (filterCallback nextEnvironment) xs in
                    ret (Some ys)
                end in
  ret {| root := root nextEnvironment;
         component := component nextEnvironment;
         extensions := exts |}.

(** ** The browser: ports, sockets and promises

    What the transport code touches outside of its own variables: the
    runtime ports opened with [chrome.runtime.connect], the messages
    posted on them and the listeners attached to them, the WebSockets
    opened and the listeners waiting for them to connect, and the
    promises handed to the CXP client. *)

(** Ports and promises are named by their position in the browser's lists. *)
Abbreviation PortId := nat (only parsing).
Abbreviation PromiseId := nat (only parsing).

Inductive MessageTransports : Type :=
| PortMessageTransports (port : PortId)     (* createPortMessageTransports(port) *)
| WebSocketMessageTransports (socket : nat). (* createWebSocketMessageTransports(ws) *)

Inductive PromiseState : Type :=
| Pending
| Fulfilled (value : MessageTransports)
| Rejected (reason : Exn).

(** The message posted on the control port: { extensionID: id, platform }. *)
Record ControlRequest : Type := {
  extensionID : string;
  requested : Platform
}.

(** The message received on it: { portName: string } | { error: any }. *)
Inductive ControlResponse : Type :=
| PortName (portName : string)
| ErrorResponse (error : string).

(** A callback waiting for the Sourcegraph URL: the closure given to
    [.then] at lines 605-612, with the extension id and root it captured
    and the promise that [.then] returned. *)
Record URLWaiter : Type := {
  waiter_id : string;
  waiter_root : option string;
  waiter_promise : PromiseId
}.

Record Browser : Type := {
  ports : list string;                       (* by port id: the name given to connect *)
  posted : list (PortId * ControlRequest);   (* postMessage calls, in order *)
  listeners : list (PortId * PromiseId);     (* onMessage listeners, by the promise they settle *)
  sockets : list string;                     (* by socket id: the URL given to new WebSocket *)
  promises : list PromiseState;              (* by promise id *)
  waiters : list URLWaiter;
  socket_listeners : list (nat * PromiseId)  (* listeners for a socket to open or fail,
                                                by the promise they settle *)
}.

Definition chrome_runtime_connect (name : string) : JS Browser PortId :=
  fun w => (Normal (length (ports w)),
            {| ports := ports w ++ [name]; posted := posted w; listeners := listeners w;
               sockets := sockets w; promises := promises w; waiters := waiters w;
               socket_listeners := socket_listeners w |}).

Definition postMessage (port : PortId) (m : ControlRequest) : JS Browser unit :=
  modify (fun w =>
            {| ports := ports w; posted := posted w ++ [(port, m)]; listeners := listeners w;
               sockets := sockets w; promises := promises w; waiters := waiters w;
               socket_listeners := socket_listeners w |}).

Definition onMessage_addListener (port : PortId) (p : PromiseId) : JS Browser unit :=
  modify (fun w =>
            {| ports := ports w; posted := posted w; listeners := listeners w ++ [(port, p)];
               sockets := sockets w; promises := promises w; waiters := waiters w;
               socket_listeners := socket_listeners w |}).

Definition new_WebSocket (href : string) : JS Browser nat :=
  fun w => (Normal (length (sockets w)),
            {| ports := ports w; posted := posted w; listeners := listeners w;
               sockets := sockets w ++ [href]; promises := promises w; waiters := waiters w;
               socket_listeners := socket_listeners w |}).

Definition set_promises (ps : list PromiseState) (w : Browser) : Browser :=
  {| ports := ports w; posted := posted w; listeners := listeners w;
     sockets := sockets w; promises := ps; waiters := waiters w;
     socket_listeners := socket_listeners w |}.

Definition set_waiters (ws : list URLWaiter) (w : Browser) : Browser :=
  {| ports := ports w; posted := posted w; listeners := listeners w;
     sockets := sockets w; promises := promises w; waiters := ws;
     socket_listeners := socket_listeners w |}.

Definition set_socket_listeners (ls : list (nat * PromiseId)) (w : Browser) : Browser :=
  {| ports := ports w; posted := posted w; listeners := listeners w;
     sockets := sockets w; promises := promises w; waiters := waiters w;
     socket_listeners := ls |}.

(** A new promise in the given state; its id is the next free index. *)
Definition new_Promise (st : PromiseState) : JS Browser PromiseId :=
  fun w => (Normal (length (promises w)), set_promises (promises w ++ [st]) w).

(** resolve and reject of a promise: only a pending promise changes. *)
Definition settle (p : PromiseId) (st : PromiseState) : JS Browser unit :=
  modify (fun w =>
            match promises w !! p with
            | Some Pending => set_promises (<[p := st]> (promises w)) w
            | _ => w
            end).

Definition resolve (p : PromiseId) (v : MessageTransports) : JS Browser unit :=
  settle p (Fulfilled v).

Definition reject (p : PromiseId) (e : Exn) : JS Browser unit :=
  settle p (Rejected e).

(** Promise.reject(e) *)
Definition Promise_reject (e : Exn) : JS Browser PromiseId := new_Promise (Rejected e).

(** ** Transports over a WebSocket

    [createWebSocketMessageTransports] is imported from the CXP library
    (cxp/lib/jsonrpc2/transports/browserWebSocket).  Given a socket, which
    [new WebSocket] returns while it is still connecting, it returns a
    promise that is pending until the socket has opened or failed: it is
    fulfilled with the transports over the socket when the socket opens
    and rejected when the socket fails.  [socket_settles] adds the
    listeners that do this for promise [p]. *)
Definition socket_settles (socket : nat) (p : PromiseId) : JS Browser unit :=
  modify (fun w => set_socket_listeners (socket_listeners w ++ [(socket, p)]) w).

Definition createWebSocketMessageTransports (socket : nat) : JS Browser PromiseId :=
  let! p := new_Promise Pending in
  do! socket_settles socket p in
  ret p.

(** The listeners added for promise [p], called when the socket has
    opened ([None]) or has failed (with what the failure reports). *)
Definition onSocket_listener (socket : nat) (p : PromiseId) (failure : option string)
  : JS Browser unit :=
  match failure with
  | None => resolve p (WebSocketMessageTransports socket)
  | Some reason => reject p (Reason reason)
  end.

(** A socket opening or failing: the listeners added for that socket are
    called, in the order in which they were added. *)
Fixpoint call_socket_listeners (ls : list (nat * PromiseId)) (socket : nat)
  (failure : option string) : JS Browser unit :=
  match ls with
  | [] => ret tt
  | (k, p) :: ls' =>
      do! (if Nat.eqb k socket then onSocket_listener socket p failure else ret tt) in
      call_socket_listeners ls' socket failure
  end.

Definition onSocket (socket : nat) (failure : option string) : JS Browser unit :=
  let! w := get in call_socket_listeners (socket_listeners w) socket failure.

(** ** JSON.stringify on a string *)

Definition dquote : string := String (ascii_of_nat 34) EmptyString.
Definition backslash : string := String (ascii_of_nat 92) EmptyString.

Definition hexDigit (n : nat) : string :=
  String (nth n (list_ascii_of_string "0123456789abcdef") "0"%char) EmptyString.

Definition JSON_escape (c : ascii) : string :=
  let n := nat_of_ascii c in
  if Nat.eqb n 34 then backslash +:+ dquote
  else if Nat.eqb n 92 then backslash +:+ backslash
  else if Nat.eqb n 8 then backslash +:+ "b"
  else if Nat.eqb n 12 then backslash +:+ "f"
  else if Nat.eqb n 10 then backslash +:+ "n"
  else if Nat.eqb n 13 then backslash +:+ "r"
  else if Nat.eqb n 9 then backslash +:+ "t"
  else if Nat.ltb n 32 then backslash +:+ "u00" +:+ hexDigit (n / 16) +:+ hexDigit (n mod 16)
  else String c EmptyString.

Fixpoint JSON_escapes (s : string) : string :=
  match s with
  | EmptyString => EmptyString
  | String c s' => JSON_escape c +:+ JSON_escapes s'
  end.

Definition JSON_stringify (s : string) : string := dquote +:+ JSON_escapes s +:+ dquote.

(** ** URLs

    A URL object by its components; [searchParams] is the ordered list of
    name-value pairs behind [url.searchParams].  The assignments of the
    source are assignments to the components.  Parsing ([new URL(s)],
    which throws on a string that is no URL) and serialising ([url.href])
    are the browser's and are taken as parameters below. *)
Record URL : Type := {
  protocol : string;
  host : string;
  pathname : string;
  searchParams : list (string * string);
  hash : string
}.

Definition set_protocol (v : string) (u : URL) : URL :=
  {| protocol := v; host := host u; pathname := pathname u;
     searchParams := searchParams u; hash := hash u |}.

Definition set_pathname (v : string) (u : URL) : URL :=
  {| protocol := protocol u; host := host u; pathname := v;
     searchParams := searchParams u; hash := hash u |}.

(** URLSearchParams.set: the first pair of that name takes the value and
    the later ones are removed; without such a pair one is appended. *)
Fixpoint URLSearchParams_set (name value : string) (l : list (string * string))
  : list (string * string) :=
  match l with
  | [] => [(name, value)]
  | (n, v) :: l' =>
      if String.eqb n name
      then (name, value) :: List.filter (fun nv => negb (String.eqb (fst nv) name)) l'
      else (n, v) :: URLSearchParams_set name value l'
  end.

(** URLSearchParams.get: the value of the first pair of that name. *)
Fixpoint URLSearchParams_get (name : string) (l : list (string * string)) : option string :=
  match l with
  | [] => None
  | (n, v) :: l' => if String.eqb n name then Some v else URLSearchParams_get name l'
  end.

Definition searchParams_set (name value : string) (u : URL) : URL :=
  {| protocol := protocol u; host := host u; pathname := pathname u;
     searchParams := URLSearchParams_set name value (searchParams u); hash := hash u |}.

(** ClientOptions, reduced to the root URI. *)
Record ClientOptions : Type := { options_root : option string }.

(** options.root || '' *)
Definition root_or_empty (options : ClientOptions) : string :=
  match options_root options with
  | Some r => r
  | None => EmptyString
  end.

(** Lines 262-266 and 606-610: the URL of the lsp-proxy endpoint, from the
    URL object [url] that [new URL] returned. *)
Definition bridgeURL (url : URL) (extension_id : string) (root : string) : URL :=
  let url := set_protocol (if String.eqb (protocol url) "https:" then "wss:" else "ws:") url in
  let url := set_pathname ".api/lsp" url in
  let url := searchParams_set "mode" extension_id url in
  let url := searchParams_set "rootUri" root url in
  url.

(** ** The relay control channel (lines 223-236 and 564-577)

    [createPlatformMessageTransports] is the result of a function that is
    called once, where it is defined: that call opens the port named
    CONTROL, and the closure it returns keeps the port in its variable
    [CONTROL].  [CONTROL_connect] is the one call; the closure takes the
    variable as its first argument. *)

Definition CONTROL_connect : JS Browser PortId := chrome_runtime_connect "CONTROL".

(** The closure: a new promise whose executor posts the request and adds
    a listener for the answer. *)
Definition createPlatformMessageTransports (CONTROL : PortId) (id : string) (platform : Platform)
  : JS Browser PromiseId :=
  let! p := new_Promise Pending in
  do! postMessage CONTROL {| extensionID := id; requested := platform |} in
  do! onMessage_addListener CONTROL p in
  ret p.

(** The listener added by the executor of promise [p], called with a
    message received on the port. *)
Definition onMessage_listener (p : PromiseId) (response : ControlResponse) : JS Browser unit :=
  match response with
  | ErrorResponse err => reject p (Reason err)
  | PortName name =>
      let! port := chrome_runtime_connect name in
      resolve p (PortMessageTransports port)
  end.

(** A message arriving on [port]: every listener added to the port is
    called with it, in the order in which they were added. *)
Fixpoint call_listeners (ls : list (PortId * PromiseId)) (port : PortId)
  (response : ControlResponse) : JS Browser unit :=
  match ls with
  | [] => ret tt
  | (k, p) :: ls' =>
      do! (if Nat.eqb k port then onMessage_listener p response else ret tt) in
      call_listeners ls' port response
  end.

Definition onMessage (port : PortId) (response : ControlResponse) : JS Browser unit :=
  let! w := get in call_listeners (listeners w) port response.

(** ** The transport factory (lines 238-279 and 579-624) *)

Definition no_manifest_message (extension_id : string) : string :=
  "unable to connect to extension " +:+ JSON_stringify extension_id +:+ ": no manifest found".

Definition invalid_manifest_message (extension_id : string) (inner : string) : string :=
  "unable to connect to extension " +:+ JSON_stringify extension_id
    +:+ ": invalid manifest: " +:+ inner.

Definition unsupported_message (extension_id : string) (platform_type : string) : string :=
  "Unable to connect to CXP extension " +:+ JSON_stringify extension_id +:+ ": type "
    +:+ JSON_stringify platform_type +:+ " is not supported".

Section URLs.

Variable URL_parse : string -> option URL.
Variable URL_href : URL -> string.

(** new URL(s) *)
Definition new_URL (s : string) : JS Browser URL :=
  match URL_parse s with
  | Some u => ret u
  | None => throw (TypeError "Failed to construct 'URL': Invalid URL")
  end.

(** Lines 606-611: the callback given to [.then], called with the URL
    string the awaited promise was fulfilled with.  What it throws
    rejects the promise that [.then] returned.  What it returns is the
    promise of [createWebSocketMessageTransports]: the promise that
    [.then] returned is resolved with it and so is settled as it is, when
    the socket has opened or failed, and is pending until then.  The two
    promises are kept as one: the listeners for the socket settle the
    promise that [.then] returned. *)
Definition onSourcegraphURL (k : URLWaiter) (urlString : string) : JS Browser unit :=
  try_catch
    (let! url := new_URL urlString in
     let! ws := new_WebSocket (URL_href (bridgeURL url (waiter_id k)
                                           (match waiter_root k with
                                            | Some r => r
                                            | None => EmptyString
                                            end))) in
     socket_settles ws (waiter_promise k))
    (fun e => reject (waiter_promise k) e).

Fixpoint call_waiters (ks : list URLWaiter) (urlString : string) : JS Browser unit :=
  match ks with
  | [] => ret tt
  | k :: ks' => do! onSourcegraphURL k urlString in call_waiters ks' urlString
  end.

(** The promise of [from(sourcegraphURLSubject).toPromise()] being
    fulfilled with [urlString]: the callbacks waiting on it run, each
    once. *)
Definition onURL (urlString : string) : JS Browser unit :=
  let! w := get in
  do! modify (set_waiters []) in
  call_waiters (waiters w) urlString.

End URLs.

(** The copy at lines 238-279: the tcp branch builds the URL from the
    literal http://localhost:3080, makes the socket at once and returns
    the promise of [createWebSocketMessageTransports] for it, which is
    pending when the factory returns. *)
Module CxpLib.
Section Factory.
Variable URL_parse : string -> option URL.
Variable URL_href : URL -> string.

Definition createMessageTransports (CONTROL : PortId)
  (extension : CXPExtensionWithManifest) (options : ClientOptions) : JS Browser PromiseId :=
  match manifest extension with
  | ManifestNull => throw (Error (no_manifest_message (id extension)))
  | ManifestError e =>
      throw (Error (invalid_manifest_message (id extension) (message e)))
  | Manifest m =>
      if String.eqb (type (platform m)) "websocket" then
        createPlatformMessageTransports CONTROL (id extension) (platform m)
      else if String.eqb (type (platform m)) "tcp" then
        let! url := new_URL URL_parse "http://localhost:3080" in
        let! ws := new_WebSocket
                     (URL_href (bridgeURL url (id extension) (root_or_empty options))) in
        createWebSocketMessageTransports ws
      else if String.eqb (type (platform m)) "bundle" then
        createPlatformMessageTransports CONTROL (id extension) (platform m)
      else
        Promise_reject (Error (unsupported_message (id extension) (type (platform m))))
  end.
End Factory.
End CxpLib.

(** The copy at lines 579-624: the tcp branch waits for the promise made
    from [sourcegraphURLSubject] (imported from ../util/context) and
    builds the URL in its [.then] callback. *)
Module CxpModule.
Definition createMessageTransports (CONTROL : PortId)
  (extension : CXPExtensionWithManifest) (options : ClientOptions) : JS Browser PromiseId :=
  match manifest extension with
  | ManifestNull => throw (Error (no_manifest_message (id extension)))
  | ManifestError e =>
      throw (Error (invalid_manifest_message (id extension) (message e)))
  | Manifest m =>
      if String.eqb (type (platform m)) "websocket" then
        createPlatformMessageTransports CONTROL (id extension) (platform m)
      else if String.eqb (type (platform m)) "tcp" then
        let! p := new_Promise Pending in
        do! modify (fun w => set_waiters
                               (waiters w ++ [{| waiter_id := id extension;
                                                 waiter_root := options_root options;
                                                 waiter_promise := p |}]) w) in
        ret p
      else if String.eqb (type (platform m)) "bundle" then
        createPlatformMessageTransports CONTROL (id extension) (platform m)
      else
        Promise_reject (Error (unsupported_message (id extension) (type (platform m))))
  end.
End CxpModule.

(** ** The life of the module

    After the module is loaded, these things happen to it: the controller
    asks for the transports of an extension, the broker's answer arrives
    on the control port, the awaited Sourcegraph URL arrives, and a
    socket opens or fails.  [answers] names the request (by its position
    among the posted ones) that the broker is answering; the message
    itself does not carry it, and the code never sees it. *)
Inductive Event : Type :=
| Activate (extension : CXPExtensionWithManifest) (options : ClientOptions)
| ControlMessage (answers : nat) (response : ControlResponse)
| SourcegraphURL (urlString : string)
| SocketOpen (socket : nat)
| SocketError (socket : nat) (reason : string).

Definition Factory : Type :=
  PortId -> CXPExtensionWithManifest -> ClientOptions -> JS Browser PromiseId.

Section Life.

Variable URL_parse : string -> option URL.
Variable URL_href : URL -> string.
Variable factory : Factory.
Variable CONTROL : PortId.

Definition step (w : Browser) (ev : Event) : Browser :=
  match ev with
  | Activate extension options => snd (factory CONTROL extension options w)
  | ControlMessage _ response => snd (onMessage CONTROL response w)
  | SourcegraphURL urlString => snd (onURL URL_parse URL_href urlString w)
  | SocketOpen socket => snd (onSocket socket None w)
  | SocketError socket reason => snd (onSocket socket (Some reason) w)
  end.

Definition run (evs : list Event) (w : Browser) : Browser := fold_left step evs w.

End Life.

(** The browser before the module is loaded, and the loading itself. *)
Definition fresh : Browser :=
  {| ports := []; posted := []; listeners := []; sockets := []; promises := []; waiters := [];
     socket_listeners := [] |}.

Definition loaded : PortId * Browser :=
  match CONTROL_connect fresh with
  | (Normal port, w) => (port, w)
  | (Throw _, w) => (0, w)
  end.

Definition life (URL_parse : string -> option URL) (URL_href : URL -> string)
  (factory : Factory) (evs : list Event) : Browser :=
  run URL_parse URL_href factory (fst loaded) evs (snd loaded).

(** ** The page (lines 289-349 and 634-694)

    The host element and what is below it, as a tree.  A node of the
    page is referred to by its path: the positions, among the child
    nodes, that lead to it from the host element.

    The [style] attribute of an element is kept apart from its other
    attributes, with the declarations that [element.style] shows for it.
    Of these the two properties the renderer assigns are kept; the empty
    string is a property that is not declared.  An element has no
    [style] attribute, or the one the markup of the page gave it, or one
    the browser has written: assigning to a property of [element.style]
    makes the browser write the attribute anew, as the serialisation of
    the declarations, also when none is left (the attribute is then
    there and empty).  Two elements with the same declarations are the
    same for [isEqualNode] only if their attributes are the same text,
    so the three are told apart. *)

Module Dom.

Record Style : Type := { backgroundColor : string; color : string }.

Inductive StyleAttribute : Type :=
| NoStyle                          (* no style attribute *)
| Authored (declarations : Style)  (* the attribute as the page's markup has it *)
| Written (declarations : Style).  (* the attribute as the browser wrote it *)

Inductive Node : Type :=
| Element (tagName : string) (attributes : list (string * string))
          (style : StyleAttribute) (childNodes : list Node)
| Text (data : string).

Definition Path : Type := list nat.

(** element.style, as the declarations it shows. *)
Definition declared (a : StyleAttribute) : Style :=
  match a with
  | NoStyle => {| backgroundColor := EmptyString; color := EmptyString |}
  | Authored s => s
  | Written s => s
  end.

(** document.createElement(tag) *)
Definition createElement (tag : string) : Node := Element tag [] NoStyle [].

Definition getAttribute (name : string) (n : Node) : option string :=
  match n with
  | Element _ attrs _ _ => URLSearchParams_get name attrs
  | Text _ => None
  end.

Definition isElement (n : Node) : bool :=
  match n with Element _ _ _ _ => true | Text _ => false end.

Definition children_of (n : Node) : list Node :=
  match n with Element _ _ _ cs => cs | Text _ => [] end.

Definition style_of (n : Node) : StyleAttribute :=
  match n with Element _ _ s _ => s | Text _ => NoStyle end.

(** element.style.backgroundColor *)
Definition backgroundColor_of (n : Node) : string := backgroundColor (declared (style_of n)).

(** The node at a path below [n]. *)
Fixpoint node_at (p : Path) (n : Node) : option Node :=
  match p with
  | [] => Some n
  | i :: p' =>
      match children_of n !! i with
      | Some c => node_at p' c
      | None => None
      end
  end.

(** The tree with the node at a path replaced by its image under [f]. *)
Fixpoint update_at (p : Path) (f : Node -> Node) (n : Node) : Node :=
  match p with
  | [] => f n
  | i :: p' =>
      match n with
      | Element t a s cs => Element t a s (alter (update_at p' f) i cs)
      | Text _ => n
      end
  end.

(** All proper descendants of a node with their paths, in document
    order. *)
Fixpoint descendants (n : Node) : list (Path * Node) :=
  match n with
  | Text _ => []
  | Element _ _ _ cs =>
      (fix below (i : nat) (l : list Node) : list (Path * Node) :=
         match l with
         | [] => []
         | c :: l' =>
             ([i], c) :: map (fun pd => (i :: fst pd, snd pd)) (descendants c)
               ++ below (S i) l'
         end) 0 cs
  end.

(** The selector td[data-line-number="value"]. *)
Definition matches_td_line (value : string) (n : Node) : bool :=
  match n with
  | Element t _ _ _ =>
      String.eqb t "td" &&
      match getAttribute "data-line-number" n with
      | Some v => String.eqb v value
      | None => false
      end
  | Text _ => false
  end.

(** fileElement.querySelectorAll(`td[data-line-number="..."]`) *)
Definition querySelectorAll_td_line (value : string) (fileElement : Node) : list Path :=
  map fst (List.filter (fun pd => matches_td_line value (snd pd)) (descendants fileElement)).

(** The position of the first element among [l], counted from [i]. *)
Fixpoint first_element_from (i : nat) (l : list Node) : option nat :=
  match l with
  | [] => None
  | c :: l' => if isElement c then Some i else first_element_from (S i) l'
  end.

(** The last position of a path and the path of the parent. *)
Fixpoint split_last (p : Path) : option (Path * nat) :=
  match p with
  | [] => None
  | [i] => Some ([], i)
  | i :: p' =>
      match split_last p' with
      | Some (q, j) => Some (i :: q, j)
      | None => None
      end
  end.

(** element.nextElementSibling, for the element at path [p]. *)
Definition nextElementSibling (p : Path) (fileElement : Node) : option Path :=
  match split_last p with
  | None => None
  | Some (parent, i) =>
      match node_at parent fileElement with
      | None => None
      | Some n =>
          match first_element_from (S i) (drop (S i) (children_of n)) with
          | Some j => Some (parent ++ [j])
          | None => None
          end
      end
  end.

(** Taking a declaration out: when there is none, nothing happens; when
    there is one, the browser writes the attribute without it. *)
Definition remove_backgroundColor (a : StyleAttribute) : StyleAttribute :=
  if String.eqb (backgroundColor (declared a)) EmptyString then a
  else Written {| backgroundColor := EmptyString; color := color (declared a) |}.

Definition remove_color (a : StyleAttribute) : StyleAttribute :=
  if String.eqb (color (declared a)) EmptyString then a
  else Written {| backgroundColor := backgroundColor (declared a); color := EmptyString |}.

Section CSS.

(** The browser's parser for the values of the two properties, which
    are colours: the value as the declaration will show it, or [None]
    for text that is no colour. *)
Variable CSS_color : string -> option string.

(** style.backgroundColor = v and style.color = v, with [None] for null.
    Null and the empty string take the declaration out.  Any other
    value is parsed: text that is no colour is ignored, and the
    declaration, if there is one, stays as it is; a colour is declared,
    and the browser writes the attribute. *)
Definition assign_backgroundColor (v : option string) (a : StyleAttribute) : StyleAttribute :=
  match v with
  | None => remove_backgroundColor a
  | Some s =>
      if String.eqb s EmptyString then remove_backgroundColor a
      else match CSS_color s with
           | Some c => Written {| backgroundColor := c; color := color (declared a) |}
           | None => a
           end
  end.

Definition assign_color (v : option string) (a : StyleAttribute) : StyleAttribute :=
  match v with
  | None => remove_color a
  | Some s =>
      if String.eqb s EmptyString then remove_color a
      else match CSS_color s with
           | Some c => Written {| backgroundColor := backgroundColor (declared a); color := c |}
           | None => a
           end
  end.

Definition set_backgroundColor (v : option string) (n : Node) : Node :=
  match n with
  | Element t a s cs => Element t a (assign_backgroundColor v s) cs
  | Text _ => n
  end.

Definition set_color (v : option string) (n : Node) : Node :=
  match n with
  | Element t a s cs => Element t a (assign_color v s) cs
  | Text _ => n
  end.

End CSS.

Definition setAttribute (name value : string) (n : Node) : Node :=
  match n with
  | Element t a s cs => Element t (URLSearchParams_set name value a) s cs
  | Text _ => n
  end.

(** node.textContent = v, with [None] for null. *)
Definition set_textContent (v : option string) (n : Node) : Node :=
  match n with
  | Element t a s _ =>
      Element t a s match v with
                    | Some d => if String.eqb d EmptyString then [] else [Text d]
                    | None => []
                    end
  | Text _ => n
  end.

Definition appendChild (c : Node) (n : Node) : Node :=
  match n with
  | Element t a s cs => Element t a s (cs ++ [c])
  | Text _ => n
  end.

(** The child at position [i] taken out. *)
Definition removeChild (i : nat) (n : Node) : Node :=
  match n with
  | Element t a s cs => Element t a s (delete i cs)
  | Text _ => n
  end.

End Dom.

(** TextDocumentDecoration of the CXP protocol: the start line of the
    range, the background colour, and the attachment rendered after the
    line. *)
Module Protocol.

Record DecorationAttachment : Type := {
  backgroundColor : option string;
  color : option string;
  contentText : option string;
  linkURL : option string
}.

Record TextDocumentDecoration : Type := {
  line : nat;
  decoration_backgroundColor : option string;
  after : option DecorationAttachment
}.

End Protocol.

(** A value used as a condition or on the left of [||]: an absent or
    empty string is falsy. *)
Definition nonempty (v : option string) : option string :=
  match v with
  | Some s => if String.eqb s EmptyString then None else Some s
  | None => None
  end.

(** v || null is [nonempty v], with [None] for null. *)

(** `${n}` for a line number *)
Definition decimal (n : nat) : string := NilEmpty.string_of_uint (Nat.to_uint n).

(** A disposable is what its [dispose] does to the page. *)
Definition Disposable : Type := JS Dom.Node unit.

Fixpoint mergeDisposables (disposables : list Disposable) : Disposable :=
  match disposables with
  | [] => ret tt
  | d :: ds => do! d in mergeDisposables ds
  end.

Section Renderer.

Variable CSS_color : string -> option string.

(** linkTo(url)(e), lines 329-335 *)
Definition linkTo (after_color : option string) (url : string) (e : Dom.Node) : Dom.Node :=
  let link := Dom.createElement "a" in
  let link := Dom.setAttribute "href" url link in
  let link := Dom.set_color CSS_color (nonempty after_color) link in
  Dom.appendChild e link.

(** The annotation node of lines 336-339. *)
Definition annotation_of (a : Protocol.DecorationAttachment) : Dom.Node :=
  let after := Dom.createElement "span" in
  let after := Dom.set_backgroundColor CSS_color (nonempty (Protocol.backgroundColor a)) after in
  let after := Dom.set_textContent (nonempty (Protocol.contentText a)) after in
  match nonempty (Protocol.linkURL a) with
  | Some url => linkTo (Protocol.color a) url after
  | None => after
  end.

Definition line_matched_message (ghLineNumber k : nat) : string :=
  "Line number " +:+ decimal ghLineNumber +:+ " matched " +:+ decimal k
    +:+ " elements (expected 1)".

Definition line_falsy_message (ghLineNumber : nat) : string :=
  "Line " +:+ decimal ghLineNumber +:+ " is falsy: [object HTMLTableCellElement]".

(** applyDecoration({ fileElement, decoration }); the store is the host
    element [fileElement] with all that is below it.  The test
    [!lineNumberElements] of line 303 is on the list that
    [querySelectorAll] returns, which is an object and never falsy, so
    the test at line 306 is the first that can throw.  The nodes the
    disposables hold on to are kept by their paths: the annotation is
    taken out again at the position at which it was appended.  A
    disposable is therefore followed only on pages on which the line
    element is where it was and no child has been put before the
    annotation or taken from there: the page that [applyDecoration]
    left, and that page after the disposable has run. *)
Definition applyDecoration (decoration : Protocol.TextDocumentDecoration)
  : JS Dom.Node Disposable :=
  let ghLineNumber := Protocol.line decoration + 1 in
  let! fileElement := get in
  let lineNumberElements := Dom.querySelectorAll_td_line (decimal ghLineNumber) fileElement in
  if negb (Nat.eqb (length lineNumberElements) 1) then
    throw (Error (line_matched_message ghLineNumber (length lineNumberElements)))
  else
    match lineNumberElements with
    | [] => throw (Error ("Line number " +:+ decimal ghLineNumber +:+ " is falsy: undefined"))
    | lineNumberElement :: _ =>
        match Dom.nextElementSibling lineNumberElement fileElement with
        | None => throw (Error (line_falsy_message ghLineNumber))
        | Some lineElement =>
            let! disposables1 :=
              match nonempty (Protocol.decoration_backgroundColor decoration) with
              | Some c =>
                  do! modify (Dom.update_at lineElement
                                (Dom.set_backgroundColor CSS_color (Some c))) in
                  ret [modify (Dom.update_at lineElement
                                 (Dom.set_backgroundColor CSS_color None))]
              | None => ret []
              end in
            let! disposables2 :=
              match Protocol.after decoration with
              | Some a =>
                  let annotation := annotation_of a in
                  let! page := get in
                  let position :=
                    match Dom.node_at lineElement page with
                    | Some n => length (Dom.children_of n)
                    | None => 0
                    end in
                  do! modify (Dom.update_at lineElement (Dom.appendChild annotation)) in
                  ret [modify (Dom.update_at lineElement (Dom.removeChild position))]
              | None => ret []
              end in
            ret (mergeDisposables (disposables1 ++ disposables2))
        end
    end.

End Renderer.

(** ** The states of a client (lines 84-122 and 425-463) *)

Module ClientState.

Inductive t : Type :=
| Initial
| Connecting
| Initializing
| ActivateFailed
| Active
| ShuttingDown
| Stopped.

End ClientState.

Definition clientStateToColor (state : ClientState.t) : string :=
  match state with
  | ClientState.Initial => "AliceBlue"
  | ClientState.Connecting => "AliceBlue"
  | ClientState.Initializing => "AliceBlue"
  | ClientState.ActivateFailed => "Pink"
  | ClientState.Active => "PaleGreen"
  | ClientState.ShuttingDown => "LemonChiffon"
  | ClientState.Stopped => "LightGray"
  end.

Definition clientStateToName (state : ClientState.t) : string :=
  match state with
  | ClientState.Initial => "Initial"
  | ClientState.Connecting => "Connecting"
  | ClientState.Initializing => "Initializing"
  | ClientState.ActivateFailed => "ActivateFailed"
  | ClientState.Active => "Active"
  | ClientState.ShuttingDown => "ShuttingDown"
  | ClientState.Stopped => "Stopped"
  end.

Definition RESET_COLOR : string := "font-weight:normal;background-color:unset".

(** The arguments of [console.log] in the subscription to the client
    states (lines 152-159 and 493-500). *)
Definition clientStateLog (state : ClientState.t) : list string :=
  ["%c CXP client %s %c";
   "background-color:" +:+ clientStateToColor state;
   clientStateToName state;
   RESET_COLOR].

(** ** Messages shown to the user (lines 160-172 and 501-513)

    The dialogs of the page: what was alerted, what was prompted (text
    and default answer), and what the requests were resolved with. *)

Record MessageActionItem : Type := { title : string }.

Record UI : Type := {
  alerts : list string;
  prompts : list (string * string);
  resolutions : list (option MessageActionItem)
}.

Definition alert (text : string) : JS UI unit :=
  modify (fun ui => {| alerts := alerts ui ++ [text]; prompts := prompts ui;
                       resolutions := resolutions ui |}).

(** resolve(v), the callback that comes with a request *)
Definition request_resolve (v : option MessageActionItem) : JS UI unit :=
  modify (fun ui => {| alerts := alerts ui; prompts := prompts ui;
                       resolutions := resolutions ui ++ [v] |}).

Definition newline : string := String (ascii_of_nat 10) EmptyString.

(** Array.prototype.join *)
Fixpoint join (separator : string) (l : list string) : string :=
  match l with
  | [] => EmptyString
  | [s] => s
  | s :: l' => s +:+ separator +:+ join separator l'
  end.

Section Dialogs.

(** What the user answers to [prompt(text, default)]: a string, or
    [None] for a dismissed dialog (prompt returns null). *)
Variable answer : string -> string -> option string.

Definition prompt (text default : string) : JS UI (option string) :=
  fun ui => (Normal (answer text default),
             {| alerts := alerts ui; prompts := prompts ui ++ [(text, default)];
                resolutions := resolutions ui |}).

(** The subscriber of [controller.showMessages]. *)
Definition onShowMessage (message : string) : JS UI unit := alert message.

(** The subscriber of [controller.showMessageRequests], called with
    { message, actions, resolve }; [actions] may be missing. *)
Definition onShowMessageRequest (message : string) (actions : option (list MessageActionItem))
  : JS UI unit :=
  match actions with
  | None => do! alert message in request_resolve None
  | Some [] => do! alert message in request_resolve None
  | Some (first :: rest) =>
      let actions := first :: rest in
      let! value :=
        prompt (message +:+ newline +:+ newline +:+ "Valid responses: "
                  +:+ join ", " (map (fun a => JSON_stringify (title a)) actions))
               (title first) in
      request_resolve
        match value with
        | Some v => List.find (fun a => String.eqb (title a) v) actions
        | None => None
        end
  end.

End Dialogs.

(** ** Creating the controller (lines 133-212 and 474-553)

    Of [createController] the part that touches the page is kept: the
    debug helpers of lines 185-209.  The controller is named by the
    number of controllers created before it; [environment_logged] lists
    the controllers whose environment changes are logged, [cxp] and
    [cxpenv] tell for which controller the properties of those names are
    defined on [window], if they are. *)
Record Window : Type := {
  traceCXP : option string;          (* localStorage.getItem('traceCXP') *)
  created : nat;
  environment_logged : list nat;
  cxp : option nat;
  cxpenv : option nat
}.

Definition new_Controller : JS Window nat :=
  fun w => (Normal (created w),
            {| traceCXP := traceCXP w; created := S (created w);
               environment_logged := environment_logged w;
               cxp := cxp w; cxpenv := cxpenv w |}).

Definition environment_subscribe (controller : nat) : JS Window unit :=
  modify (fun w => {| traceCXP := traceCXP w; created := created w;
                      environment_logged := environment_logged w ++ [controller];
                      cxp := cxp w; cxpenv := cxpenv w |}).

(** if (!('cxp' in window)) Object.defineProperty(window, 'cxp', ...) *)
Definition define_cxp (controller : nat) : JS Window unit :=
  modify (fun w => {| traceCXP := traceCXP w; created := created w;
                      environment_logged := environment_logged w;
                      cxp := match cxp w with
                             | Some c => Some c
                             | None => Some controller
                             end;
                      cxpenv := cxpenv w |}).

Definition define_cxpenv (controller : nat) : JS Window unit :=
  modify (fun w => {| traceCXP := traceCXP w; created := created w;
                      environment_logged := environment_logged w;
                      cxp := cxp w;
                      cxpenv := match cxpenv w with
                                | Some c => Some c
                                | None => Some controller
                                end |}).

(** localStorage.getItem('traceCXP') === 'verbose' *)
Definition verbose (w : Window) : bool :=
  match traceCXP w with
  | Some s => String.eqb s "verbose"
  | None => false
  end.

Definition createController : JS Window nat :=
  let! controller := new_Controller in
  let! w := get in
  do! (if verbose w then
         do! environment_subscribe controller in
         do! define_cxp controller in
         define_cxpenv controller
       else ret tt) in
  ret controller.

(** ** The configured extensions (lines 24-40 and 375-392) *)

Module Configured.

(** ConfiguredExtension of extensions-client-common, reduced to the
    fields read here. *)
Record ConfiguredExtension : Type := {
  extensionID : string;
  settings : string;
  isEnabled : bool;
  manifest : ManifestField
}.

End Configured.

(** The settings of the result are { merged: x.settings }; the model
    keeps them as the value merged. *)
Definition configuredExtensionToCXPExtensionWithManifest (x : Configured.ConfiguredExtension)
  : CXPExtensionWithManifest :=
  {| id := Configured.extensionID x;
     settings := Configured.settings x;
     isEnabled := Configured.isEnabled x;
     manifest := Configured.manifest x |}.

(** The environment given to [setEnvironment] by the subscription of
    lines 24-36: the current environment of the controller with the
    extensions replaced. *)
Definition environment_of_configured (current : Environment)
  (configuredExtensions : list Configured.ConfiguredExtension) : Environment :=
  {| root := root current;
     component := component current;
     extensions := Some (map configuredExtensionToCXPExtensionWithManifest
                           configuredExtensions) |}.

(** The environment given to [setEnvironment] by the subscription of
    lines 382-388, from the latest configured extensions and the latest
    root and component. *)
Definition environment_of_latest
  (configuredExtensions : list Configured.ConfiguredExtension)
  (rootAndComponent : option string * option Component) : Environment :=
  {| root := fst rootAndComponent;
     component := snd rootAndComponent;
     extensions := Some (map configuredExtensionToCXPExtensionWithManifest
                           configuredExtensions) |}.

(** * Properties

    What follows states and proves the properties.  First the notions
    they are stated with. *)

(** ** Notions for the activation filter *)

(** The verdict on one extension, evaluated on its own: [true] when the
    [try] block returns [true] for it. *)
Definition activates (env : Environment) (x : CXPExtensionWithManifest) : bool :=
  match fst (tryBlock env x []) with
  | Normal (Some true) => true
  | _ => false
  end.

(** What evaluating one extension on its own throws, if anything. *)
Definition thrown (env : Environment) (x : CXPExtensionWithManifest) : list Exn :=
  match fst (tryBlock env x []) with
  | Throw e => [e]
  | Normal _ => []
  end.

Definition extension_list (env : Environment) : list CXPExtensionWithManifest :=
  match extensions env with
  | Some xs => xs
  | None => []
  end.

(** Sample data: the extensions and snapshots the properties are tried on. *)

Definition websocket_platform : Platform :=
  {| type := "websocket"; url := Some "wss://h/x"; address := None |}.

Definition tcp_platform : Platform :=
  {| type := "tcp"; url := None; address := Some "langserver:4389" |}.

Definition pigeon_platform : Platform :=
  {| type := "carrierpigeon"; url := None; address := None |}.

Definition ext_wild : CXPExtensionWithManifest :=
  {| id := "x"; settings := "{}"; isEnabled := true;
     manifest := Manifest {| activationEvents := EventsArray ["*"];
                             platform := websocket_platform |} |}.

Definition ext_go : CXPExtensionWithManifest :=
  {| id := "lang-go"; settings := "{}"; isEnabled := true;
     manifest := Manifest {| activationEvents := EventsArray ["onLanguage:go"];
                             platform := tcp_platform |} |}.

Definition ext_off : CXPExtensionWithManifest :=
  {| id := "off"; settings := "{}"; isEnabled := false;
     manifest := Manifest {| activationEvents := EventsArray ["*"];
                             platform := websocket_platform |} |}.

Definition ext_broken : CXPExtensionWithManifest :=
  {| id := "broken"; settings := "{}"; isEnabled := true;
     manifest := Manifest {| activationEvents := EventsString "*";
                             platform := websocket_platform |} |}.

Definition ext_null : CXPExtensionWithManifest :=
  {| id := "none"; settings := "{}"; isEnabled := true; manifest := ManifestNull |}.

Definition ext_error : CXPExtensionWithManifest :=
  {| id := "bad"; settings := "{}"; isEnabled := true;
     manifest := ManifestError {| message := "Unexpected token"; code := None |} |}.

Definition ext_pigeon : CXPExtensionWithManifest :=
  {| id := "pigeon"; settings := "{}"; isEnabled := true;
     manifest := Manifest {| activationEvents := EventsArray ["*"];
                             platform := pigeon_platform |} |}.

Definition go_component : Component :=
  {| document := {| uri := "git://repo?rev#main.go"; languageId := "go"; text := "package main" |} |}.

Definition sample_env : Environment :=
  {| root := Some "git://repo?rev";
     component := Some go_component;
     extensions := Some [ext_wild; ext_broken; ext_go; ext_off; ext_null; ext_error] |}.

(** ** Notions for the transports *)

(** Either copy of the factory. *)
Definition is_factory (URL_parse : string -> option URL) (URL_href : URL -> string)
  (f : Factory) : Prop :=
  f = CxpLib.createMessageTransports URL_parse URL_href \/
  f = CxpModule.createMessageTransports.

(** [u] is the lsp-proxy URL for an extension and a root, made from the
    base URL [base]: the scheme is wss for https and ws otherwise, the
    path is .api/lsp, the parameters mode and rootUri are the extension
    id and the root, host and fragment are those of the base. *)
Definition bridged (base : URL) (extension_id root : string) (u : URL) : Prop :=
  protocol u = (if String.eqb (protocol base) "https:" then "wss:" else "ws:") /\
  host u = host base /\
  pathname u = ".api/lsp" /\
  URLSearchParams_get "mode" (searchParams u) = Some extension_id /\
  URLSearchParams_get "rootUri" (searchParams u) = Some root /\
  hash u = hash base.

(** The tcp branch as the design document has it: whatever URL string
    the Sourcegraph URL turns out to be, the socket of a tcp extension
    activated while it was awaited is opened at the URL bridged from it. *)
Definition bridges_configured_origin (URL_parse : string -> option URL)
  (URL_href : URL -> string) (f : Factory) : Prop :=
  forall extension options m urlString base,
    manifest extension = Manifest m ->
    type (platform m) = "tcp" ->
    URL_parse urlString = Some base ->
    exists u,
      sockets (life URL_parse URL_href f [Activate extension options; SourcegraphURL urlString])
      = [URL_href u] /\
      bridged base (id extension) (root_or_empty options) u.

(** A settled promise keeps its state. *)
Definition settled_stay (w w' : Browser) : Prop :=
  forall p st, promises w !! p = Some st -> st <> Pending -> promises w' !! p = Some st.

(** Responses correlated with requests, as the design document asks:
    with the requests [j] and [k] both in flight (their promises
    pending, their listeners on the control port), the answer to request
    [j] leaves the promise of request [k] pending. *)
Definition responses_correlated (URL_parse : string -> option URL)
  (URL_href : URL -> string) (f : Factory) : Prop :=
  forall evs j k pj pk response,
    let w := life URL_parse URL_href f evs in
    j <> k ->
    listeners w !! j = Some (fst loaded, pj) ->
    listeners w !! k = Some (fst loaded, pk) ->
    promises w !! pj = Some Pending ->
    promises w !! pk = Some Pending ->
    promises (step URL_parse URL_href f (fst loaded) w (ControlMessage j response)) !! pk
    = Some Pending.

(** A browser's URL parser and serialiser on the two URLs of the
    samples. *)
Definition sample_parse (s : string) : option URL :=
  if String.eqb s "https://sourcegraph.com" then
    Some {| protocol := "https:"; host := "sourcegraph.com"; pathname := "/";
            searchParams := []; hash := EmptyString |}
  else if String.eqb s "http://localhost:3080" then
    Some {| protocol := "http:"; host := "localhost:3080"; pathname := "/";
            searchParams := []; hash := EmptyString |}
  else None.

Fixpoint sample_query (l : list (string * string)) : string :=
  match l with
  | [] => EmptyString
  | [(n, v)] => n +:+ "=" +:+ v
  | (n, v) :: l' => n +:+ "=" +:+ v +:+ "&" +:+ sample_query l'
  end.

Definition sample_href (u : URL) : string :=
  protocol u +:+ "//" +:+ host u +:+ "/" +:+ pathname u +:+ "?" +:+ sample_query (searchParams u).

Definition sample_options : ClientOptions := {| options_root := Some "git://repo" |}.

Definition ext_bundle : CXPExtensionWithManifest :=
  {| id := "y"; settings := "{}"; isEnabled := true;
     manifest := Manifest {| activationEvents := EventsArray ["*"];
                             platform := {| type := "bundle";
                                            url := Some "https://h/y.js";
                                            address := None |} |} |}.

(** Everything posted and every listener is on the control port, the
    control port is the one opened under the name CONTROL, and there is
    one listener per request. *)
Definition on_control (CONTROL : PortId) (w : Browser) : Prop :=
  Forall (fun m => fst m = CONTROL) (posted w) /\
  Forall (fun l => fst l = CONTROL) (listeners w) /\
  ports w !! CONTROL = Some "CONTROL" /\
  length (posted w) = length (listeners w).

(** ** Sample pages and decorations *)

Definition td_line (n : string) : Dom.Node :=
  Dom.Element "td" [("data-line-number", n)] Dom.NoStyle [].

(** A cell of code: without a style attribute, or with one that gives
    it a background colour. *)
Definition td_code (background : string) (code : string) : Dom.Node :=
  Dom.Element "td" [("class", "blob-code")]
    (if String.eqb background EmptyString then Dom.NoStyle
     else Dom.Authored {| Dom.backgroundColor := background; Dom.color := EmptyString |})
    [Dom.Text code].

(** A browser's parser of colours, on the colour names of the samples. *)
Definition sample_color (s : string) : option string :=
  if existsb (String.eqb s) ["red"; "green"; "blue"; "white"; "yellow"] then Some s
  else None.

Definition sample_page : Dom.Node :=
  Dom.Element "table" [] Dom.NoStyle
    [Dom.Element "tr" [] Dom.NoStyle [td_line "1"; td_code EmptyString "package main"];
     Dom.Element "tr" [] Dom.NoStyle [td_line "2"; td_code "yellow" "func main() {}"]].

Definition ambiguous_page : Dom.Node :=
  Dom.Element "table" [] Dom.NoStyle
    [Dom.Element "tr" [] Dom.NoStyle [td_line "1"; td_code EmptyString "package main"];
     Dom.Element "tr" [] Dom.NoStyle [td_line "1"; td_code EmptyString "func main() {}"]].

Definition sample_attachment : Protocol.DecorationAttachment :=
  {| Protocol.backgroundColor := Some "blue"; Protocol.color := Some "white";
     Protocol.contentText := Some "3 references"; Protocol.linkURL := Some "https://h/refs" |}.

(** A red background and an annotation on the given line (from 0). *)
Definition sample_decoration (line : nat) : Protocol.TextDocumentDecoration :=
  {| Protocol.line := line;
     Protocol.decoration_backgroundColor := Some "red";
     Protocol.after := Some sample_attachment |}.

(** Apply a decoration, then dispose of it: the page that is left, if
    the decoration could be applied. *)
Definition apply_then_dispose (CSS_color : string -> option string)
  (decoration : Protocol.TextDocumentDecoration) (fileElement : Dom.Node) : option Dom.Node :=
  match applyDecoration CSS_color decoration fileElement with
  | (Normal disposable, page) => Some (snd (disposable page))
  | (Throw _, _) => None
  end.

(** The round trip of the design document: whenever a decoration can be
    applied, applying and disposing leaves the page as it was. *)
Definition decoration_round_trip (CSS_color : string -> option string) : Prop :=
  forall decoration fileElement page,
    apply_then_dispose CSS_color decoration fileElement = Some page -> page = fileElement.

(** What applying a decoration and disposing of it leaves of the line
    element: the background colour of the decoration, if it has one, has
    been assigned to it, and then null. *)
Definition cleared (CSS_color : string -> option string)
  (decoration : Protocol.TextDocumentDecoration) (n : Dom.Node) : Dom.Node :=
  match nonempty (Protocol.decoration_backgroundColor decoration) with
  | Some c => Dom.set_backgroundColor CSS_color None
                (Dom.set_backgroundColor CSS_color (Some c) n)
  | None => n
  end.

(** An annotation and no background colour, on the given line (from 0). *)
Definition annotation_decoration (line : nat) : Protocol.TextDocumentDecoration :=
  {| Protocol.line := line;
     Protocol.decoration_backgroundColor := None;
     Protocol.after := Some sample_attachment |}.

(** ** Notions for the further properties *)

(** An enabled extension whose manifest has, where the list of
    activation events should be, a truthy value that is no list: a
    non-empty string, [true], a number other than 0, or an object. *)
Definition misdeclared (x : CXPExtensionWithManifest) : bool :=
  isEnabled x &&
  match manifest x with
  | Manifest m =>
      match activationEvents m with
      | EventsArray _ => false
      | a => truthy a
      end
  | _ => false
  end.

Definition some_is_not_a_function : Exn :=
  TypeError "x.manifest.activationEvents.some is not a function".

(** The first three states of a client. *)
Definition starting (state : ClientState.t) : bool :=
  match state with
  | ClientState.Initial | ClientState.Connecting | ClientState.Initializing => true
  | _ => false
  end.

(** [createController] called [n] times in a row. *)
Fixpoint create_controllers (n : nat) (w : Window) : Window :=
  match n with
  | 0 => w
  | S n' => create_controllers n' (snd (createController w))
  end.

(** How many parameters of a name a URL has. *)
Definition count_params (name : string) (l : list (string * string)) : nat :=
  length (List.filter (fun nv => String.eqb (fst nv) name) l).

(** Sample configured extensions and dialogs. *)
Definition configured_wild : Configured.ConfiguredExtension :=
  {| Configured.extensionID := "x"; Configured.settings := "{}";
     Configured.isEnabled := true;
     Configured.manifest := manifest ext_wild |}.

Definition configured_broken : Configured.ConfiguredExtension :=
  {| Configured.extensionID := "broken"; Configured.settings := "{}";
     Configured.isEnabled := true;
     Configured.manifest := manifest ext_broken |}.

Definition yes_no : list MessageActionItem := [{| title := "Yes" |}; {| title := "No" |}].

Definition empty_ui : UI := {| alerts := []; prompts := []; resolutions := [] |}.

(** A user who types No, and one who accepts what is offered. *)
Definition types_no (text default : string) : option string := Some "No".
Definition accepts (text default : string) : option string := Some default.

Definition verbose_window : Window :=
  {| traceCXP := Some "verbose"; created := 0; environment_logged := [];
     cxp := None; cxpenv := None |}.

Definition ext_both : CXPExtensionWithManifest :=
  {| id := "both"; settings := "{}"; isEnabled := true;
     manifest := Manifest {| activationEvents := EventsArray ["onLanguage:go"; "*"];
                             platform := tcp_platform |} |}.

(** The URL at which the callback waiting for the Sourcegraph URL opens
    its socket, when that URL parses to [base]. *)
Definition waiter_href (URL_href : URL -> string) (base : URL) (k : URLWaiter) : string :=
  URL_href (bridgeURL base (waiter_id k)
              (match waiter_root k with
               | Some r => r
               | None => EmptyString
               end)).

Definition invalid_URL : Exn := TypeError "Failed to construct 'URL': Invalid URL".

(** The promises are well named: every listener on a port, every
    callback waiting for the URL and every listener for a socket holds a
    promise that exists, and no promise is held by two of these kinds. *)
Definition well_named (w : Browser) : Prop :=
  (forall l, In l (listeners w) -> snd l < length (promises w)) /\
  (forall k, In k (waiters w) -> waiter_promise k < length (promises w)) /\
  (forall s, In s (socket_listeners w) -> snd s < length (promises w)) /\
  (forall l k, In l (listeners w) -> In k (waiters w) -> snd l <> waiter_promise k) /\
  (forall l s, In l (listeners w) -> In s (socket_listeners w) -> snd l <> snd s) /\
  (forall k s, In k (waiters w) -> In s (socket_listeners w) -> waiter_promise k <> snd s).

Definition is_url_event (ev : Event) : bool :=
  match ev with SourcegraphURL _ => true | _ => false end.

Definition is_control_event (ev : Event) : bool :=
  match ev with ControlMessage _ _ => true | _ => false end.

(** What a decoration does to the line element, and what its
    disposable does to it afterwards: [position] is where the annotation
    was appended. *)
Definition decorated (CSS_color : string -> option string)
  (decoration : Protocol.TextDocumentDecoration) (n : Dom.Node) : Dom.Node :=
  let n := match nonempty (Protocol.decoration_backgroundColor decoration) with
           | Some c => Dom.set_backgroundColor CSS_color (Some c) n
           | None => n
           end in
  match Protocol.after decoration with
  | Some a => Dom.appendChild (annotation_of CSS_color a) n
  | None => n
  end.

Definition undone (CSS_color : string -> option string)
  (decoration : Protocol.TextDocumentDecoration) (position : nat)
  (n : Dom.Node) : Dom.Node :=
  let n := match nonempty (Protocol.decoration_backgroundColor decoration) with
           | Some _ => Dom.set_backgroundColor CSS_color None n
           | None => n
           end in
  match Protocol.after decoration with
  | Some _ => Dom.removeChild position n
  | None => n
  end.

(** Two paths that part: they agree up to some node and go on to
    different children of it. *)
Definition apart (p q : Dom.Path) : Prop :=
  exists r i j p' q', p = r ++ i :: p' /\ q = r ++ j :: q' /\ i <> j.

(** A page with a marker cell and nothing after it. *)
Definition lonely_page : Dom.Node :=
  Dom.Element "table" [] Dom.NoStyle
    [Dom.Element "tr" [] Dom.NoStyle [td_line "1"; Dom.Text "package main"]].

Definition plain_decoration (line : nat) : Protocol.TextDocumentDecoration :=
  {| Protocol.line := line;
     Protocol.decoration_backgroundColor := None;
     Protocol.after := None |}.

(** The descendants of the children [l], the first of which is child
    number [i]; and the paths, among pairs of path and node, of the nodes
    that the selector for a line number matches. *)
Fixpoint descendants_from (i : nat) (l : list Dom.Node) : list (Dom.Path * Dom.Node) :=
  match l with
  | [] => []
  | c :: l' =>
      ([i], c) :: map (fun pd => (i :: fst pd, snd pd)) (Dom.descendants c)
        ++ descendants_from (S i) l'
  end.

Definition hits (value : string) (l : list (Dom.Path * Dom.Node)) : list Dom.Path :=
  map fst (List.filter (fun pd => Dom.matches_td_line value (snd pd)) l).

(** Two nodes that the selector cannot tell apart: it matches both or
    neither, and matches the same places below them. *)
Definition same_hits (value : string) (n n' : Dom.Node) : Prop :=
  Dom.matches_td_line value n' = Dom.matches_td_line value n /\
  hits value (Dom.descendants n') = hits value (Dom.descendants n).

Definition second_decoration : Protocol.TextDocumentDecoration :=
  {| Protocol.line := 1;
     Protocol.decoration_backgroundColor := Some "green";
     Protocol.after := Some {| Protocol.backgroundColor := None; Protocol.color := None;
                               Protocol.contentText := Some "ok";
                               Protocol.linkURL := None |} |}.

(** A decoration whose background is no colour. *)
Definition odd_decoration : Protocol.TextDocumentDecoration :=
  {| Protocol.line := 1;
     Protocol.decoration_backgroundColor := Some "12px";
     Protocol.after := None |}.

(** Extensions whose activation events are a number and an object. *)
Definition ext_numbered : CXPExtensionWithManifest :=
  {| id := "numbered"; settings := "{}"; isEnabled := true;
     manifest := Manifest {| activationEvents := EventsNumber true;
                             platform := websocket_platform |} |}.

Definition ext_object : CXPExtensionWithManifest :=
  {| id := "object"; settings := "{}"; isEnabled := true;
     manifest := Manifest {| activationEvents := EventsObject;
                             platform := websocket_platform |} |}.

(** ** The activation filter *)

Lemma tryBlock_console (env : Environment) (x : CXPExtensionWithManifest) (c : Console) :
  tryBlock env x c = (fst (tryBlock env x []), c).
Proof.
  unfold tryBlock.
  destruct (isEnabled x && present (manifest x) && negb (isErrorLike (manifest x))
            && truthy (manifest_activationEvents (manifest x))); [| reflexivity].
  destruct (manifest_activationEvents (manifest x)); reflexivity.
Qed.

Lemma filterCallback_run (env : Environment) (x : CXPExtensionWithManifest) (c : Console) :
  filterCallback env x c = (Normal (activates env x), c ++ thrown env x).
Proof.
  unfold filterCallback, bind, try_catch, activates, thrown.
  rewrite tryBlock_console.
  destruct (fst (tryBlock env x [])) as [[[|]|]|e]; simpl;
    rewrite ?app_nil_r; reflexivity.
Qed.

Lemma Array_filter_run (env : Environment) (xs : list CXPExtensionWithManifest) :
  forall c : Console,
    Array_filter (filterCallback env) xs c
    = (Normal (List.filter (activates env) xs), c ++ flat_map (thrown env) xs).
Proof.
  induction xs as [|x xs IH]; intros c; simpl.
  - unfold ret. now rewrite app_nil_r.
  - unfold bind at 1. rewrite filterCallback_run.
    unfold bind at 1. rewrite IH. unfold ret.
    rewrite <- app_assoc. reflexivity.
Qed.

Lemma environmentFilter_run (env : Environment) (c : Console) :
  environmentFilter env c
  = (Normal {| root := root env;
               component := component env;
               extensions := option_map (List.filter (activates env)) (extensions env) |},
     c ++ flat_map (thrown env) (extension_list env)).
Proof.
  unfold environmentFilter, extension_list.
  destruct (extensions env) as [xs|]; unfold bind; simpl.
  - rewrite Array_filter_run. reflexivity.
  - unfold ret. now rewrite app_nil_r.
Qed.

Lemma eventMatches_iff (comp : option Component) (e : string) :
  eventMatches comp e = true <->
  e = "*" \/ exists c, comp = Some c /\ e = "onLanguage:" +:+ languageId (document c).
Proof.
  unfold eventMatches. rewrite orb_true_iff, String.eqb_eq.
  destruct comp as [c|].
  - rewrite String.eqb_eq. split; intros [H|H]; auto.
    + right. exists c. auto.
    + destruct H as (c' & Hc & He). injection Hc as <-. auto.
  - split; intros [H|H]; auto; [discriminate | destruct H as (c & Hc & _); discriminate].
Qed.

Lemma activates_iff (env : Environment) (x : CXPExtensionWithManifest) :
  activates env x = true <->
  isEnabled x = true /\
  exists m es,
    manifest x = Manifest m /\ activationEvents m = EventsArray es /\
    (In "*" es \/
     exists c, component env = Some c /\ In ("onLanguage:" +:+ languageId (document c)) es).
Proof.
  unfold activates, tryBlock.
  destruct (isEnabled x) eqn:Hen; simpl.
  2:{ split; [discriminate | intros [H _]; discriminate]. }
  destruct (manifest x) as [|err|m] eqn:Hm; simpl.
  1,2: split; [discriminate | intros (_ & m & es & H & _); discriminate].
  destruct (activationEvents m) as [|es|s| |b|nonzero|] eqn:Hev; simpl.
  - split; [discriminate | intros (_ & m' & es & H & H' & _)].
    injection H as <-. congruence.
  - destruct (existsb (eventMatches (component env)) es) eqn:Hex.
    + split; [intros _ | reflexivity]. split; [reflexivity|].
      exists m, es. repeat split; auto.
      apply existsb_exists in Hex. destruct Hex as (e & Hin & He).
      apply eventMatches_iff in He. destruct He as [->|(c & Hc & ->)]; eauto.
    + split; [discriminate|]. intros (_ & m' & es' & H & H' & Hin).
      injection H as <-. rewrite Hev in H'. injection H' as <-.
      assert (existsb (eventMatches (component env)) es = true); [|congruence].
      apply existsb_exists. destruct Hin as [Hin|(c & Hc & Hin)].
      * exists "*". split; [assumption|]. apply eventMatches_iff. auto.
      * eexists. split; [eassumption|]. apply eventMatches_iff. eauto.
  - split.
    + destruct (negb (String.eqb s EmptyString)); discriminate.
    + intros (_ & m' & es & H & H' & _). injection H as <-. congruence.
  - split; [discriminate | intros (_ & m' & es & H & H' & _)].
    injection H as <-. congruence.
  - split.
    + destruct b; discriminate.
    + intros (_ & m' & es & H & H' & _). injection H as <-. congruence.
  - split.
    + destruct nonzero; discriminate.
    + intros (_ & m' & es & H & H' & _). injection H as <-. congruence.
  - split; [discriminate | intros (_ & m' & es & H & H' & _)].
    injection H as <-. congruence.
Qed.

Lemma activates_component (env env' : Environment) (x : CXPExtensionWithManifest) :
  component env' = component env -> activates env' x = activates env x.
Proof. intros H. unfold activates, tryBlock. now rewrite H. Qed.

Lemma List_filter_twice {A} (f : A -> bool) (l : list A) :
  List.filter f (List.filter f l) = List.filter f l.
Proof.
  induction l as [|a l IH]; simpl; [reflexivity|].
  destruct (f a) eqn:Hf; simpl; rewrite ?Hf, IH; reflexivity.
Qed.

(** Some runs of the filter, from the testable properties of the design
    document. *)
Example filter_sample :
  fst (environmentFilter sample_env [])
  = Normal {| root := Some "git://repo?rev";
              component := Some go_component;
              extensions := Some [ext_wild; ext_go] |}.
Proof. reflexivity. Qed.

Example filter_sample_no_component :
  fst (environmentFilter {| root := None; component := None;
                            extensions := Some [ext_go; ext_wild; ext_off] |} [])
  = Normal {| root := None; component := None; extensions := Some [ext_wild] |}.
Proof. reflexivity. Qed.

Example filter_sample_no_extensions :
  environmentFilter {| root := None; component := None; extensions := None |} []
  = (Normal {| root := None; component := None; extensions := None |}, []).
Proof. reflexivity. Qed.

(** C1.  For every snapshot and every extension configured in it, the
    filter keeps the extension exactly when it is enabled, its manifest is
    there and is no error value, and the manifest's activation events are
    a list holding [*] or [onLanguage:] followed by the language of the
    active component.  With no component only [*] counts, and a disabled
    extension, or one whose manifest is missing or an error, is dropped. *)
Theorem environmentFilter_includes
  (env : Environment) (console : Console)
  (xs : list CXPExtensionWithManifest) (x : CXPExtensionWithManifest) :
  extensions env = Some xs ->
  In x xs ->
  exists ys console',
    environmentFilter env console
    = (Normal {| root := root env; component := component env; extensions := Some ys |},
       console') /\
    (In x ys <->
     isEnabled x = true /\
     exists m es,
       manifest x = Manifest m /\ activationEvents m = EventsArray es /\
       (In "*" es \/
        exists c, component env = Some c /\
                  In ("onLanguage:" +:+ languageId (document c)) es)) /\
    (component env = None -> In x ys ->
     exists m es, manifest x = Manifest m /\ activationEvents m = EventsArray es /\ In "*" es) /\
    (isEnabled x = false \/ manifest x = ManifestNull \/ (exists e, manifest x = ManifestError e) ->
     ~ In x ys).
Proof.
  intros Hxs Hin.
  exists (List.filter (activates env) xs), (console ++ flat_map (thrown env) xs).
  assert (Hiff : In x (List.filter (activates env) xs) <-> activates env x = true).
  { rewrite filter_In. tauto. }
  split; [| split; [| split]].
  - rewrite environmentFilter_run. unfold extension_list. rewrite Hxs. reflexivity.
  - rewrite Hiff. apply activates_iff.
  - intros Hnone Hy. apply Hiff, activates_iff in Hy.
    destruct Hy as (_ & m & es & Hm & Hes & [Hw|(c & Hc & _)]); [eauto | congruence].
  - intros Hbad Hy. apply Hiff, activates_iff in Hy.
    destruct Hy as (Hen & m & es & Hm & _).
    destruct Hbad as [H|[H|(e & H)]]; congruence.
Qed.

Lemma environmentFilter_includes_witness :
  exists ys console',
    environmentFilter sample_env []
    = (Normal {| root := root sample_env; component := component sample_env;
                 extensions := Some ys |}, console') /\
    (In ext_go ys <->
     isEnabled ext_go = true /\
     exists m es,
       manifest ext_go = Manifest m /\ activationEvents m = EventsArray es /\
       (In "*" es \/
        exists c, component sample_env = Some c /\
                  In ("onLanguage:" +:+ languageId (document c)) es)) /\
    (component sample_env = None -> In ext_go ys ->
     exists m es,
       manifest ext_go = Manifest m /\ activationEvents m = EventsArray es /\ In "*" es) /\
    (isEnabled ext_go = false \/ manifest ext_go = ManifestNull \/
     (exists e, manifest ext_go = ManifestError e) ->
     ~ In ext_go ys).
Proof.
  apply (environmentFilter_includes sample_env []
           [ext_wild; ext_broken; ext_go; ext_off; ext_null; ext_error] ext_go).
  - reflexivity.
  - simpl. auto.
Defined.

(** C7.  The filter never throws.  An exception thrown while one
    extension is evaluated is caught in the callback, logged, and makes
    the callback answer [false]; the extensions kept are those whose own
    evaluation says [true], so dropping the throwing extension from the
    input changes nothing for the others. *)
Theorem environmentFilter_catches (env : Environment) (console : Console) :
  (exists env' console',
     environmentFilter env console = (Normal env', console') /\
     extensions env' = option_map (List.filter (activates env)) (extensions env)) /\
  (forall x e c,
     fst (tryBlock env x c) = Throw e ->
     filterCallback env x c = (Normal false, c ++ [e])) /\
  (forall l1 x l2 e,
     extensions env = Some (l1 ++ x :: l2) ->
     fst (tryBlock env x console) = Throw e ->
     exists console',
       environmentFilter env console
       = (Normal {| root := root env; component := component env;
                    extensions := Some (List.filter (activates env) l1
                                          ++ List.filter (activates env) l2) |},
          console')).
Proof.
  split; [| split].
  - eexists _, _. split; [apply environmentFilter_run | reflexivity].
  - intros x e c H. rewrite filterCallback_run.
    rewrite tryBlock_console in H. simpl in H.
    unfold activates, thrown. rewrite H. reflexivity.
  - intros l1 x l2 e Hxs H.
    rewrite tryBlock_console in H. simpl in H.
    eexists. rewrite environmentFilter_run, Hxs. simpl.
    rewrite List.filter_app. simpl.
    unfold activates at 2. rewrite H. reflexivity.
Qed.

Lemma environmentFilter_catches_witness :
  filterCallback sample_env ext_broken []
  = (Normal false, [TypeError "x.manifest.activationEvents.some is not a function"]).
Proof.
  exact (proj1 (proj2 (environmentFilter_catches sample_env []))
           ext_broken
           (TypeError "x.manifest.activationEvents.some is not a function")
           [] eq_refl).
Defined.

(** C9.  The result of the filter does not depend on the console it runs
    with (the only state it touches), a second run after the first gives
    the same result, and so does a run on the result itself. *)
Theorem environmentFilter_deterministic (env : Environment) (c1 c2 : Console) :
  fst (environmentFilter env c1) = fst (environmentFilter env c2) /\
  fst (environmentFilter env (snd (environmentFilter env c1))) = fst (environmentFilter env c1) /\
  (forall env', fst (environmentFilter env c1) = Normal env' ->
                fst (environmentFilter env' c2) = Normal env').
Proof.
  rewrite !environmentFilter_run. simpl. repeat split.
  intros env' H. injection H as <-. rewrite environmentFilter_run. simpl.
  destruct (extensions env) as [xs|]; simpl; [| reflexivity].
  do 2 f_equal. f_equal.
  erewrite filter_ext; [apply List_filter_twice|].
  intros x. apply activates_component. reflexivity.
Qed.

Lemma environmentFilter_deterministic_witness :
  fst (environmentFilter
         {| root := Some "git://repo?rev"; component := Some go_component;
            extensions := Some [ext_wild; ext_go] |}
         [Error "earlier"])
  = Normal {| root := Some "git://repo?rev"; component := Some go_component;
              extensions := Some [ext_wild; ext_go] |}.
Proof.
  exact (proj2 (proj2 (environmentFilter_deterministic sample_env [] [Error "earlier"]))
           _ eq_refl).
Defined.

(** C10.  The filter returns a snapshot whose root and component are
    those of the snapshot it was given: only the extension list differs. *)
Theorem environmentFilter_frame (env : Environment) (console : Console) :
  exists env' console',
    environmentFilter env console = (Normal env', console') /\
    root env' = root env /\
    component env' = component env.
Proof.
  eexists _, _. split; [apply environmentFilter_run|]. split; reflexivity.
Qed.

(** ** Promises, ports and listeners *)

Lemma settled_stay_refl (w : Browser) : settled_stay w w.
Proof. intros p st H _. exact H. Qed.

Lemma settled_stay_trans (w1 w2 w3 : Browser) :
  settled_stay w1 w2 -> settled_stay w2 w3 -> settled_stay w1 w3.
Proof. intros H12 H23 p st H Hst. apply H23; [apply H12|]; assumption. Qed.

Lemma settle_run (p : PromiseId) (st : PromiseState) (w : Browser) :
  exists w',
    settle p st w = (Normal tt, w') /\
    ports w' = ports w /\ posted w' = posted w /\ listeners w' = listeners w /\
    sockets w' = sockets w /\ waiters w' = waiters w /\
    length (promises w') = length (promises w) /\
    (forall q, q <> p -> promises w' !! q = promises w !! q) /\
    settled_stay w w' /\
    (promises w !! p = Some Pending -> promises w' !! p = Some st).
Proof.
  unfold settle, modify.
  destruct (promises w !! p) as [st0|] eqn:E; [destruct st0|].
  2-4: eexists; (split; [reflexivity|]); repeat split;
       auto using settled_stay_refl; discriminate.
  eexists. split; [reflexivity|]. simpl.
  split; [reflexivity|]. split; [reflexivity|]. split; [reflexivity|].
  split; [reflexivity|]. split; [reflexivity|].
  split; [apply length_insert|].
  split; [intros q Hq; now apply list_lookup_insert_ne|].
  split.
  - intros q st0 Hq Hst. simpl. destruct (decide (q = p)) as [->|Hne].
    + congruence.
    + rewrite list_lookup_insert_ne; auto.
  - intros _. apply list_lookup_insert_eq. eapply lookup_lt_Some, E.
Qed.

Lemma settle_socket_listeners (p : PromiseId) (st : PromiseState) (w : Browser) :
  socket_listeners (snd (settle p st w)) = socket_listeners w.
Proof.
  unfold settle, modify. simpl.
  destruct (promises w !! p) as [[| |]|]; reflexivity.
Qed.

Lemma onMessage_listener_run (p : PromiseId) (response : ControlResponse) (w : Browser) :
  exists w',
    onMessage_listener p response w = (Normal tt, w') /\
    posted w' = posted w /\ listeners w' = listeners w /\
    sockets w' = sockets w /\ waiters w' = waiters w /\
    ports w `prefix_of` ports w' /\
    length (promises w') = length (promises w) /\
    (forall q, q <> p -> promises w' !! q = promises w !! q) /\
    settled_stay w w' /\
    (promises w !! p = Some Pending ->
     match response with
     | ErrorResponse err => promises w' !! p = Some (Rejected (Reason err))
     | PortName name =>
         exists port, promises w' !! p = Some (Fulfilled (PortMessageTransports port)) /\
                      ports w' !! port = Some name /\ length (ports w) <= port
     end).
Proof.
  destruct response as [name|err]; simpl.
  - unfold bind, chrome_runtime_connect.
    match goal with |- context [resolve p ?v ?s] =>
      destruct (settle_run p (Fulfilled v) s)
        as (w' & Hrun & Hports & Hposted & Hls & Hso & Hwa & Hlen & Hoth & Hstay & Hp)
    end.
    simpl in *. unfold resolve. rewrite Hrun. exists w'.
    repeat split; auto.
    + rewrite Hports. now apply prefix_app_r.
    + intros Hpend. eexists. split; [apply Hp, Hpend|]. rewrite Hports. split; [|lia].
      rewrite lookup_app_r by lia. now rewrite Nat.sub_diag.
  - destruct (settle_run p (Rejected (Reason err)) w)
      as (w' & Hrun & Hports & Hposted & Hls & Hso & Hwa & Hlen & Hoth & Hstay & Hp).
    unfold reject. rewrite Hrun. exists w'. repeat split; auto.
    now rewrite Hports.
Qed.

Lemma call_listeners_run (port : PortId) (response : ControlResponse)
  (ls : list (PortId * PromiseId)) :
  forall w,
    exists w',
      call_listeners ls port response w = (Normal tt, w') /\
      posted w' = posted w /\ listeners w' = listeners w /\
      sockets w' = sockets w /\ waiters w' = waiters w /\
      ports w `prefix_of` ports w' /\
      length (promises w') = length (promises w) /\
      settled_stay w w'.
Proof.
  induction ls as [|[k q] ls IH]; intros w; simpl.
  - exists w. repeat split; auto using settled_stay_refl.
  - unfold bind at 1.
    destruct (Nat.eqb k port).
    + destruct (onMessage_listener_run q response w)
        as (w1 & -> & Hpo & Hls & Hso & Hwa & Hports & Hlen & _ & Hstay & _).
      destruct (IH w1) as (w' & -> & Hpo' & Hls' & Hso' & Hwa' & Hports' & Hlen' & Hstay').
      exists w'. repeat split; try congruence.
      * etrans; eassumption.
      * eapply settled_stay_trans; eassumption.
    + unfold ret at 1. apply IH.
Qed.

Lemma call_listeners_socket_listeners (port : PortId) (response : ControlResponse)
  (ls : list (PortId * PromiseId)) :
  forall w,
    socket_listeners (snd (call_listeners ls port response w)) = socket_listeners w.
Proof.
  induction ls as [|[k q] ls IH]; intros w; [reflexivity|].
  cbn [call_listeners]. unfold bind at 1.
  destruct (Nat.eqb k port).
  - pose proof (fun v s => settle_socket_listeners q v s) as Hs.
    destruct (onMessage_listener_run q response w) as (w1 & Hrun & _).
    rewrite Hrun, IH.
    replace w1 with (snd (onMessage_listener q response w)) by now rewrite Hrun.
    destruct response as [name|err]; unfold onMessage_listener.
    + unfold bind, chrome_runtime_connect, resolve. now rewrite Hs.
    + unfold reject. now rewrite Hs.
  - unfold ret at 1. apply IH.
Qed.

(** The first listener of a pending promise settles it with the message
    it is called with; the listeners called after it leave it so. *)
Lemma call_listeners_settles (port : PortId) (response : ControlResponse) (p : PromiseId)
  (ls : list (PortId * PromiseId)) :
  forall w,
    In (port, p) ls ->
    promises w !! p = Some Pending ->
    match response with
    | ErrorResponse err =>
        promises (snd (call_listeners ls port response w)) !! p = Some (Rejected (Reason err))
    | PortName name =>
        exists k,
          promises (snd (call_listeners ls port response w)) !! p
          = Some (Fulfilled (PortMessageTransports k)) /\
          ports (snd (call_listeners ls port response w)) !! k = Some name /\
          length (ports w) <= k
    end.
Proof.
  induction ls as [|[k q] ls IH]; intros w Hin Hpend; [destruct Hin|].
  simpl. unfold bind at 1 2 3.
  destruct (Nat.eqb_spec k port) as [->|Hk].
  - destruct (onMessage_listener_run q response w)
      as (w1 & -> & _ & _ & _ & _ & Hports & _ & Hoth & _ & Hp).
    destruct (call_listeners_run port response ls w1)
      as (w' & Hrun & _ & _ & _ & _ & Hports' & _ & Hstay').
    destruct (decide (q = p)) as [->|Hq].
    + rewrite Hrun. simpl. specialize (Hp Hpend).
      destruct response as [name|err].
      * destruct Hp as (k & Hk & Hname & Hle). exists k.
        split; [apply Hstay'; [assumption | discriminate]|].
        split; [eapply prefix_lookup_Some; eassumption | assumption].
      * apply Hstay'; [assumption | discriminate].
    + assert (Hin' : In (port, p) ls).
      { destruct Hin as [H|H]; [congruence | assumption]. }
      rewrite <- Hoth in Hpend by auto.
      specialize (IH w1 Hin' Hpend).
      destruct response as [name|err]; [|exact IH].
      destruct IH as (k & ? & ? & Hle). exists k.
      split; [assumption|]. split; [assumption|].
      apply prefix_length in Hports. lia.
  - unfold ret at 1 2 3.
    apply IH; [|assumption].
    destruct Hin as [H|H]; [congruence | assumption].
Qed.

(** ** Sockets opening and failing *)

Lemma onSocket_listener_run (socket : nat) (p : PromiseId) (failure : option string)
  (w : Browser) :
  exists w',
    onSocket_listener socket p failure w = (Normal tt, w') /\
    ports w' = ports w /\ posted w' = posted w /\ listeners w' = listeners w /\
    sockets w' = sockets w /\ waiters w' = waiters w /\
    socket_listeners w' = socket_listeners w /\
    length (promises w') = length (promises w) /\
    (forall q, q <> p -> promises w' !! q = promises w !! q) /\
    settled_stay w w' /\
    (promises w !! p = Some Pending ->
     promises w' !! p
     = Some match failure with
            | None => Fulfilled (WebSocketMessageTransports socket)
            | Some reason => Rejected (Reason reason)
            end).
Proof.
  unfold onSocket_listener, resolve, reject.
  destruct failure as [reason|].
  - pose proof (settle_socket_listeners p (Rejected (Reason reason)) w) as Hsl.
    destruct (settle_run p (Rejected (Reason reason)) w)
      as (w' & Hrun & Hports & Hposted & Hls & Hso & Hwa & Hlen & Hoth & Hstay & Hp).
    rewrite Hrun in *. exists w'. repeat split; auto.
  - pose proof (settle_socket_listeners p (Fulfilled (WebSocketMessageTransports socket)) w)
      as Hsl.
    destruct (settle_run p (Fulfilled (WebSocketMessageTransports socket)) w)
      as (w' & Hrun & Hports & Hposted & Hls & Hso & Hwa & Hlen & Hoth & Hstay & Hp).
    rewrite Hrun in *. exists w'. repeat split; auto.
Qed.

Lemma call_socket_listeners_run (socket : nat) (failure : option string)
  (ls : list (nat * PromiseId)) :
  forall w,
    exists w',
      call_socket_listeners ls socket failure w = (Normal tt, w') /\
      ports w' = ports w /\ posted w' = posted w /\ listeners w' = listeners w /\
      sockets w' = sockets w /\ waiters w' = waiters w /\
      socket_listeners w' = socket_listeners w /\
      length (promises w') = length (promises w) /\
      (forall q, (forall l, In l ls -> snd l <> q) -> promises w' !! q = promises w !! q) /\
      settled_stay w w'.
Proof.
  induction ls as [|[k q] ls IH]; intros w.
  - exists w. repeat split; auto using settled_stay_refl.
  - cbn [call_socket_listeners]. unfold bind at 1.
    destruct (Nat.eqb k socket).
    + destruct (onSocket_listener_run socket q failure w)
        as (w1 & -> & Hports & Hposted & Hls & Hso & Hwa & Hsl & Hlen & Hoth & Hstay & _).
      destruct (IH w1)
        as (w' & -> & Hports' & Hposted' & Hls' & Hso' & Hwa' & Hsl' & Hlen' & Hoth' & Hstay').
      exists w'. split; [reflexivity|].
      do 7 (split; [congruence|]).
      split.
      * intros p Hp. rewrite Hoth'.
        -- apply Hoth. intros Heq. apply (Hp (k, q)); [now left | simpl; congruence].
        -- intros l Hl. apply Hp. now right.
      * eapply settled_stay_trans; eassumption.
    + unfold ret at 1.
      destruct (IH w)
        as (w' & -> & Hports' & Hposted' & Hls' & Hso' & Hwa' & Hsl' & Hlen' & Hoth' & Hstay').
      exists w'. split; [reflexivity|].
      do 7 (split; [assumption|]).
      split; [|assumption].
      intros p Hp. apply Hoth'. intros l Hl. apply Hp. now right.
Qed.

(** The first listener that a pending promise has on a socket settles
    it when the socket opens or fails; the listeners called after it
    leave it so. *)
Lemma call_socket_listeners_settles (socket : nat) (failure : option string) (p : PromiseId)
  (ls : list (nat * PromiseId)) :
  forall w,
    In (socket, p) ls ->
    promises w !! p = Some Pending ->
    promises (snd (call_socket_listeners ls socket failure w)) !! p
    = Some match failure with
           | None => Fulfilled (WebSocketMessageTransports socket)
           | Some reason => Rejected (Reason reason)
           end.
Proof.
  induction ls as [|[k q] ls IH]; intros w Hin Hpend; [destruct Hin|].
  cbn [call_socket_listeners]. unfold bind at 1.
  destruct (Nat.eqb_spec k socket) as [->|Hk].
  - destruct (onSocket_listener_run socket q failure w)
      as (w1 & -> & _ & _ & _ & _ & _ & _ & _ & Hoth & _ & Hp).
    destruct (decide (q = p)) as [->|Hq].
    + destruct (call_socket_listeners_run socket failure ls w1)
        as (w' & -> & _ & _ & _ & _ & _ & _ & _ & _ & Hstay).
      cbn [snd]. apply Hstay; [now apply Hp|].
      destruct failure; discriminate.
    + apply IH.
      * destruct Hin as [H|H]; [congruence | assumption].
      * rewrite Hoth by auto. exact Hpend.
  - unfold ret at 1. apply IH; [|assumption].
    destruct Hin as [H|H]; [congruence | assumption].
Qed.

(** ** The awaited Sourcegraph URL *)

Section WaitingForURL.

Variable URL_parse : string -> option URL.
Variable URL_href : URL -> string.

Lemma onSourcegraphURL_run (k : URLWaiter) (urlString : string) (w : Browser) :
  exists w',
    onSourcegraphURL URL_parse URL_href k urlString w = (Normal tt, w') /\
    ports w' = ports w /\ posted w' = posted w /\ listeners w' = listeners w /\
    waiters w' = waiters w /\
    sockets w `prefix_of` sockets w' /\
    length (promises w') = length (promises w) /\
    (forall q, q <> waiter_promise k -> promises w' !! q = promises w !! q) /\
    settled_stay w w' /\
    (forall base,
       URL_parse urlString = Some base ->
       sockets w' = sockets w ++ [URL_href (bridgeURL base (waiter_id k)
                                              (match waiter_root k with
                                               | Some r => r
                                               | None => EmptyString
                                               end))] /\
       socket_listeners w'
       = socket_listeners w ++ [(length (sockets w), waiter_promise k)] /\
       promises w' = promises w) /\
    (URL_parse urlString = None ->
     sockets w' = sockets w /\
     socket_listeners w' = socket_listeners w /\
     (promises w !! waiter_promise k = Some Pending ->
      promises w' !! waiter_promise k
      = Some (Rejected (TypeError "Failed to construct 'URL': Invalid URL")))).
Proof.
  unfold onSourcegraphURL, try_catch, bind, new_URL.
  destruct (URL_parse urlString) as [base|].
  - unfold ret, new_WebSocket, socket_settles, modify. simpl.
    eexists. split; [reflexivity|]. simpl.
    do 4 (split; [reflexivity|]).
    split; [now apply prefix_app_r|].
    do 2 (split; [reflexivity|]).
    split; [intros p st H _; exact H|].
    split; [|discriminate].
    intros base' Hb. injection Hb as <-. repeat split.
  - unfold throw.
    pose proof (settle_socket_listeners (waiter_promise k)
                  (Rejected (TypeError "Failed to construct 'URL': Invalid URL")) w) as Hsl.
    destruct (settle_run (waiter_promise k)
                (Rejected (TypeError "Failed to construct 'URL': Invalid URL")) w)
      as (w' & Hrun & Hports & Hposted & Hls & Hso & Hwa & Hlen & Hoth & Hstay & Hp).
    unfold reject. rewrite Hrun in *. exists w'.
    split; [reflexivity|]. do 4 (split; [assumption|]).
    split; [now rewrite Hso|].
    do 3 (split; [assumption|]).
    split; [discriminate|].
    intros _. repeat split; assumption.
Qed.

Lemma call_waiters_run (urlString : string) (ks : list URLWaiter) :
  forall w,
    exists w',
      call_waiters URL_parse URL_href ks urlString w = (Normal tt, w') /\
      ports w' = ports w /\ posted w' = posted w /\ listeners w' = listeners w /\
      waiters w' = waiters w /\
      sockets w `prefix_of` sockets w' /\
      length (promises w') = length (promises w) /\
      (forall q, Forall (fun k => waiter_promise k <> q) ks ->
                 promises w' !! q = promises w !! q) /\
      settled_stay w w'.
Proof.
  induction ks as [|k ks IH]; intros w; simpl.
  - exists w. repeat split; auto using settled_stay_refl.
  - unfold bind at 1.
    destruct (onSourcegraphURL_run k urlString w)
      as (w1 & -> & Hports & Hposted & Hls & Hwa & Hso & Hlen & Hoth & Hstay & _).
    destruct (IH w1)
      as (w' & -> & Hports' & Hposted' & Hls' & Hwa' & Hso' & Hlen' & Hoth' & Hstay').
    exists w'. split; [reflexivity|].
    do 4 (split; [congruence|]).
    split; [etrans; eassumption|].
    split; [congruence|].
    split.
    + intros q Hq. inversion Hq; subst. rewrite Hoth' by assumption. apply Hoth. auto.
    + eapply settled_stay_trans; eassumption.
Qed.

Lemma call_waiters_app (urlString : string) (ks1 ks2 : list URLWaiter) :
  forall w,
    call_waiters URL_parse URL_href (ks1 ++ ks2) urlString w
    = call_waiters URL_parse URL_href ks2 urlString
        (snd (call_waiters URL_parse URL_href ks1 urlString w)).
Proof.
  induction ks1 as [|k ks1 IH]; intros w; simpl; [reflexivity|].
  unfold bind.
  destruct (onSourcegraphURL_run k urlString w) as (w1 & -> & _).
  apply IH.
Qed.

(** When the URL string parses, the callbacks settle nothing: each makes
    its socket and leaves its promise to the listeners for that socket. *)
Lemma call_waiters_opened (urlString : string) (base : URL) (ks : list URLWaiter) :
  URL_parse urlString = Some base ->
  forall w,
    socket_listeners (snd (call_waiters URL_parse URL_href ks urlString w))
    = socket_listeners w
        ++ combine (seq (length (sockets w)) (length ks)) (map waiter_promise ks) /\
    promises (snd (call_waiters URL_parse URL_href ks urlString w)) = promises w.
Proof.
  intros Hparse. induction ks as [|k ks IH]; intros w.
  - simpl. now rewrite app_nil_r.
  - cbn [call_waiters]. unfold bind at 1 2.
    destruct (onSourcegraphURL_run k urlString w)
      as (w1 & -> & _ & _ & _ & _ & _ & _ & _ & _ & Hok & _).
    destruct (Hok base Hparse) as (Hso & Hsl & Hpr).
    destruct (IH w1) as (IH1 & IH2).
    rewrite IH1, IH2, Hso, Hsl, Hpr, length_app. simpl.
    rewrite <- app_assoc. simpl.
    replace (length (sockets w) + 1) with (S (length (sockets w))) by lia.
    split; reflexivity.
Qed.

(** When it does not parse, no listener is added for any socket. *)
Lemma call_waiters_unparsed (urlString : string) (ks : list URLWaiter) :
  URL_parse urlString = None ->
  forall w,
    socket_listeners (snd (call_waiters URL_parse URL_href ks urlString w))
    = socket_listeners w.
Proof.
  intros Hparse. induction ks as [|k ks IH]; intros w; [reflexivity|].
  cbn [call_waiters]. unfold bind at 1.
  destruct (onSourcegraphURL_run k urlString w)
    as (w1 & -> & _ & _ & _ & _ & _ & _ & _ & _ & _ & Hno).
  destruct (Hno Hparse) as (_ & Hsl & _).
  now rewrite IH, Hsl.
Qed.

Lemma onSourcegraphURL_sockets (k : URLWaiter) (urlString : string) (w : Browser) :
  sockets (snd (onSourcegraphURL URL_parse URL_href k urlString w))
  = sockets w ++ match URL_parse urlString with
                 | Some base => [waiter_href URL_href base k]
                 | None => []
                 end.
Proof.
  unfold onSourcegraphURL, try_catch, bind, new_URL, waiter_href.
  destruct (URL_parse urlString) as [base|].
  - reflexivity.
  - unfold throw.
    match goal with |- context [reject ?p ?e ?s] =>
      destruct (settle_run p (Rejected e) s) as (w' & Hrun & _ & _ & _ & Hso & _)
    end.
    unfold reject. rewrite Hrun. simpl. now rewrite app_nil_r.
Qed.

Lemma call_waiters_sockets (urlString : string) (ks : list URLWaiter) :
  forall w,
    sockets (snd (call_waiters URL_parse URL_href ks urlString w))
    = sockets w ++ match URL_parse urlString with
                   | Some base => map (waiter_href URL_href base) ks
                   | None => []
                   end.
Proof.
  induction ks as [|k ks IH]; intros w.
  - simpl. destruct (URL_parse urlString); now rewrite app_nil_r.
  - cbn [call_waiters]. unfold bind at 1.
    pose proof (onSourcegraphURL_sockets k urlString w) as Hs.
    destruct (onSourcegraphURL_run k urlString w) as (w1 & Hrun & _).
    rewrite Hrun in *. cbn [snd] in Hs. rewrite IH, Hs.
    destruct (URL_parse urlString); simpl; rewrite <- app_assoc; reflexivity.
Qed.

Lemma onURL_run (urlString : string) (w : Browser) :
  exists w',
    onURL URL_parse URL_href urlString w = (Normal tt, w') /\
    ports w' = ports w /\ posted w' = posted w /\ listeners w' = listeners w /\
    waiters w' = [] /\
    sockets w `prefix_of` sockets w' /\
    length (promises w') = length (promises w) /\
    settled_stay w w'.
Proof.
  unfold onURL, bind, get, modify. simpl.
  destruct (call_waiters_run urlString (waiters w) (set_waiters [] w))
    as (w' & -> & Hports & Hposted & Hls & Hwa & Hso & Hlen & _ & Hstay).
  exists w'. repeat split; assumption.
Qed.

Lemma In_combine_seq {A} (l : list A) :
  forall n i a, l !! i = Some a -> In (n + i, a) (combine (seq n (length l)) l).
Proof.
  induction l as [|x l IH]; intros n i a Hi; [discriminate|].
  destruct i as [|i]; simpl in *.
  - injection Hi as ->. left. f_equal. lia.
  - right. replace (n + S i) with (S n + i) by lia. now apply IH.
Qed.

(** The arrival of a URL string that parses, for the callback at
    position [i] among those waiting: its socket is made at its own
    URL, the listeners for that socket hold its promise, and no promise
    is settled by the arrival. *)
Lemma onURL_opened (urlString : string) (base : URL) (w : Browser) (i : nat) (k : URLWaiter) :
  URL_parse urlString = Some base ->
  waiters w !! i = Some k ->
  sockets (snd (onURL URL_parse URL_href urlString w)) !! (length (sockets w) + i)
  = Some (waiter_href URL_href base k) /\
  promises (snd (onURL URL_parse URL_href urlString w)) = promises w /\
  In (length (sockets w) + i, waiter_promise k)
     (socket_listeners (snd (onURL URL_parse URL_href urlString w))).
Proof.
  intros Hparse Hi.
  unfold onURL, bind, get, modify. cbn [fst snd].
  destruct (call_waiters_opened urlString base (waiters w) Hparse (set_waiters [] w))
    as (Hsl & Hpr).
  rewrite call_waiters_sockets, Hparse, Hsl, Hpr. cbn [set_waiters sockets promises
                                                         socket_listeners].
  split; [|split; [reflexivity|]].
  - rewrite lookup_app_r by lia.
    replace (length (sockets w) + i - length (sockets w)) with i by lia.
    rewrite list_lookup_fmap, Hi. reflexivity.
  - apply in_or_app. right.
    rewrite <- (length_map waiter_promise).
    apply In_combine_seq. rewrite list_lookup_fmap, Hi. reflexivity.
Qed.

End WaitingForURL.

(** ** The factory and the life of the module *)

Lemma createPlatformMessageTransports_run (CONTROL : PortId) (i : string) (pl : Platform)
  (w : Browser) :
  createPlatformMessageTransports CONTROL i pl w
  = (Normal (length (promises w)),
     {| ports := ports w;
        posted := posted w ++ [(CONTROL, {| extensionID := i; requested := pl |})];
        listeners := listeners w ++ [(CONTROL, length (promises w))];
        sockets := sockets w;
        promises := promises w ++ [Pending];
        waiters := waiters w;
        socket_listeners := socket_listeners w |}).
Proof. reflexivity. Qed.

Ltac factory_cases x m :=
  let Hm := fresh "Hm" in
  unfold CxpLib.createMessageTransports, CxpModule.createMessageTransports;
  destruct (manifest x) as [| |m] eqn:Hm;
  [| | destruct (String.eqb (type (platform m)) "websocket") eqn:?;
       [| destruct (String.eqb (type (platform m)) "tcp") eqn:?;
          [| destruct (String.eqb (type (platform m)) "bundle") eqn:?]]].

Lemma prefix_of_snoc {A} (l : list A) (a : A) : l `prefix_of` l ++ [a].
Proof. now apply prefix_app_r. Qed.

(** What a call of the factory leaves behind: no port is opened; either
    nothing is posted, or one request is posted on the control port and
    one listener added to it. *)
Lemma factory_frame (URL_parse : string -> option URL) (URL_href : URL -> string)
  (f : Factory) :
  is_factory URL_parse URL_href f ->
  forall CONTROL x o w,
    ports (snd (f CONTROL x o w)) = ports w /\
    sockets w `prefix_of` sockets (snd (f CONTROL x o w)) /\
    promises w `prefix_of` promises (snd (f CONTROL x o w)) /\
    ((posted (snd (f CONTROL x o w)) = posted w /\
      listeners (snd (f CONTROL x o w)) = listeners w) \/
     (exists m,
        manifest x = Manifest m /\
        (type (platform m) = "websocket" \/ type (platform m) = "bundle") /\
        posted (snd (f CONTROL x o w))
        = posted w ++ [(CONTROL, {| extensionID := id x; requested := platform m |})] /\
        listeners (snd (f CONTROL x o w))
        = listeners w ++ [(CONTROL, length (promises w))])).
Proof.
  intros [-> | ->] CONTROL x o w; factory_cases x m; simpl;
    try (repeat split; auto using prefix_of_snoc; fail).
  - repeat split; auto using prefix_of_snoc.
    right. exists m. apply String.eqb_eq in Heqb. auto.
  - unfold bind, new_URL. destruct (URL_parse "http://localhost:3080"); simpl;
      repeat split; auto using prefix_of_snoc.
  - repeat split; auto using prefix_of_snoc.
    right. exists m. apply String.eqb_eq in Heqb1. auto.
  - repeat split; auto using prefix_of_snoc.
    right. exists m. apply String.eqb_eq in Heqb. auto.
  - repeat split; auto using prefix_of_snoc.
    right. exists m. apply String.eqb_eq in Heqb1. auto.
Qed.

Lemma prefix_settled_stay (w w' : Browser) :
  promises w `prefix_of` promises w' -> settled_stay w w'.
Proof. intros H p st Hp _. eapply prefix_lookup_Some; eassumption. Qed.

Section LifeProperties.

Variable URL_parse : string -> option URL.
Variable URL_href : URL -> string.
Variable f : Factory.
Hypothesis f_factory : is_factory URL_parse URL_href f.
Variable CONTROL : PortId.

Lemma step_frame (w : Browser) (ev : Event) :
  ports w `prefix_of` ports (step URL_parse URL_href f CONTROL w ev) /\
  settled_stay w (step URL_parse URL_href f CONTROL w ev).
Proof.
  destruct ev as [x o|j response|urlString|socket|socket reason]; simpl.
  - destruct (factory_frame _ _ _ f_factory CONTROL x o w) as (Hp & _ & Hpr & _).
    rewrite Hp. split; [reflexivity | now apply prefix_settled_stay].
  - unfold onMessage, bind, get.
    destruct (call_listeners_run CONTROL response (listeners w) w)
      as (w' & -> & _ & _ & _ & _ & Hp & _ & Hstay).
    auto.
  - destruct (onURL_run URL_parse URL_href urlString w)
      as (w' & -> & Hp & _ & _ & _ & _ & _ & Hstay).
    simpl. rewrite Hp. auto.
  - unfold onSocket, bind, get.
    destruct (call_socket_listeners_run socket None (socket_listeners w) w)
      as (w' & -> & Hp & _ & _ & _ & _ & _ & _ & _ & Hstay).
    simpl. rewrite Hp. auto.
  - unfold onSocket, bind, get.
    destruct (call_socket_listeners_run socket (Some reason) (socket_listeners w) w)
      as (w' & -> & Hp & _ & _ & _ & _ & _ & _ & _ & Hstay).
    simpl. rewrite Hp. auto.
Qed.

Lemma run_settled_stay (evs : list Event) :
  forall w, settled_stay w (run URL_parse URL_href f CONTROL evs w).
Proof.
  induction evs as [|ev evs IH]; intros w; simpl.
  - apply settled_stay_refl.
  - eapply settled_stay_trans; [apply step_frame | apply IH].
Qed.

Lemma step_on_control (w : Browser) (ev : Event) :
  on_control CONTROL w -> on_control CONTROL (step URL_parse URL_href f CONTROL w ev).
Proof.
  intros (Hpo & Hls & Hc & Hlen).
  destruct (step_frame w ev) as (Hports & _).
  assert (Hc' : ports (step URL_parse URL_href f CONTROL w ev) !! CONTROL = Some "CONTROL").
  { eapply prefix_lookup_Some; eassumption. }
  unfold on_control.
  destruct ev as [x o|j response|urlString|socket|socket reason]; simpl in *.
  - destruct (factory_frame _ _ _ f_factory CONTROL x o w)
      as (_ & _ & _ & [(-> & ->) | (m & _ & _ & -> & ->)]).
    + repeat split; assumption.
    + repeat split; [| | assumption |].
      * apply Forall_app. split; [assumption | repeat constructor].
      * apply Forall_app. split; [assumption | repeat constructor].
      * rewrite !length_app. simpl. lia.
  - unfold onMessage, bind, get in *.
    destruct (call_listeners_run CONTROL response (listeners w) w)
      as (w' & Hrun & Hpo' & Hls' & _).
    rewrite Hrun in *. simpl in *. rewrite Hpo', Hls'. repeat split; assumption.
  - destruct (onURL_run URL_parse URL_href urlString w) as (w' & Hrun & _ & Hpo' & Hls' & _).
    rewrite Hrun in *. simpl in *. rewrite Hpo', Hls'. repeat split; assumption.
  - unfold onSocket, bind, get in *.
    destruct (call_socket_listeners_run socket None (socket_listeners w) w)
      as (w' & Hrun & _ & Hpo' & Hls' & _).
    rewrite Hrun in *. simpl in *. rewrite Hpo', Hls'. repeat split; assumption.
  - unfold onSocket, bind, get in *.
    destruct (call_socket_listeners_run socket (Some reason) (socket_listeners w) w)
      as (w' & Hrun & _ & Hpo' & Hls' & _).
    rewrite Hrun in *. simpl in *. rewrite Hpo', Hls'. repeat split; assumption.
Qed.

Lemma run_on_control (evs : list Event) :
  forall w, on_control CONTROL w -> on_control CONTROL (run URL_parse URL_href f CONTROL evs w).
Proof.
  induction evs as [|ev evs IH]; intros w Hw; simpl; [assumption|].
  apply IH, step_on_control, Hw.
Qed.

End LifeProperties.

Lemma loaded_on_control : on_control (fst loaded) (snd loaded).
Proof. repeat split; constructor. Qed.

(** ** URL parameters *)

Lemma URLSearchParams_get_set (name value : string) (l : list (string * string)) :
  URLSearchParams_get name (URLSearchParams_set name value l) = Some value.
Proof.
  induction l as [|[n v] l IH]; simpl.
  - now rewrite String.eqb_refl.
  - destruct (String.eqb n name) eqn:E; simpl.
    + now rewrite String.eqb_refl.
    + now rewrite E.
Qed.

Lemma URLSearchParams_get_without (name other : string) (l : list (string * string)) :
  name <> other ->
  URLSearchParams_get name (List.filter (fun nv => negb (String.eqb (fst nv) other)) l)
  = URLSearchParams_get name l.
Proof.
  intros Hne. induction l as [|[n v] l IH]; simpl; [reflexivity|].
  destruct (String.eqb n other) eqn:E; simpl.
  - apply String.eqb_eq in E. subst n.
    destruct (String.eqb other name) eqn:E'; [|assumption].
    apply String.eqb_eq in E'. congruence.
  - now rewrite IH.
Qed.

Lemma URLSearchParams_get_set_other (name other value : string) (l : list (string * string)) :
  name <> other ->
  URLSearchParams_get name (URLSearchParams_set other value l) = URLSearchParams_get name l.
Proof.
  intros Hne. induction l as [|[n v] l IH]; simpl.
  - destruct (String.eqb other name) eqn:E; [|reflexivity].
    apply String.eqb_eq in E. congruence.
  - destruct (String.eqb n other) eqn:E; simpl.
    + apply String.eqb_eq in E. subst n.
      destruct (String.eqb other name) eqn:E'.
      * apply String.eqb_eq in E'. congruence.
      * now apply URLSearchParams_get_without.
    + now rewrite IH.
Qed.

Lemma bridgeURL_bridged (base : URL) (extension_id root : string) :
  bridged base extension_id root (bridgeURL base extension_id root).
Proof.
  unfold bridged, bridgeURL. simpl. repeat split.
  - rewrite URLSearchParams_get_set_other by discriminate.
    apply URLSearchParams_get_set.
  - apply URLSearchParams_get_set.
Qed.

(** ** The claims on the transports *)

(** C2.  Either copy of the factory fails, with a message naming the
    extension, on a manifest that is null (thrown: no manifest found), on
    one that is an error value (thrown: invalid manifest, followed by the
    message of that error), and on a platform type other than websocket,
    tcp and bundle (the promise returned is rejected: the type is not
    supported).  In the first two cases the browser is left as it was; in
    the third nothing changes but the list of promises: no port, no
    socket, no message, no listener on a port or a socket. *)
Theorem createMessageTransports_fails
  (URL_parse : string -> option URL) (URL_href : URL -> string) (f : Factory)
  (CONTROL : PortId) (extension : CXPExtensionWithManifest) (options : ClientOptions)
  (w : Browser) :
  is_factory URL_parse URL_href f ->
  (manifest extension = ManifestNull ->
   f CONTROL extension options w
   = (Throw (Error ("unable to connect to extension " +:+ JSON_stringify (id extension)
                      +:+ ": no manifest found")), w)) /\
  (forall e,
     manifest extension = ManifestError e ->
     f CONTROL extension options w
     = (Throw (Error ("unable to connect to extension " +:+ JSON_stringify (id extension)
                        +:+ ": invalid manifest: " +:+ message e)), w)) /\
  (forall m,
     manifest extension = Manifest m ->
     type (platform m) <> "websocket" ->
     type (platform m) <> "tcp" ->
     type (platform m) <> "bundle" ->
     exists w',
       f CONTROL extension options w = (Normal (length (promises w)), w') /\
       promises w'
       = promises w ++
         [Rejected (Error ("Unable to connect to CXP extension "
                             +:+ JSON_stringify (id extension) +:+ ": type "
                             +:+ JSON_stringify (type (platform m))
                             +:+ " is not supported"))] /\
       ports w' = ports w /\ sockets w' = sockets w /\
       posted w' = posted w /\ listeners w' = listeners w /\ waiters w' = waiters w /\
       socket_listeners w' = socket_listeners w).
Proof.
  intros Hf. split; [| split].
  - intros Hm. destruct Hf as [-> | ->];
      unfold CxpLib.createMessageTransports, CxpModule.createMessageTransports;
      rewrite Hm; reflexivity.
  - intros e Hm. destruct Hf as [-> | ->];
      unfold CxpLib.createMessageTransports, CxpModule.createMessageTransports;
      rewrite Hm; reflexivity.
  - intros m Hm Hws Htcp Hb.
    apply String.eqb_neq in Hws, Htcp, Hb.
    destruct Hf as [-> | ->];
      unfold CxpLib.createMessageTransports, CxpModule.createMessageTransports;
      rewrite Hm, Hws, Htcp, Hb; eexists; repeat split.
Qed.

Lemma createMessageTransports_fails_witness :
  CxpModule.createMessageTransports 0 ext_null sample_options fresh
  = (Throw (Error ("unable to connect to extension " +:+ JSON_stringify (id ext_null)
                     +:+ ": no manifest found")), fresh) /\
  CxpModule.createMessageTransports 0 ext_error sample_options fresh
  = (Throw (Error ("unable to connect to extension " +:+ JSON_stringify (id ext_error)
                     +:+ ": invalid manifest: " +:+ "Unexpected token")), fresh) /\
  exists w',
    CxpLib.createMessageTransports sample_parse sample_href 0 ext_pigeon sample_options fresh
    = (Normal 0, w') /\
    promises w'
    = [Rejected (Error ("Unable to connect to CXP extension "
                          +:+ JSON_stringify (id ext_pigeon) +:+ ": type "
                          +:+ JSON_stringify "carrierpigeon" +:+ " is not supported"))] /\
    ports w' = [] /\ sockets w' = [] /\ posted w' = [] /\ listeners w' = [] /\ waiters w' = [] /\
    socket_listeners w' = [].
Proof.
  split; [| split].
  - exact (proj1 (createMessageTransports_fails sample_parse sample_href
                    CxpModule.createMessageTransports 0 ext_null sample_options fresh
                    (or_intror eq_refl)) eq_refl).
  - exact (proj1 (proj2 (createMessageTransports_fails sample_parse sample_href
                           CxpModule.createMessageTransports 0 ext_error sample_options fresh
                           (or_intror eq_refl))) _ eq_refl).
  - apply (proj2 (proj2 (createMessageTransports_fails sample_parse sample_href
                           (CxpLib.createMessageTransports sample_parse sample_href)
                           0 ext_pigeon sample_options fresh
                           (or_introl eq_refl))) _ eq_refl); discriminate.
Defined.

(** C8.  Loading the module opens one port, named CONTROL, before any
    request is posted.  Whatever happens afterwards, with either copy of
    the factory: every request posted and every listener added is on
    that port, which is still the port named CONTROL; a call of the
    factory opens no port; and a call for a websocket or bundle
    extension posts its request on that port. *)
Theorem one_control_channel
  (URL_parse : string -> option URL) (URL_href : URL -> string) (f : Factory)
  (evs : list Event) :
  is_factory URL_parse URL_href f ->
  loaded = (0, {| ports := ["CONTROL"]; posted := []; listeners := [];
                  sockets := []; promises := []; waiters := [];
                  socket_listeners := [] |}) /\
  Forall (fun m => fst m = fst loaded) (posted (life URL_parse URL_href f evs)) /\
  Forall (fun l => fst l = fst loaded) (listeners (life URL_parse URL_href f evs)) /\
  ports (life URL_parse URL_href f evs) !! fst loaded = Some "CONTROL" /\
  (forall CONTROL x o w, ports (snd (f CONTROL x o w)) = ports w) /\
  (forall x o m,
     manifest x = Manifest m ->
     type (platform m) = "websocket" \/ type (platform m) = "bundle" ->
     posted (step URL_parse URL_href f (fst loaded) (life URL_parse URL_href f evs)
               (Activate x o))
     = posted (life URL_parse URL_href f evs)
         ++ [(fst loaded, {| extensionID := id x; requested := platform m |})]).
Proof.
  intros Hf.
  destruct (run_on_control URL_parse URL_href f Hf (fst loaded) evs (snd loaded)
              loaded_on_control) as (Hpo & Hls & Hc & _).
  split; [reflexivity|]. do 3 (split; [assumption|]). split.
  - intros CONTROL x o w. apply (factory_frame _ _ _ Hf).
  - intros x o m Hm Hty. simpl.
    destruct Hf as [-> | ->];
      unfold CxpLib.createMessageTransports, CxpModule.createMessageTransports;
      rewrite Hm; destruct Hty as [-> | ->]; reflexivity.
Qed.

Lemma one_control_channel_witness :
  Forall (fun m => fst m = 0)
    (posted (life sample_parse sample_href CxpModule.createMessageTransports
               [Activate ext_wild sample_options; ControlMessage 0 (PortName "c1");
                Activate ext_bundle sample_options])) /\
  ports (life sample_parse sample_href CxpModule.createMessageTransports
           [Activate ext_wild sample_options; ControlMessage 0 (PortName "c1");
            Activate ext_bundle sample_options]) !! 0 = Some "CONTROL".
Proof.
  pose proof (one_control_channel sample_parse sample_href CxpModule.createMessageTransports
                [Activate ext_wild sample_options; ControlMessage 0 (PortName "c1");
                 Activate ext_bundle sample_options] (or_intror eq_refl))
    as (_ & Hposted & _ & Hport & _).
  split; [exact Hposted | exact Hport].
Defined.

(** C4, as stated, fails: with the requests for two extensions in
    flight, the answer to the first settles the promise of the second
    as well. *)
Lemma responses_not_correlated :
  ~ responses_correlated sample_parse sample_href CxpModule.createMessageTransports /\
  ~ responses_correlated sample_parse sample_href
      (CxpLib.createMessageTransports sample_parse sample_href).
Proof.
  split; intros H;
    specialize (H [Activate ext_wild sample_options; Activate ext_bundle sample_options]
                  0 1 0 1 (PortName "c1"));
    assert (X := H ltac:(discriminate) eq_refl eq_refl eq_refl eq_refl);
    vm_compute in X; discriminate X.
Qed.

(** C4, amended.  A message arriving on the control port goes to every
    listener on it, whichever request it answers: every promise that is
    pending and has its listener there is settled by it, rejected with
    the error of the message or fulfilled with transports over a port
    newly opened under the name in the message; and no later event
    changes a promise so settled. *)
Theorem control_response_settles_every_pending
  (URL_parse : string -> option URL) (URL_href : URL -> string) (f : Factory)
  (CONTROL : PortId) (w : Browser) (p : PromiseId)
  (answers : nat) (response : ControlResponse) :
  is_factory URL_parse URL_href f ->
  In (CONTROL, p) (listeners w) ->
  promises w !! p = Some Pending ->
  (match response with
   | ErrorResponse err =>
       promises (step URL_parse URL_href f CONTROL w (ControlMessage answers response)) !! p
       = Some (Rejected (Reason err))
   | PortName name =>
       exists port,
         promises (step URL_parse URL_href f CONTROL w (ControlMessage answers response)) !! p
         = Some (Fulfilled (PortMessageTransports port)) /\
         ports (step URL_parse URL_href f CONTROL w (ControlMessage answers response)) !! port
         = Some name /\
         length (ports w) <= port
   end) /\
  (forall evs,
     promises (run URL_parse URL_href f CONTROL evs
                 (step URL_parse URL_href f CONTROL w (ControlMessage answers response))) !! p
     = promises (step URL_parse URL_href f CONTROL w (ControlMessage answers response)) !! p).
Proof.
  intros Hf Hin Hpend.
  pose proof (call_listeners_settles CONTROL response p (listeners w) w Hin Hpend) as Hs.
  assert (Hstep : step URL_parse URL_href f CONTROL w (ControlMessage answers response)
                  = snd (call_listeners (listeners w) CONTROL response w)) by reflexivity.
  rewrite Hstep. split; [exact Hs|].
  intros evs.
  destruct response as [name|err].
  - destruct Hs as (k & Hk & _). rewrite Hk.
    apply (run_settled_stay URL_parse URL_href f Hf CONTROL evs _ _ _ Hk). discriminate.
  - rewrite Hs.
    apply (run_settled_stay URL_parse URL_href f Hf CONTROL evs _ _ _ Hs). discriminate.
Qed.

Lemma control_response_settles_every_pending_witness :
  exists port,
    promises (life sample_parse sample_href CxpModule.createMessageTransports
                [Activate ext_wild sample_options; Activate ext_bundle sample_options;
                 ControlMessage 0 (PortName "c1")]) !! 1
    = Some (Fulfilled (PortMessageTransports port)) /\
    ports (life sample_parse sample_href CxpModule.createMessageTransports
             [Activate ext_wild sample_options; Activate ext_bundle sample_options;
              ControlMessage 0 (PortName "c1")]) !! port
    = Some "c1" /\
    1 <= port.
Proof.
  exact (proj1 (control_response_settles_every_pending
                  sample_parse sample_href CxpModule.createMessageTransports 0
                  (life sample_parse sample_href CxpModule.createMessageTransports
                     [Activate ext_wild sample_options; Activate ext_bundle sample_options])
                  1 0 (PortName "c1")
                  (or_intror eq_refl) (or_intror (or_introl eq_refl)) eq_refl)).
Defined.

(** C3 at its failing input.  The copy at lines 238-279, asked for the
    transports of a tcp extension while the Sourcegraph URL is
    https://sourcegraph.com, opens its socket at localhost:3080 with
    scheme ws: the URL is built from the literal of line 262, not from
    the configured origin, and nothing is awaited. *)
Example tcp_localhost_socket :
  sockets (life sample_parse sample_href
             (CxpLib.createMessageTransports sample_parse sample_href)
             [Activate ext_go sample_options; SourcegraphURL "https://sourcegraph.com"])
  = ["ws://localhost:3080/.api/lsp?mode=lang-go&rootUri=git://repo"].
Proof. reflexivity. Qed.

(** So that copy does not bridge from the configured origin. *)
Lemma tcp_origin_not_configured :
  ~ bridges_configured_origin sample_parse sample_href
      (CxpLib.createMessageTransports sample_parse sample_href).
Proof.
  intros H.
  destruct (H ext_go sample_options _ "https://sourcegraph.com" _ eq_refl eq_refl eq_refl)
    as (u & Hs & Hproto & _).
  destruct u as [proto h pa q fr]. simpl in Hproto. subst proto.
  vm_compute in Hs. discriminate Hs.
Qed.

(** The tcp branch of both copies.  For an extension of platform type tcp:
    - the copy at lines 579-624 returns a pending promise and opens
      nothing; when the awaited promise is fulfilled with a URL string
      that parses, its callback makes one socket, at the URL bridged
      from that string (wss for https, ws otherwise, path .api/lsp, mode
      the extension id, rootUri the root or the empty string); the
      promise is still pending then, and is fulfilled with the
      transports over that socket when the socket opens;
    - the copy at lines 238-279 awaits nothing: it makes the socket
      during the call, at the URL bridged in the same way from the
      literal http://localhost:3080, and returns a pending promise that
      is fulfilled when that socket opens. *)
Theorem tcp_bridge
  (URL_parse : string -> option URL) (URL_href : URL -> string)
  (CONTROL : PortId) (extension : CXPExtensionWithManifest) (options : ClientOptions)
  (m : SourcegraphExtension) (w : Browser) :
  manifest extension = Manifest m ->
  type (platform m) = "tcp" ->
  (exists w1,
     CxpModule.createMessageTransports CONTROL extension options w
     = (Normal (length (promises w)), w1) /\
     promises w1 !! length (promises w) = Some Pending /\
     ports w1 = ports w /\ sockets w1 = sockets w /\
     posted w1 = posted w /\ listeners w1 = listeners w /\
     socket_listeners w1 = socket_listeners w /\
     forall urlString base,
       URL_parse urlString = Some base ->
       exists s u,
         sockets (step URL_parse URL_href CxpModule.createMessageTransports CONTROL w1
                    (SourcegraphURL urlString)) !! s
         = Some (URL_href u) /\
         length (sockets w) <= s /\
         bridged base (id extension) (root_or_empty options) u /\
         promises (step URL_parse URL_href CxpModule.createMessageTransports CONTROL w1
                     (SourcegraphURL urlString)) !! length (promises w)
         = Some Pending /\
         promises (step URL_parse URL_href CxpModule.createMessageTransports CONTROL
                     (step URL_parse URL_href CxpModule.createMessageTransports CONTROL w1
                        (SourcegraphURL urlString))
                     (SocketOpen s)) !! length (promises w)
         = Some (Fulfilled (WebSocketMessageTransports s))) /\
  (forall local,
     URL_parse "http://localhost:3080" = Some local ->
     exists w1 u,
       CxpLib.createMessageTransports URL_parse URL_href CONTROL extension options w
       = (Normal (length (promises w)), w1) /\
       sockets w1 = sockets w ++ [URL_href u] /\
       promises w1 = promises w ++ [Pending] /\
       socket_listeners w1
       = socket_listeners w ++ [(length (sockets w), length (promises w))] /\
       ports w1 = ports w /\ posted w1 = posted w /\ listeners w1 = listeners w /\
       bridged local (id extension) (root_or_empty options) u /\
       promises (step URL_parse URL_href
                   (CxpLib.createMessageTransports URL_parse URL_href) CONTROL w1
                   (SocketOpen (length (sockets w)))) !! length (promises w)
       = Some (Fulfilled (WebSocketMessageTransports (length (sockets w))))).
Proof.
  intros Hm Hty. split.
  - unfold CxpModule.createMessageTransports. rewrite Hm, Hty. simpl.
    eexists. split; [reflexivity|]. simpl.
    split; [rewrite lookup_app_r by lia; now rewrite Nat.sub_diag|].
    do 5 (split; [reflexivity|]).
    intros urlString base Hparse.
    match goal with |- context [onURL _ _ _ ?w1] => set (W1 := w1) end.
    destruct (onURL_opened URL_parse URL_href urlString base W1 (length (waiters w))
                {| waiter_id := id extension; waiter_root := options_root options;
                   waiter_promise := length (promises w) |} Hparse)
      as (Hso & Hpr & Hin).
    { subst W1. simpl. rewrite lookup_app_r by lia. now rewrite Nat.sub_diag. }
    assert (Hpend : promises (snd (onURL URL_parse URL_href urlString W1))
                      !! length (promises w) = Some Pending).
    { rewrite Hpr. subst W1. simpl. rewrite lookup_app_r by lia. now rewrite Nat.sub_diag. }
    exists (length (sockets W1) + length (waiters w)),
      (bridgeURL base (id extension) (root_or_empty options)).
    split; [exact Hso|].
    split; [subst W1; simpl; lia|].
    split; [apply bridgeURL_bridged|].
    split; [exact Hpend|].
    unfold onSocket at 1, bind, get.
    apply (call_socket_listeners_settles _ None); assumption.
  - intros local Hlocal.
    unfold CxpLib.createMessageTransports. rewrite Hm, Hty. simpl.
    unfold bind, new_URL. rewrite Hlocal. simpl.
    eexists _, _. split; [reflexivity|]. simpl.
    do 6 (split; [reflexivity|]).
    split; [apply bridgeURL_bridged|].
    unfold onSocket, bind, get. cbn [fst snd].
    apply (call_socket_listeners_settles _ None).
    + simpl. apply in_or_app. right. left. reflexivity.
    + simpl. rewrite lookup_app_r by lia. now rewrite Nat.sub_diag.
Qed.

Lemma tcp_bridge_witness :
  exists s u,
    sockets (life sample_parse sample_href CxpModule.createMessageTransports
               [Activate ext_go sample_options; SourcegraphURL "https://sourcegraph.com"]) !! s
    = Some (sample_href u) /\
    0 <= s /\
    bridged {| protocol := "https:"; host := "sourcegraph.com"; pathname := "/";
               searchParams := []; hash := EmptyString |}
            "lang-go" "git://repo" u /\
    promises (life sample_parse sample_href CxpModule.createMessageTransports
                [Activate ext_go sample_options; SourcegraphURL "https://sourcegraph.com"]) !! 0
    = Some Pending /\
    promises (life sample_parse sample_href CxpModule.createMessageTransports
                [Activate ext_go sample_options; SourcegraphURL "https://sourcegraph.com";
                 SocketOpen s]) !! 0
    = Some (Fulfilled (WebSocketMessageTransports s)).
Proof.
  destruct (proj1 (tcp_bridge sample_parse sample_href 0 ext_go sample_options _
                     (snd loaded) eq_refl eq_refl))
    as (w1 & Hcall & _ & _ & _ & _ & _ & _ & Hurl).
  injection Hcall as <-.
  exact (Hurl "https://sourcegraph.com" _ eq_refl).
Defined.

(** The same, run: the socket of a tcp activation and its promise before
    and after the socket opens or fails. *)
Example tcp_socket_opens :
  let evs := [Activate ext_go sample_options; SourcegraphURL "https://sourcegraph.com"] in
  sockets (life sample_parse sample_href CxpModule.createMessageTransports evs)
  = ["wss://sourcegraph.com/.api/lsp?mode=lang-go&rootUri=git://repo"] /\
  promises (life sample_parse sample_href CxpModule.createMessageTransports evs)
  = [Pending] /\
  promises (life sample_parse sample_href CxpModule.createMessageTransports
              (evs ++ [SocketOpen 0]))
  = [Fulfilled (WebSocketMessageTransports 0)] /\
  promises (life sample_parse sample_href CxpModule.createMessageTransports
              (evs ++ [SocketError 0 "refused"]))
  = [Rejected (Reason "refused")] /\
  promises (life sample_parse sample_href
              (CxpLib.createMessageTransports sample_parse sample_href)
              [Activate ext_go sample_options])
  = [Pending].
Proof. repeat split. Qed.

(** ** The page *)

Lemma node_at_update_at (p : Dom.Path) (f : Dom.Node -> Dom.Node) :
  forall t, Dom.node_at p (Dom.update_at p f t) = f <$> Dom.node_at p t.
Proof.
  induction p as [|i p IH]; intros t; simpl; [reflexivity|].
  destruct t as [tag a s cs|d]; simpl; [|reflexivity].
  rewrite list_lookup_alter_eq.
  destruct (cs !! i) as [c|]; simpl; [apply IH | reflexivity].
Qed.

Lemma update_at_ext (p : Dom.Path) (f g : Dom.Node -> Dom.Node) :
  forall t,
    (forall n, Dom.node_at p t = Some n -> f n = g n) ->
    Dom.update_at p f t = Dom.update_at p g t.
Proof.
  induction p as [|i p IH]; intros t H; simpl.
  - apply H. reflexivity.
  - destruct t as [tag a s cs|d]; [|reflexivity].
    f_equal. apply list_alter_ext; [|reflexivity].
    intros c Hc. apply IH. intros n Hn. apply H. simpl. now rewrite Hc.
Qed.

Lemma update_at_same (p : Dom.Path) : forall t, Dom.update_at p (fun n => n) t = t.
Proof.
  induction p as [|i p IH]; intros t; simpl; [reflexivity|].
  destruct t as [tag a s cs|d]; [|reflexivity].
  f_equal. now apply list_alter_id.
Qed.

Lemma update_at_twice (p : Dom.Path) (f g : Dom.Node -> Dom.Node) :
  forall t, Dom.update_at p g (Dom.update_at p f t) = Dom.update_at p (fun n => g (f n)) t.
Proof.
  induction p as [|i p IH]; intros t; simpl; [reflexivity|].
  destruct t as [tag a s cs|d]; [|reflexivity].
  simpl. f_equal. rewrite list_alter_alter_eq.
  apply list_alter_ext; [|reflexivity].
  intros c _. apply IH.
Qed.

Lemma remove_appended (c n : Dom.Node) :
  Dom.removeChild (length (Dom.children_of n)) (Dom.appendChild c n) = n.
Proof.
  destruct n as [tag a s cs|d]; simpl; [|reflexivity].
  f_equal. rewrite (delete_middle cs [] c). apply app_nil_r.
Qed.

(** What the disposable of a decoration undoes, and what it leaves: on
    the line element, the annotation appended is taken out again, and
    null is assigned to the background colour. *)
Lemma undo_on_line (CSS_color : string -> option string) (c : string) (a n : Dom.Node) :
  Dom.removeChild (length (Dom.children_of (Dom.set_backgroundColor CSS_color (Some c) n)))
    (Dom.set_backgroundColor CSS_color None
       (Dom.appendChild a (Dom.set_backgroundColor CSS_color (Some c) n)))
  = Dom.set_backgroundColor CSS_color None (Dom.set_backgroundColor CSS_color (Some c) n).
Proof.
  destruct n as [tag at' s cs|d]; simpl; [|reflexivity].
  f_equal. rewrite (delete_middle cs [] a). apply app_nil_r.
Qed.

(** Assigning a colour that the browser accepts and then null leaves a
    style attribute written by the browser, without a background colour
    and with the colour declared before. *)
Lemma clear_assigned_background (CSS_color : string -> option string) (c v : string)
  (tag : string) (a : list (string * string)) (s : Dom.StyleAttribute) (cs : list Dom.Node) :
  c <> EmptyString ->
  CSS_color c = Some v ->
  Dom.set_backgroundColor CSS_color None
    (Dom.set_backgroundColor CSS_color (Some c) (Dom.Element tag a s cs))
  = Dom.Element tag a
      (Dom.Written {| Dom.backgroundColor := EmptyString;
                      Dom.color := Dom.color (Dom.declared s) |}) cs.
Proof.
  intros Hc Hv. apply String.eqb_neq in Hc. simpl.
  unfold Dom.assign_backgroundColor. rewrite Hc, Hv. simpl.
  unfold Dom.remove_backgroundColor. simpl.
  destruct (String.eqb v EmptyString) eqn:E; [|reflexivity].
  apply String.eqb_eq in E. now subst v.
Qed.

(** Assigning text that is no colour and then null takes out the
    background colour that was there. *)
Lemma clear_ignored_background (CSS_color : string -> option string) (c : string)
  (n : Dom.Node) :
  c <> EmptyString ->
  CSS_color c = None ->
  Dom.set_backgroundColor CSS_color None (Dom.set_backgroundColor CSS_color (Some c) n)
  = Dom.set_backgroundColor CSS_color None n.
Proof.
  intros Hc Hv. apply String.eqb_neq in Hc.
  destruct n as [tag a s cs|d]; [|reflexivity].
  unfold Dom.set_backgroundColor. f_equal.
  unfold Dom.assign_backgroundColor. now rewrite Hc, Hv.
Qed.

Lemma nonempty_Some (v : option string) (c : string) :
  nonempty v = Some c -> c <> EmptyString.
Proof.
  unfold nonempty. destruct v as [s|]; [|discriminate].
  destruct (String.eqb s EmptyString) eqn:E; [discriminate|].
  intros H. injection H as <-. now apply String.eqb_neq.
Qed.

Lemma applyDecoration_undo (CSS_color : string -> option string)
  (decoration : Protocol.TextDocumentDecoration)
  (fileElement : Dom.Node) (disposable : Disposable) (page : Dom.Node) :
  applyDecoration CSS_color decoration fileElement = (Normal disposable, page) ->
  exists lineNumberElement lineElement,
    Dom.querySelectorAll_td_line (decimal (Protocol.line decoration + 1)) fileElement
    = [lineNumberElement] /\
    Dom.nextElementSibling lineNumberElement fileElement = Some lineElement /\
    disposable page
    = (Normal tt, Dom.update_at lineElement (cleared CSS_color decoration) fileElement).
Proof.
  unfold applyDecoration, bind at 1, get, cleared.
  destruct (Dom.querySelectorAll_td_line _ fileElement) as [|ne [|ne' l]];
    simpl; try discriminate.
  destruct (Dom.nextElementSibling ne fileElement) as [lp|] eqn:Hlp; [|discriminate].
  intros H. exists ne, lp. split; [reflexivity|]. split; [exact Hlp|].
  revert H.
  destruct (nonempty (Protocol.decoration_backgroundColor decoration)) as [c|];
    destruct (Protocol.after decoration) as [a|];
    unfold bind, modify, ret, get; simpl; intros H; injection H as <- <-;
    unfold bind, modify, ret; simpl.
  - rewrite !update_at_twice. f_equal.
    apply update_at_ext. intros n Hn.
    rewrite node_at_update_at, Hn. simpl. apply undo_on_line.
  - rewrite update_at_twice. reflexivity.
  - rewrite update_at_twice. f_equal.
    apply update_at_ext. intros n Hn. rewrite Hn. apply remove_appended.
  - f_equal. symmetry. apply update_at_same.
Qed.

Lemma split_last_app (p : Dom.Path) :
  forall parent i, Dom.split_last p = Some (parent, i) -> p = parent ++ [i].
Proof.
  induction p as [|a p IH]; intros parent i H; [discriminate|].
  simpl in H. destruct p as [|b p].
  - injection H as <- <-. reflexivity.
  - destruct (Dom.split_last (b :: p)) as [[q j]|]; [|discriminate].
    injection H as <- <-. simpl. f_equal. now apply IH.
Qed.

Lemma first_element_from_spec (l : list Dom.Node) :
  forall i j, Dom.first_element_from i l = Some j ->
              i <= j /\ exists n, l !! (j - i) = Some n /\ Dom.isElement n = true.
Proof.
  induction l as [|c l IH]; intros i j H; [discriminate|].
  simpl in H. destruct (Dom.isElement c) eqn:E.
  - injection H as <-. split; [lia|]. rewrite Nat.sub_diag. eauto.
  - apply IH in H. destruct H as (Hle & n & Hn & He). split; [lia|].
    exists n. split; [|assumption].
    replace (j - i) with (S (j - S i)) by lia. exact Hn.
Qed.

Lemma node_at_app (p q : Dom.Path) :
  forall t, Dom.node_at (p ++ q) t
            = match Dom.node_at p t with
              | Some n => Dom.node_at q n
              | None => None
              end.
Proof.
  induction p as [|i p IH]; intros t; simpl; [reflexivity|].
  destruct (Dom.children_of t !! i); [apply IH | reflexivity].
Qed.

(** The next element sibling is an element, a later child of the same
    parent. *)
Lemma nextElementSibling_spec (p q : Dom.Path) (t : Dom.Node) :
  Dom.nextElementSibling p t = Some q ->
  exists parent i j n,
    p = parent ++ [i] /\ q = parent ++ [j] /\ i < j /\
    Dom.node_at q t = Some n /\ Dom.isElement n = true.
Proof.
  unfold Dom.nextElementSibling.
  destruct (Dom.split_last p) as [[parent i]|] eqn:Hs; [|discriminate].
  apply split_last_app in Hs.
  destruct (Dom.node_at parent t) as [pn|] eqn:Hp; [|discriminate].
  destruct (Dom.first_element_from (S i) (drop (S i) (Dom.children_of pn))) as [j|] eqn:Hf;
    [|discriminate].
  intros H. injection H as <-.
  apply first_element_from_spec in Hf. destruct Hf as (Hle & n & Hn & He).
  exists parent, i, j, n. repeat split; auto.
  rewrite node_at_app, Hp. simpl.
  rewrite lookup_drop in Hn. replace (S i + (j - S i)) with j in Hn by lia.
  now rewrite Hn.
Qed.

(** Changing the node at a path leaves the tree as it is exactly when it
    leaves that node as it is. *)
Lemma update_at_fixed (p : Dom.Path) (f : Dom.Node -> Dom.Node) (t n : Dom.Node) :
  Dom.node_at p t = Some n ->
  (Dom.update_at p f t = t <-> f n = n).
Proof.
  intros Hn. split.
  - intros H. apply (f_equal (Dom.node_at p)) in H.
    rewrite node_at_update_at, Hn in H. simpl in H. congruence.
  - intros H. rewrite <- (update_at_same p t) at 2.
    apply update_at_ext. intros n' Hn'. congruence.
Qed.

(** ** The claims on the decoration renderer *)

(** C6.  When the number of cells marked with the line number of the
    decoration (its line plus one) is not one, [applyDecoration] throws
    an error that tells the line number and how many cells matched, and
    the page is as it was.  None matching and several matching take the
    same path. *)
Theorem applyDecoration_not_unique
  (CSS_color : string -> option string)
  (decoration : Protocol.TextDocumentDecoration) (fileElement : Dom.Node) :
  length (Dom.querySelectorAll_td_line (decimal (Protocol.line decoration + 1)) fileElement)
  <> 1 ->
  applyDecoration CSS_color decoration fileElement
  = (Throw (Error
              ("Line number " +:+ decimal (Protocol.line decoration + 1) +:+ " matched "
                 +:+ decimal (length (Dom.querySelectorAll_td_line
                                        (decimal (Protocol.line decoration + 1)) fileElement))
                 +:+ " elements (expected 1)")),
     fileElement).
Proof.
  intros H. apply Nat.eqb_neq in H.
  unfold applyDecoration, bind, get. rewrite H. reflexivity.
Qed.

Lemma applyDecoration_not_unique_witness :
  applyDecoration sample_color (sample_decoration 0) ambiguous_page
  = (Throw (Error "Line number 1 matched 2 elements (expected 1)"), ambiguous_page) /\
  applyDecoration sample_color (sample_decoration 7) sample_page
  = (Throw (Error "Line number 8 matched 0 elements (expected 1)"), sample_page).
Proof.
  split.
  - apply (applyDecoration_not_unique sample_color (sample_decoration 0) ambiguous_page).
    vm_compute. discriminate.
  - apply (applyDecoration_not_unique sample_color (sample_decoration 7) sample_page).
    vm_compute. discriminate.
Defined.

(** C5, as stated, fails: a line that has a background colour of its
    own loses it when a decoration with a background colour is applied
    and disposed of. *)
Example round_trip_clears_yellow :
  Dom.backgroundColor_of <$> Dom.node_at [1; 1] sample_page = Some "yellow" /\
  exists page,
    apply_then_dispose sample_color (sample_decoration 1) sample_page = Some page /\
    Dom.backgroundColor_of <$> Dom.node_at [1; 1] page = Some EmptyString.
Proof. split; [reflexivity|]. eexists. split; reflexivity. Qed.

Lemma decoration_round_trip_fails : ~ decoration_round_trip sample_color.
Proof.
  intros H.
  specialize (H (sample_decoration 1) sample_page _ eq_refl).
  vm_compute in H. discriminate H.
Qed.

(** Nor is a line without a background colour of its own left as it
    was: the line of the sample that has no style attribute has an empty
    one after the round trip. *)
Example round_trip_leaves_style_attribute :
  Dom.style_of <$> Dom.node_at [0; 1] sample_page = Some Dom.NoStyle /\
  exists page,
    apply_then_dispose sample_color (sample_decoration 0) sample_page = Some page /\
    Dom.style_of <$> Dom.node_at [0; 1] page
    = Some (Dom.Written {| Dom.backgroundColor := EmptyString; Dom.color := EmptyString |}) /\
    page <> sample_page.
Proof.
  split; [reflexivity|]. eexists. split; [reflexivity|]. split; [reflexivity|].
  vm_compute. discriminate.
Qed.

(** C5, amended.  When a decoration has been applied, its disposable
    takes the annotation out again and assigns null to the background
    colour of the line element, if the decoration has a background
    colour; nothing else of the page differs from the page before the
    decoration.  So the page is as it was before when the decoration has
    no background colour.  When it has one that the browser takes for a
    colour, the line element is left with a style attribute written by
    the browser that declares no background colour, whatever it had
    before, and the page is as it was before only if the line element
    had just such an attribute; when it has one that is no colour, the
    line element is left as assigning null leaves the element that was
    there. *)
Theorem applyDecoration_dispose
  (CSS_color : string -> option string)
  (decoration : Protocol.TextDocumentDecoration) (fileElement : Dom.Node)
  (disposable : Disposable) (page : Dom.Node) :
  applyDecoration CSS_color decoration fileElement = (Normal disposable, page) ->
  exists lineNumberElement lineElement tag a s cs,
    Dom.querySelectorAll_td_line (decimal (Protocol.line decoration + 1)) fileElement
    = [lineNumberElement] /\
    Dom.nextElementSibling lineNumberElement fileElement = Some lineElement /\
    Dom.node_at lineElement fileElement = Some (Dom.Element tag a s cs) /\
    disposable page
    = (Normal tt, Dom.update_at lineElement (cleared CSS_color decoration) fileElement) /\
    (nonempty (Protocol.decoration_backgroundColor decoration) = None ->
     disposable page = (Normal tt, fileElement)) /\
    (forall c v,
       nonempty (Protocol.decoration_backgroundColor decoration) = Some c ->
       CSS_color c = Some v ->
       Dom.node_at lineElement (snd (disposable page))
       = Some (Dom.Element tag a
                 (Dom.Written {| Dom.backgroundColor := EmptyString;
                                 Dom.color := Dom.color (Dom.declared s) |}) cs) /\
       (snd (disposable page) = fileElement <->
        s = Dom.Written {| Dom.backgroundColor := EmptyString;
                           Dom.color := Dom.color (Dom.declared s) |})) /\
    (forall c,
       nonempty (Protocol.decoration_backgroundColor decoration) = Some c ->
       CSS_color c = None ->
       Dom.node_at lineElement (snd (disposable page))
       = Some (Dom.Element tag a (Dom.remove_backgroundColor s) cs)).
Proof.
  intros H.
  destruct (applyDecoration_undo _ _ _ _ _ H) as (ne & lp & Hq & Hs & Hd).
  destruct (nextElementSibling_spec _ _ _ Hs) as (parent & i & j & n & _ & _ & _ & Hn & He).
  destruct n as [tag a s cs|d]; [|discriminate].
  exists ne, lp, tag, a, s, cs. do 4 (split; [assumption|]).
  rewrite Hd. cbn [snd]. split; [|split].
  - intros Hbg. f_equal.
    rewrite <- (update_at_same lp fileElement) at 2.
    apply update_at_ext. intros n _. unfold cleared. now rewrite Hbg.
  - intros c v Hbg Hv.
    assert (Hcl : cleared CSS_color decoration (Dom.Element tag a s cs)
                  = Dom.Element tag a
                      (Dom.Written {| Dom.backgroundColor := EmptyString;
                                      Dom.color := Dom.color (Dom.declared s) |}) cs).
    { unfold cleared. rewrite Hbg.
      apply (clear_assigned_background CSS_color c v); [|exact Hv].
      eapply nonempty_Some, Hbg. }
    split.
    + rewrite node_at_update_at, Hn. simpl. now rewrite Hcl.
    + rewrite (update_at_fixed lp _ fileElement _ Hn), Hcl.
      split; [intros Heq; injection Heq as Heq; now symmetry | intros <-; reflexivity].
  - intros c Hbg Hv.
    rewrite node_at_update_at, Hn. unfold cleared. rewrite Hbg. simpl Dom.set_backgroundColor.
    cbn [fmap option_fmap option_map]. f_equal.
    rewrite (clear_ignored_background CSS_color c (Dom.Element tag a s cs));
      [reflexivity | eapply nonempty_Some, Hbg | exact Hv].
Qed.

Lemma applyDecoration_dispose_witness :
  exists page, apply_then_dispose sample_color (annotation_decoration 1) sample_page = Some page /\
               page = sample_page.
Proof.
  unfold apply_then_dispose.
  destruct (applyDecoration sample_color (annotation_decoration 1) sample_page)
    as [[d|e] page] eqn:E.
  - destruct (applyDecoration_dispose sample_color (annotation_decoration 1) sample_page
                d page E)
      as (ne & lp & tag & a & s & cs & _ & _ & _ & _ & Hsame & _).
    exists (snd (d page)). split; [reflexivity|].
    rewrite Hsame; reflexivity.
  - vm_compute in E. discriminate E.
Defined.

(** * Further properties *)

(** ** The activation filter and the configured extensions *)

Lemma List_filter_sublist {A} (f : A -> bool) (l : list A) : List.filter f l `sublist_of` l.
Proof.
  induction l as [|a l IH]; simpl; [constructor|].
  destruct (f a); now constructor.
Qed.

(** X1.  The filter never adds, repeats or reorders: a missing extension
    list stays missing, and a list is answered by a sublist of it (the
    elements kept are in their order), so never by a longer one. *)
Theorem environmentFilter_sublist (env : Environment) (console : Console) :
  exists env' console',
    environmentFilter env console = (Normal env', console') /\
    (extensions env = None -> extensions env' = None) /\
    (forall xs, extensions env = Some xs ->
                exists ys, extensions env' = Some ys /\
                           ys `sublist_of` xs /\ length ys <= length xs).
Proof.
  eexists _, _. split; [apply environmentFilter_run|]. simpl. split.
  - intros ->. reflexivity.
  - intros xs ->. simpl. eexists. split; [reflexivity|].
    split; [apply List_filter_sublist | apply sublist_length, List_filter_sublist].
Qed.

Lemma environmentFilter_sublist_witness :
  exists ys, Some [ext_wild; ext_go] = Some ys /\
             ys `sublist_of` [ext_wild; ext_broken; ext_go; ext_off; ext_null; ext_error] /\
             length ys <= 6.
Proof.
  destruct (environmentFilter_sublist sample_env []) as (env' & c' & Hrun & _ & Hsub).
  vm_compute in Hrun. injection Hrun as <- <-.
  exact (Hsub _ eq_refl).
Defined.

Lemma thrown_misdeclared (env : Environment) (x : CXPExtensionWithManifest) :
  thrown env x = if misdeclared x then [some_is_not_a_function] else [].
Proof.
  unfold thrown, misdeclared, tryBlock.
  destruct (isEnabled x); simpl; [|reflexivity].
  destruct (manifest x) as [|e|m]; simpl; try reflexivity.
  destruct (activationEvents m) as [|es|s| |b|nonzero|]; simpl; try reflexivity.
  - destruct (negb (String.eqb s EmptyString)); reflexivity.
  - destruct b; reflexivity.
  - destruct nonzero; reflexivity.
Qed.

Lemma flat_map_thrown (env : Environment) (xs : list CXPExtensionWithManifest) :
  flat_map (thrown env) xs
  = map (fun _ => some_is_not_a_function) (List.filter misdeclared xs).
Proof.
  induction xs as [|x xs IH]; simpl; [reflexivity|].
  rewrite thrown_misdeclared, IH. destruct (misdeclared x); reflexivity.
Qed.

(** X2.  What the filter writes to the console: one TypeError for each
    enabled extension whose manifest has, for its activation events, a
    truthy value that is no list (a non-empty string, [true], a number
    other than 0, an object), in the order of the extensions, after what
    was there; so nothing at all when no extension is so declared. *)
Theorem environmentFilter_console (env : Environment) (console : Console) :
  snd (environmentFilter env console)
  = console ++ map (fun _ => some_is_not_a_function)
                   (List.filter misdeclared (extension_list env)) /\
  ((forall x, In x (extension_list env) -> misdeclared x = false) ->
   snd (environmentFilter env console) = console).
Proof.
  rewrite environmentFilter_run. simpl. rewrite flat_map_thrown. split; [reflexivity|].
  intros H. rewrite <- (app_nil_r console) at 2. f_equal.
  induction (extension_list env) as [|x xs IH]; simpl; [reflexivity|].
  rewrite (H x) by (left; reflexivity). apply IH. intros y Hy. apply H. now right.
Qed.

Lemma environmentFilter_console_witness :
  snd (environmentFilter {| root := None; component := None;
                            extensions := Some [ext_go; ext_wild; ext_off] |}
         [Error "earlier"])
  = [Error "earlier"].
Proof.
  apply (proj2 (environmentFilter_console
                  {| root := None; component := None;
                     extensions := Some [ext_go; ext_wild; ext_off] |} [Error "earlier"])).
  intros x [<-|[<-|[<-|[]]]]; reflexivity.
Defined.

(** Three extensions whose activation events are a number, an object
    and a string, among others that are well declared. *)
Example filter_console_sample :
  environmentFilter {| root := None; component := Some go_component;
                       extensions := Some [ext_numbered; ext_wild; ext_object;
                                           ext_go; ext_broken] |} []
  = (Normal {| root := None; component := Some go_component;
               extensions := Some [ext_wild; ext_go] |},
     [some_is_not_a_function; some_is_not_a_function; some_is_not_a_function]).
Proof. reflexivity. Qed.

(** X3.  More activation events never deactivate: if the callback keeps
    an extension, it keeps every enabled extension whose manifest lists
    at least the same events. *)
Theorem filterCallback_monotone
  (env : Environment) (x x' : CXPExtensionWithManifest)
  (m m' : SourcegraphExtension) (es es' : list string) (c c' : Console) :
  manifest x = Manifest m -> activationEvents m = EventsArray es ->
  manifest x' = Manifest m' -> activationEvents m' = EventsArray es' ->
  isEnabled x' = true ->
  (forall e, In e es -> In e es') ->
  fst (filterCallback env x c) = Normal true ->
  fst (filterCallback env x' c') = Normal true.
Proof.
  intros Hm Hes Hm' Hes' Hen' Hincl.
  rewrite !filterCallback_run. simpl. intros H. injection H as H.
  apply activates_iff in H. destruct H as (_ & m0 & es0 & Hm0 & Hes0 & Hin).
  assert (m0 = m) by congruence. subst m0.
  assert (es0 = es) by congruence. subst es0.
  f_equal. apply activates_iff. split; [assumption|].
  exists m', es'. do 2 (split; [assumption|]).
  destruct Hin as [Hin | (co & Hco & Hin)]; [left | right; exists co]; auto.
Qed.

Lemma filterCallback_monotone_witness :
  fst (filterCallback sample_env ext_both []) = Normal true.
Proof.
  apply (filterCallback_monotone sample_env ext_go ext_both _ _ ["onLanguage:go"]
           ["onLanguage:go"; "*"] [] [] eq_refl eq_refl eq_refl eq_refl eq_refl).
  - intros e [<-|[]]. left. reflexivity.
  - reflexivity.
Defined.

(** X4.  From the configured extensions to the active ones.  The
    environment that either subscription builds has one extension per
    configured extension, in order; filtering it keeps the root and the
    component it was built with, and its extensions are the images of a
    sublist of the configured extensions. *)
Theorem configured_then_filtered
  (current : Environment) (rootAndComponent : option string * option Component)
  (configuredExtensions : list Configured.ConfiguredExtension) (console : Console) :
  (exists kept console',
     environmentFilter (environment_of_configured current configuredExtensions) console
     = (Normal {| root := root current; component := component current;
                  extensions := Some (map configuredExtensionToCXPExtensionWithManifest
                                        kept) |}, console') /\
     kept `sublist_of` configuredExtensions) /\
  (exists kept console',
     environmentFilter (environment_of_latest configuredExtensions rootAndComponent) console
     = (Normal {| root := fst rootAndComponent; component := snd rootAndComponent;
                  extensions := Some (map configuredExtensionToCXPExtensionWithManifest
                                        kept) |}, console') /\
     kept `sublist_of` configuredExtensions).
Proof.
  assert (Hmap : forall env (l : list Configured.ConfiguredExtension),
             List.filter (activates env) (map configuredExtensionToCXPExtensionWithManifest l)
             = map configuredExtensionToCXPExtensionWithManifest
                 (List.filter (fun x => activates env
                                          (configuredExtensionToCXPExtensionWithManifest x)) l)).
  { intros env l. induction l as [|x l IH]; simpl; [reflexivity|].
    destruct (activates env _); simpl; now rewrite IH. }
  split; eexists _, _; (split; [rewrite environmentFilter_run; simpl; rewrite Hmap;
                                reflexivity | apply List_filter_sublist]).
Qed.

(** ** The states of a client *)

(** X5.  The name tells the state: different states have different
    names, and the line logged for a state identifies it. *)
Theorem clientStateToName_injective (s1 s2 : ClientState.t) :
  (clientStateToName s1 = clientStateToName s2 -> s1 = s2) /\
  (clientStateLog s1 = clientStateLog s2 -> s1 = s2).
Proof.
  assert (H : clientStateToName s1 = clientStateToName s2 -> s1 = s2).
  { destruct s1, s2; simpl; intros E; try reflexivity; discriminate E. }
  split; [exact H|].
  unfold clientStateLog. intros E. apply H. now injection E.
Qed.

Lemma clientStateToName_injective_witness :
  clientStateToName ClientState.Active = "Active" /\
  (clientStateToName ClientState.Active = clientStateToName ClientState.Active ->
   ClientState.Active = ClientState.Active).
Proof.
  split; [reflexivity|].
  exact (proj1 (clientStateToName_injective ClientState.Active ClientState.Active)).
Defined.

(** X6.  The colour tells the phase, not the state: two states have the
    same colour exactly when they are the same state or are both among
    the three with which a client starts (Initial, Connecting,
    Initializing). *)
Theorem clientStateToColor_classes (s1 s2 : ClientState.t) :
  clientStateToColor s1 = clientStateToColor s2 <->
  s1 = s2 \/ (starting s1 = true /\ starting s2 = true).
Proof.
  destruct s1, s2; simpl; split; intros H; auto;
    try discriminate H;
    destruct H as [H | [H1 H2]]; try reflexivity; discriminate.
Qed.

(** ** Messages shown to the user *)

Section DialogProperties.

Variable answer : string -> string -> option string.

(** A request without actions (none given, or an empty list) is shown
    with [alert] and resolved with null; the user is not prompted. *)
Lemma onShowMessageRequest_no_actions
  (message : string) (actions : option (list MessageActionItem)) (ui : UI) :
  actions = None \/ actions = Some [] ->
  onShowMessageRequest answer message actions ui
  = (Normal tt, {| alerts := alerts ui ++ [message];
                   prompts := prompts ui;
                   resolutions := resolutions ui ++ [None] |}).
Proof. intros [-> | ->]; reflexivity. Qed.

(** X7.  A request with actions prompts once, offering the title of the
    first action as the answer and listing the titles as JSON strings,
    and alerts nothing.  It is resolved once: with an action of the
    request whose title is what the user answered, or with null when the
    dialog was dismissed or the answer is no title of the request. *)
Theorem onShowMessageRequest_actions
  (message : string) (first : MessageActionItem) (rest : list MessageActionItem) (ui : UI) :
  exists text r,
    text = message +:+ newline +:+ newline +:+ "Valid responses: "
             +:+ join ", " (map (fun a => JSON_stringify (title a)) (first :: rest)) /\
    onShowMessageRequest answer message (Some (first :: rest)) ui
    = (Normal tt, {| alerts := alerts ui;
                     prompts := prompts ui ++ [(text, title first)];
                     resolutions := resolutions ui ++ [r] |}) /\
    match r with
    | Some a => In a (first :: rest) /\ answer text (title first) = Some (title a)
    | None => forall a, In a (first :: rest) -> answer text (title first) <> Some (title a)
    end.
Proof.
  eexists _, _. split; [reflexivity|]. split; [reflexivity|].
  destruct (answer _ (title first)) as [v|]; [|intros a _; discriminate].
  destruct (List.find _ (first :: rest)) as [a|] eqn:E.
  - apply find_some in E. destruct E as [Hin Ht]. apply String.eqb_eq in Ht.
    split; [assumption | congruence].
  - intros a Hin Hv. injection Hv as ->.
    pose proof (find_none _ _ E a Hin) as Hn. simpl in Hn.
    now rewrite String.eqb_refl in Hn.
Qed.

(** X8.  Every request is resolved exactly once and shown in exactly one
    dialog, whatever its actions and whatever the user does; a request
    without actions (none given, or an empty list) is shown with [alert],
    without prompting, and resolved with null. *)
Theorem onShowMessageRequest_once
  (message : string) (actions : option (list MessageActionItem)) (ui : UI) :
  exists ui',
    onShowMessageRequest answer message actions ui = (Normal tt, ui') /\
    length (resolutions ui') = S (length (resolutions ui)) /\
    length (alerts ui') + length (prompts ui') = S (length (alerts ui) + length (prompts ui)) /\
    (actions = None \/ actions = Some [] ->
     alerts ui' = alerts ui ++ [message] /\
     prompts ui' = prompts ui /\
     resolutions ui' = resolutions ui ++ [None]).
Proof.
  destruct actions as [[|first rest]|]; eexists; (split; [reflexivity|]); simpl;
    rewrite ?length_app; simpl.
  all: split; [lia|]. all: split; [lia|].
  all: intros [H|H]; try discriminate H; auto.
Qed.

End DialogProperties.

Lemma onShowMessageRequest_once_witness :
  exists ui',
    onShowMessageRequest types_no "Saved." (Some []) empty_ui = (Normal tt, ui') /\
    alerts ui' = ["Saved."] /\ prompts ui' = [] /\ resolutions ui' = [None].
Proof.
  destruct (onShowMessageRequest_once types_no "Saved." (Some []) empty_ui)
    as (ui' & Hrun & _ & _ & Hnone).
  exists ui'. split; [exact Hrun|]. exact (Hnone (or_intror eq_refl)).
Defined.

(** X9.  A user who accepts the answer offered chooses the first
    action. *)
Theorem onShowMessageRequest_default
  (answer : string -> string -> option string)
  (message : string) (first : MessageActionItem) (rest : list MessageActionItem) (ui : UI) :
  (forall text default, answer text default = Some default) ->
  resolutions (snd (onShowMessageRequest answer message (Some (first :: rest)) ui))
  = resolutions ui ++ [Some first].
Proof.
  intros H. simpl. unfold bind, prompt, request_resolve, modify. simpl.
  rewrite H. simpl. now rewrite String.eqb_refl.
Qed.

Lemma onShowMessageRequest_default_witness :
  resolutions (snd (onShowMessageRequest accepts "Reload?" (Some yes_no) empty_ui))
  = [Some {| title := "Yes" |}].
Proof.
  apply (onShowMessageRequest_default accepts "Reload?" {| title := "Yes" |}
           [{| title := "No" |}] empty_ui).
  intros text default. reflexivity.
Defined.

(** ** Creating the controller *)

Lemma createController_run (w : Window) :
  createController w
  = (Normal (created w),
     if verbose w then
       {| traceCXP := traceCXP w; created := S (created w);
          environment_logged := environment_logged w ++ [created w];
          cxp := match cxp w with Some c => Some c | None => Some (created w) end;
          cxpenv := match cxpenv w with Some c => Some c | None => Some (created w) end |}
     else
       {| traceCXP := traceCXP w; created := S (created w);
          environment_logged := environment_logged w;
          cxp := cxp w; cxpenv := cxpenv w |}).
Proof.
  unfold createController, bind, new_Controller, get. simpl.
  unfold verbose at 1. simpl. fold (verbose w).
  destruct (verbose w); reflexivity.
Qed.

Lemma create_controllers_defined (n : nat) :
  forall w c, cxp w = Some c -> cxp (create_controllers n w) = Some c.
Proof.
  induction n as [|n IH]; intros w c H; simpl; [assumption|].
  apply IH. rewrite createController_run. simpl.
  destruct (verbose w); simpl; rewrite H; reflexivity.
Qed.

Lemma create_controllers_logged (n : nat) :
  forall w, verbose w = true ->
            environment_logged (create_controllers n w)
            = environment_logged w ++ seq (created w) n.
Proof.
  induction n as [|n IH]; intros w Hv; simpl; [now rewrite app_nil_r|].
  rewrite IH; rewrite createController_run; simpl; rewrite Hv; simpl.
  - now rewrite <- app_assoc.
  - exact Hv.
Qed.

(** X10.  With tracing verbose and [cxp] not yet defined on the window,
    however many controllers are created, [cxp] is the first of them
    (once defined it is not defined again), while the environment of
    every one of them is logged. *)
Theorem cxp_is_first_controller (n : nat) (w : Window) :
  verbose w = true ->
  cxp w = None ->
  cxp (create_controllers (S n) w) = Some (created w) /\
  environment_logged (create_controllers (S n) w)
  = environment_logged w ++ seq (created w) (S n).
Proof.
  intros Hv Hc. split; [|now apply create_controllers_logged].
  simpl. apply create_controllers_defined.
  rewrite createController_run, Hv. simpl. now rewrite Hc.
Qed.

Lemma cxp_is_first_controller_witness :
  cxp (create_controllers 3 verbose_window) = Some 0 /\
  environment_logged (create_controllers 3 verbose_window) = [0; 1; 2].
Proof. exact (cxp_is_first_controller 2 verbose_window eq_refl eq_refl). Defined.

(** X11.  Without verbose tracing, creating controllers defines nothing
    on the window and logs no environment. *)
Theorem createController_quiet (n : nat) (w : Window) :
  verbose w = false ->
  cxp (create_controllers n w) = cxp w /\
  cxpenv (create_controllers n w) = cxpenv w /\
  environment_logged (create_controllers n w) = environment_logged w.
Proof.
  revert w. induction n as [|n IH]; intros w Hv; simpl; [auto|].
  assert (Hw : snd (createController w)
               = {| traceCXP := traceCXP w; created := S (created w);
                    environment_logged := environment_logged w;
                    cxp := cxp w; cxpenv := cxpenv w |}).
  { rewrite createController_run, Hv. reflexivity. }
  rewrite Hw.
  destruct (IH {| traceCXP := traceCXP w; created := S (created w);
                  environment_logged := environment_logged w;
                  cxp := cxp w; cxpenv := cxpenv w |} Hv) as (-> & -> & ->).
  auto.
Qed.

Lemma createController_quiet_witness :
  cxp (create_controllers 2 {| traceCXP := Some "off"; created := 0;
                               environment_logged := []; cxp := None; cxpenv := None |})
  = None.
Proof.
  exact (proj1 (createController_quiet 2
                  {| traceCXP := Some "off"; created := 0;
                     environment_logged := []; cxp := None; cxpenv := None |} eq_refl)).
Defined.

(** ** The relay control channel, further *)

(** For the platform types websocket and bundle both copies of the
    factory do the same: they return a new, pending promise, post one
    request with the extension id and the platform of the manifest on
    the control port and add one listener to it; no port and no socket
    is opened and no other promise is touched. *)
Lemma relay_activation
  (URL_parse : string -> option URL) (URL_href : URL -> string) (f : Factory)
  (CONTROL : PortId) (x : CXPExtensionWithManifest) (o : ClientOptions)
  (m : SourcegraphExtension) (w : Browser) :
  is_factory URL_parse URL_href f ->
  manifest x = Manifest m ->
  type (platform m) = "websocket" \/ type (platform m) = "bundle" ->
  f CONTROL x o w
  = (Normal (length (promises w)),
     {| ports := ports w;
        posted := posted w ++ [(CONTROL, {| extensionID := id x; requested := platform m |})];
        listeners := listeners w ++ [(CONTROL, length (promises w))];
        sockets := sockets w;
        promises := promises w ++ [Pending];
        waiters := waiters w;
        socket_listeners := socket_listeners w |}).
Proof.
  intros Hf Hm Hty.
  destruct Hf as [-> | ->];
    unfold CxpLib.createMessageTransports, CxpModule.createMessageTransports;
    rewrite Hm; destruct Hty as [-> | ->]; reflexivity.
Qed.

Lemma relay_activation_witness :
  CxpModule.createMessageTransports 0 ext_bundle sample_options (snd loaded)
  = (Normal 0,
     {| ports := ["CONTROL"];
        posted := [(0, {| extensionID := "y";
                          requested := {| type := "bundle"; url := Some "https://h/y.js";
                                          address := None |} |})];
        listeners := [(0, 0)];
        sockets := [];
        promises := [Pending];
        waiters := [];
        socket_listeners := [] |}).
Proof.
  exact (relay_activation sample_parse sample_href CxpModule.createMessageTransports
           0 ext_bundle sample_options _ (snd loaded)
           (or_intror eq_refl) eq_refl (or_intror eq_refl)).
Defined.

Section Growth.

Variable URL_parse : string -> option URL.
Variable URL_href : URL -> string.
Variable f : Factory.
Hypothesis f_factory : is_factory URL_parse URL_href f.
Variable CONTROL : PortId.

Lemma step_grows (w : Browser) (ev : Event) :
  ports w `prefix_of` ports (step URL_parse URL_href f CONTROL w ev) /\
  sockets w `prefix_of` sockets (step URL_parse URL_href f CONTROL w ev) /\
  posted w `prefix_of` posted (step URL_parse URL_href f CONTROL w ev) /\
  listeners w `prefix_of` listeners (step URL_parse URL_href f CONTROL w ev) /\
  length (promises w) <= length (promises (step URL_parse URL_href f CONTROL w ev)).
Proof.
  destruct (step_frame URL_parse URL_href f f_factory CONTROL w ev) as (Hports & _).
  split; [assumption|].
  destruct ev as [x o|j response|urlString|socket|socket reason]; simpl.
  - destruct (factory_frame _ _ _ f_factory CONTROL x o w)
      as (_ & Hso & Hpr & [(-> & ->) | (m & _ & _ & -> & ->)]);
      repeat split; auto using prefix_of_snoc; now apply prefix_length.
  - unfold onMessage, bind, get.
    destruct (call_listeners_run CONTROL response (listeners w) w)
      as (w' & -> & Hpo & Hls & Hso & _ & _ & Hlen & _).
    simpl. rewrite Hpo, Hls, Hso, Hlen. repeat split; reflexivity.
  - destruct (onURL_run URL_parse URL_href urlString w)
      as (w' & -> & _ & Hpo & Hls & _ & Hso & Hlen & _).
    simpl. rewrite Hpo, Hls, Hlen. repeat split; auto.
  - unfold onSocket, bind, get.
    destruct (call_socket_listeners_run socket None (socket_listeners w) w)
      as (w' & -> & _ & Hpo & Hls & Hso & _ & _ & Hlen & _).
    simpl. rewrite Hpo, Hls, Hso, Hlen. repeat split; reflexivity.
  - unfold onSocket, bind, get.
    destruct (call_socket_listeners_run socket (Some reason) (socket_listeners w) w)
      as (w' & -> & _ & Hpo & Hls & Hso & _ & _ & Hlen & _).
    simpl. rewrite Hpo, Hls, Hso, Hlen. repeat split; reflexivity.
Qed.

Lemma run_grows (evs : list Event) :
  forall w,
    ports w `prefix_of` ports (run URL_parse URL_href f CONTROL evs w) /\
    sockets w `prefix_of` sockets (run URL_parse URL_href f CONTROL evs w) /\
    posted w `prefix_of` posted (run URL_parse URL_href f CONTROL evs w) /\
    listeners w `prefix_of` listeners (run URL_parse URL_href f CONTROL evs w) /\
    length (promises w) <= length (promises (run URL_parse URL_href f CONTROL evs w)).
Proof.
  induction evs as [|ev evs IH]; intros w; simpl.
  - repeat split; reflexivity.
  - destruct (step_grows w ev) as (H1 & H2 & H3 & H4 & H5).
    destruct (IH (step URL_parse URL_href f CONTROL w ev)) as (H1' & H2' & H3' & H4' & H5').
    repeat split; try (etrans; eassumption).
Qed.

End Growth.

(** X12.  Nothing is taken back.  Whatever happens after a point in the
    life of the module, the ports and sockets opened, the requests
    posted and the listeners added up to that point are still there, in
    the same places, and no promise has gone; and at every point there
    is exactly one listener per request posted (a listener is never
    removed, also not once its promise is settled). *)
Theorem nothing_taken_back
  (URL_parse : string -> option URL) (URL_href : URL -> string) (f : Factory)
  (evs later : list Event) :
  is_factory URL_parse URL_href f ->
  ports (life URL_parse URL_href f evs)
    `prefix_of` ports (life URL_parse URL_href f (evs ++ later)) /\
  sockets (life URL_parse URL_href f evs)
    `prefix_of` sockets (life URL_parse URL_href f (evs ++ later)) /\
  posted (life URL_parse URL_href f evs)
    `prefix_of` posted (life URL_parse URL_href f (evs ++ later)) /\
  listeners (life URL_parse URL_href f evs)
    `prefix_of` listeners (life URL_parse URL_href f (evs ++ later)) /\
  length (promises (life URL_parse URL_href f evs))
    <= length (promises (life URL_parse URL_href f (evs ++ later))) /\
  length (listeners (life URL_parse URL_href f evs))
    = length (posted (life URL_parse URL_href f evs)).
Proof.
  intros Hf. unfold life, run. rewrite fold_left_app.
  destruct (run_grows URL_parse URL_href f Hf (fst loaded) later
              (fold_left (step URL_parse URL_href f (fst loaded)) evs (snd loaded)))
    as (H1 & H2 & H3 & H4 & H5).
  do 5 (split; [assumption|]).
  destruct (run_on_control URL_parse URL_href f Hf (fst loaded) evs (snd loaded)
              loaded_on_control) as (_ & _ & _ & Hlen).
  symmetry. exact Hlen.
Qed.

Lemma nothing_taken_back_witness :
  length (listeners (life sample_parse sample_href CxpModule.createMessageTransports
                       [Activate ext_wild sample_options; ControlMessage 0 (PortName "c1");
                        Activate ext_bundle sample_options]))
  = length (posted (life sample_parse sample_href CxpModule.createMessageTransports
                      [Activate ext_wild sample_options; ControlMessage 0 (PortName "c1");
                       Activate ext_bundle sample_options])).
Proof.
  pose proof (nothing_taken_back sample_parse sample_href CxpModule.createMessageTransports
                [Activate ext_wild sample_options; ControlMessage 0 (PortName "c1");
                 Activate ext_bundle sample_options] [] (or_intror eq_refl))
    as (_ & _ & _ & _ & _ & H).
  exact H.
Defined.

Lemma onMessage_listener_ports (q : PromiseId) (response : ControlResponse) (w : Browser) :
  ports (snd (onMessage_listener q response w))
  = ports w ++ match response with
               | PortName name => [name]
               | ErrorResponse _ => []
               end.
Proof.
  destruct response as [name|err]; unfold onMessage_listener.
  - unfold bind, chrome_runtime_connect.
    match goal with |- context [resolve q ?v ?s] =>
      destruct (settle_run q (Fulfilled v) s) as (w1 & Hrun & Hports & _)
    end.
    unfold resolve. rewrite Hrun. exact Hports.
  - destruct (settle_run q (Rejected (Reason err)) w) as (w1 & Hrun & Hports & _).
    unfold reject. rewrite Hrun. simpl. now rewrite app_nil_r.
Qed.

Lemma call_listeners_ports (port : PortId) (response : ControlResponse)
  (ls : list (PortId * PromiseId)) :
  forall w,
    ports (snd (call_listeners ls port response w))
    = ports w ++ match response with
                 | PortName name =>
                     replicate (length (List.filter (fun l => Nat.eqb (fst l) port) ls)) name
                 | ErrorResponse _ => []
                 end.
Proof.
  induction ls as [|[k q] ls IH]; intros w.
  - simpl. destruct response; now rewrite app_nil_r.
  - cbn [call_listeners List.filter fst]. unfold bind at 1.
    destruct (Nat.eqb k port).
    + pose proof (onMessage_listener_ports q response w) as Hp.
      destruct (onMessage_listener_run q response w) as (w1 & Hrun & _).
      rewrite Hrun in *. cbn [snd] in Hp. rewrite IH, Hp.
      destruct response; simpl; rewrite <- app_assoc; reflexivity.
    + unfold ret at 1. apply IH.
Qed.

Lemma filter_all {A} (g : A -> bool) (l : list A) :
  Forall (fun a => g a = true) l -> List.filter g l = l.
Proof.
  induction 1 as [|a l Ha _ IH]; simpl; [reflexivity|]. now rewrite Ha, IH.
Qed.

(** X13.  A response that names a port opens that port once for every
    listener on the control port, that is, once for every request posted
    so far in the life of the module, whether or not the request was
    answered before. *)
Theorem named_port_opened_per_request
  (URL_parse : string -> option URL) (URL_href : URL -> string) (f : Factory)
  (evs : list Event) (answers : nat) (name : string) :
  is_factory URL_parse URL_href f ->
  ports (life URL_parse URL_href f (evs ++ [ControlMessage answers (PortName name)]))
  = ports (life URL_parse URL_href f evs)
      ++ replicate (length (posted (life URL_parse URL_href f evs))) name.
Proof.
  intros Hf.
  destruct (run_on_control URL_parse URL_href f Hf (fst loaded) evs (snd loaded)
              loaded_on_control) as (_ & Hls & _ & Hlen).
  unfold life, run in *. rewrite fold_left_app.
  set (w := fold_left (step URL_parse URL_href f (fst loaded)) evs (snd loaded)) in *.
  cbn [fold_left step].
  unfold onMessage, bind, get. rewrite call_listeners_ports.
  rewrite filter_all; [now rewrite Hlen|].
  eapply Forall_impl; [exact Hls|]. simpl. intros l ->. apply Nat.eqb_refl.
Qed.

Lemma named_port_opened_per_request_witness :
  ports (life sample_parse sample_href CxpModule.createMessageTransports
           ([Activate ext_wild sample_options; ControlMessage 0 (PortName "c1");
             Activate ext_bundle sample_options] ++ [ControlMessage 1 (PortName "c2")]))
  = ports (life sample_parse sample_href CxpModule.createMessageTransports
             [Activate ext_wild sample_options; ControlMessage 0 (PortName "c1");
              Activate ext_bundle sample_options])
      ++ replicate (length (posted (life sample_parse sample_href
                                      CxpModule.createMessageTransports
                                      [Activate ext_wild sample_options;
                                       ControlMessage 0 (PortName "c1");
                                       Activate ext_bundle sample_options]))) "c2".
Proof.
  exact (named_port_opened_per_request sample_parse sample_href
           CxpModule.createMessageTransports
           [Activate ext_wild sample_options; ControlMessage 0 (PortName "c1");
            Activate ext_bundle sample_options] 1 "c2" (or_intror eq_refl)).
Defined.

Example second_answer_opens_two_ports :
  ports (life sample_parse sample_href CxpModule.createMessageTransports
           [Activate ext_wild sample_options; ControlMessage 0 (PortName "c1");
            Activate ext_bundle sample_options; ControlMessage 1 (PortName "c2")])
  = ["CONTROL"; "c1"; "c2"; "c2"].
Proof. reflexivity. Qed.

(** X14.  A response that reports an error opens nothing and posts
    nothing: ports, sockets, requests and listeners are as before. *)
Theorem error_response_opens_nothing
  (URL_parse : string -> option URL) (URL_href : URL -> string) (f : Factory)
  (CONTROL : PortId) (w : Browser) (answers : nat) (err : string) :
  ports (step URL_parse URL_href f CONTROL w (ControlMessage answers (ErrorResponse err)))
  = ports w /\
  sockets (step URL_parse URL_href f CONTROL w (ControlMessage answers (ErrorResponse err)))
  = sockets w /\
  posted (step URL_parse URL_href f CONTROL w (ControlMessage answers (ErrorResponse err)))
  = posted w /\
  listeners (step URL_parse URL_href f CONTROL w (ControlMessage answers (ErrorResponse err)))
  = listeners w.
Proof.
  simpl. unfold onMessage, bind, get.
  split; [rewrite call_listeners_ports; apply app_nil_r|].
  destruct (call_listeners_run CONTROL (ErrorResponse err) (listeners w) w)
    as (w' & -> & Hpo & Hls & Hso & _).
  auto.
Qed.

(** ** The awaited Sourcegraph URL, further *)

Section Delivery.

Variable URL_parse : string -> option URL.
Variable URL_href : URL -> string.

(** When the URL string does not parse, a pending promise that a waiting
    callback holds is rejected with the TypeError of [new URL]. *)
Lemma call_waiters_rejects (urlString : string) (ks : list URLWaiter) :
  URL_parse urlString = None ->
  forall w k,
    In k ks ->
    promises w !! waiter_promise k = Some Pending ->
    promises (snd (call_waiters URL_parse URL_href ks urlString w)) !! waiter_promise k
    = Some (Rejected invalid_URL).
Proof.
  intros Hparse. induction ks as [|k0 ks IH]; intros w k Hin Hpend; [destruct Hin|].
  cbn [call_waiters]. unfold bind at 1.
  destruct (onSourcegraphURL_run URL_parse URL_href k0 urlString w)
    as (w1 & -> & _ & _ & _ & _ & _ & _ & Hoth & _ & _ & Hno).
  destruct (Hno Hparse) as (_ & _ & Hrej).
  destruct (decide (waiter_promise k0 = waiter_promise k)) as [Heq|Hne].
  - destruct (call_waiters_run URL_parse URL_href urlString ks w1)
      as (w2 & -> & _ & _ & _ & _ & _ & _ & _ & Hstay).
    cbn [snd]. apply Hstay; [|discriminate].
    rewrite <- Heq. apply Hrej. now rewrite Heq.
  - apply IH.
    + destruct Hin as [->|Hin]; [congruence | exact Hin].
    + rewrite Hoth by auto. exact Hpend.
Qed.

End Delivery.

(** X15.  When the Sourcegraph URL arrives, every callback waiting for
    it runs once: nobody is left waiting, one socket is opened per
    waiting callback, in the order of the calls and each at the URL
    bridged for its own extension and root (none if the URL string does
    not parse), and a later arrival opens no further socket. *)
Theorem url_delivery
  (URL_parse : string -> option URL) (URL_href : URL -> string) (f : Factory)
  (CONTROL : PortId) (w : Browser) (urlString again : string) :
  waiters (step URL_parse URL_href f CONTROL w (SourcegraphURL urlString)) = [] /\
  sockets (step URL_parse URL_href f CONTROL w (SourcegraphURL urlString))
  = sockets w ++ match URL_parse urlString with
                 | Some base => map (waiter_href URL_href base) (waiters w)
                 | None => []
                 end /\
  sockets (step URL_parse URL_href f CONTROL
             (step URL_parse URL_href f CONTROL w (SourcegraphURL urlString))
             (SourcegraphURL again))
  = sockets (step URL_parse URL_href f CONTROL w (SourcegraphURL urlString)).
Proof.
  assert (H : forall w0 u,
             waiters (step URL_parse URL_href f CONTROL w0 (SourcegraphURL u)) = [] /\
             sockets (step URL_parse URL_href f CONTROL w0 (SourcegraphURL u))
             = sockets w0 ++ match URL_parse u with
                             | Some base => map (waiter_href URL_href base) (waiters w0)
                             | None => []
                             end).
  { intros w0 u. split.
    - simpl. destruct (onURL_run URL_parse URL_href u w0) as (w' & -> & _ & _ & _ & Hw & _).
      exact Hw.
    - simpl. unfold onURL, bind, get, modify. cbn [fst snd].
      rewrite call_waiters_sockets. reflexivity. }
  destruct (H w urlString) as (Hw & Hs). split; [exact Hw|]. split; [exact Hs|].
  destruct (H (step URL_parse URL_href f CONTROL w (SourcegraphURL urlString)) again)
    as (_ & ->).
  rewrite Hw. destruct (URL_parse again); apply app_nil_r.
Qed.

(** X16.  Each tcp activation gets its own socket, and its promise waits
    for that socket.  When the URL arrives and parses, a waiting callback
    makes its socket at its own bridged URL; its promise, if pending, is
    still pending then: it is fulfilled with the transports over that
    socket when that socket opens, and rejected when that socket fails.
    When the URL string does not parse, the promise is rejected with the
    TypeError of [new URL], and no socket is made. *)
Theorem url_delivery_settles
  (URL_parse : string -> option URL) (URL_href : URL -> string) (f : Factory)
  (CONTROL : PortId) (w : Browser) (urlString : string) (i : nat) (k : URLWaiter) :
  waiters w !! i = Some k ->
  promises w !! waiter_promise k = Some Pending ->
  match URL_parse urlString with
  | Some base =>
      sockets (step URL_parse URL_href f CONTROL w (SourcegraphURL urlString))
        !! (length (sockets w) + i)
      = Some (waiter_href URL_href base k) /\
      promises (step URL_parse URL_href f CONTROL w (SourcegraphURL urlString))
        !! waiter_promise k
      = Some Pending /\
      promises (step URL_parse URL_href f CONTROL
                  (step URL_parse URL_href f CONTROL w (SourcegraphURL urlString))
                  (SocketOpen (length (sockets w) + i)))
        !! waiter_promise k
      = Some (Fulfilled (WebSocketMessageTransports (length (sockets w) + i))) /\
      (forall reason,
         promises (step URL_parse URL_href f CONTROL
                     (step URL_parse URL_href f CONTROL w (SourcegraphURL urlString))
                     (SocketError (length (sockets w) + i) reason))
           !! waiter_promise k
         = Some (Rejected (Reason reason)))
  | None =>
      promises (step URL_parse URL_href f CONTROL w (SourcegraphURL urlString))
        !! waiter_promise k
      = Some (Rejected invalid_URL) /\
      sockets (step URL_parse URL_href f CONTROL w (SourcegraphURL urlString)) = sockets w /\
      socket_listeners (step URL_parse URL_href f CONTROL w (SourcegraphURL urlString))
      = socket_listeners w
  end.
Proof.
  intros Hi Hpend.
  destruct (URL_parse urlString) as [base|] eqn:Hparse.
  - destruct (onURL_opened URL_parse URL_href urlString base w i k Hparse Hi)
      as (Hso & Hpr & Hin).
    cbn [step].
    assert (Hpend' : promises (snd (onURL URL_parse URL_href urlString w))
                       !! waiter_promise k = Some Pending) by now rewrite Hpr.
    split; [exact Hso|]. split; [exact Hpend'|]. split.
    + unfold onSocket at 1, bind, get.
      apply (call_socket_listeners_settles _ None); assumption.
    + intros reason. unfold onSocket at 1, bind, get.
      apply (call_socket_listeners_settles _ (Some reason)); assumption.
  - cbn [step]. unfold onURL, bind, get, modify. cbn [fst snd].
    split; [|split].
    + apply call_waiters_rejects; [exact Hparse | | exact Hpend].
      apply list_elem_of_In, list_elem_of_lookup. eauto.
    + rewrite call_waiters_sockets, Hparse. apply app_nil_r.
    + now rewrite call_waiters_unparsed.
Qed.

Lemma url_delivery_settles_witness :
  sockets (life sample_parse sample_href CxpModule.createMessageTransports
             [Activate ext_go sample_options; Activate ext_both sample_options;
              SourcegraphURL "https://sourcegraph.com"]) !! 1
  = Some "wss://sourcegraph.com/.api/lsp?mode=both&rootUri=git://repo" /\
  promises (life sample_parse sample_href CxpModule.createMessageTransports
              [Activate ext_go sample_options; Activate ext_both sample_options;
               SourcegraphURL "https://sourcegraph.com"]) !! 1
  = Some Pending /\
  promises (life sample_parse sample_href CxpModule.createMessageTransports
              [Activate ext_go sample_options; Activate ext_both sample_options;
               SourcegraphURL "https://sourcegraph.com"; SocketOpen 1]) !! 1
  = Some (Fulfilled (WebSocketMessageTransports 1)) /\
  (forall reason,
     promises (life sample_parse sample_href CxpModule.createMessageTransports
                 [Activate ext_go sample_options; Activate ext_both sample_options;
                  SourcegraphURL "https://sourcegraph.com"; SocketError 1 reason]) !! 1
     = Some (Rejected (Reason reason))).
Proof.
  exact (url_delivery_settles sample_parse sample_href CxpModule.createMessageTransports 0
           (life sample_parse sample_href CxpModule.createMessageTransports
              [Activate ext_go sample_options; Activate ext_both sample_options])
           "https://sourcegraph.com" 1
           {| waiter_id := "both"; waiter_root := Some "git://repo"; waiter_promise := 1 |}
           eq_refl eq_refl).
Defined.

(** And when the URL string is no URL: both waiting promises are
    rejected, and there is no socket. *)
Example url_delivery_unparsed :
  promises (life sample_parse sample_href CxpModule.createMessageTransports
              [Activate ext_go sample_options; Activate ext_both sample_options;
               SourcegraphURL "sourcegraph"])
  = [Rejected invalid_URL; Rejected invalid_URL] /\
  sockets (life sample_parse sample_href CxpModule.createMessageTransports
             [Activate ext_go sample_options; Activate ext_both sample_options;
              SourcegraphURL "sourcegraph"])
  = [].
Proof. split; reflexivity. Qed.

(** ** Relay and bridge do not meet *)

(** A call that makes one new promise and hands it to listeners of one
    kind keeps the promises well named. *)
Lemma well_named_extend (w w' : Browser) (st : PromiseState)
  (L : list (PortId * PromiseId)) (K : list URLWaiter) (S : list (nat * PromiseId)) :
  well_named w ->
  promises w' = promises w ++ [st] ->
  listeners w' = listeners w ++ L ->
  waiters w' = waiters w ++ K ->
  socket_listeners w' = socket_listeners w ++ S ->
  (forall l, In l L -> snd l = length (promises w)) ->
  (forall k, In k K -> waiter_promise k = length (promises w)) ->
  (forall s, In s S -> snd s = length (promises w)) ->
  (L = [] /\ K = []) \/ (L = [] /\ S = []) \/ (K = [] /\ S = []) ->
  well_named w'.
Proof.
  intros (H1 & H2 & H3 & H4 & H5 & H6) Hp Hl Hk Hs HL HK HS Hone.
  unfold well_named. rewrite Hp, Hl, Hk, Hs, length_app. simpl.
  assert (forall l, In l (listeners w ++ L) -> In l (listeners w) \/ In l L)
    by (intros; now apply in_app_or).
  assert (forall k, In k (waiters w ++ K) -> In k (waiters w) \/ In k K)
    by (intros; now apply in_app_or).
  assert (forall s, In s (socket_listeners w ++ S) -> In s (socket_listeners w) \/ In s S)
    by (intros; now apply in_app_or).
  split; [|split; [|split; [|split; [|split]]]].
  - intros l Hin%H. destruct Hin as [Hin|Hin]; [apply H1 in Hin | apply HL in Hin]; lia.
  - intros k Hin%H0. destruct Hin as [Hin|Hin]; [apply H2 in Hin | apply HK in Hin]; lia.
  - intros s Hin%H7. destruct Hin as [Hin|Hin]; [apply H3 in Hin | apply HS in Hin]; lia.
  - intros l k [Hl1|Hl1]%H [Hk1|Hk1]%H0.
    + now apply H4.
    + apply H1 in Hl1. apply HK in Hk1. lia.
    + apply HL in Hl1. apply H2 in Hk1. lia.
    + destruct Hone as [[-> _]|[[-> _]|[-> _]]]; contradiction.
  - intros l s [Hl1|Hl1]%H [Hs1|Hs1]%H7.
    + now apply H5.
    + apply H1 in Hl1. apply HS in Hs1. lia.
    + apply HL in Hl1. apply H3 in Hs1. lia.
    + destruct Hone as [[-> _]|[[-> _]|[_ ->]]]; contradiction.
  - intros k s [Hk1|Hk1]%H0 [Hs1|Hs1]%H7.
    + now apply H6.
    + apply H2 in Hk1. apply HS in Hs1. lia.
    + apply HK in Hk1. apply H3 in Hs1. lia.
    + destruct Hone as [[_ ->]|[[_ ->]|[-> _]]]; contradiction.
Qed.

Ltac extend_well_named L K S :=
  match goal with
  | Hw : well_named ?w |- well_named _ =>
      eapply (well_named_extend w _ _ L K S Hw);
      [ reflexivity
      | simpl; rewrite ?app_nil_r; reflexivity
      | simpl; rewrite ?app_nil_r; reflexivity
      | simpl; rewrite ?app_nil_r; reflexivity
      | simpl; intros ? Hin; repeat destruct Hin as [<-|Hin]; try contradiction; reflexivity
      | simpl; intros ? Hin; repeat destruct Hin as [<-|Hin]; try contradiction; reflexivity
      | simpl; intros ? Hin; repeat destruct Hin as [<-|Hin]; try contradiction; reflexivity
      | auto ]
  end.

Lemma factory_well_named (URL_parse : string -> option URL) (URL_href : URL -> string)
  (f : Factory) :
  is_factory URL_parse URL_href f ->
  forall CONTROL x o w,
    well_named w ->
    well_named (snd (f CONTROL x o w)) /\
    (forall k, In k (waiters w) -> In k (waiters (snd (f CONTROL x o w)))) /\
    (forall l, In l (listeners w) -> In l (listeners (snd (f CONTROL x o w)))) /\
    (forall s, In s (socket_listeners w) ->
               In s (socket_listeners (snd (f CONTROL x o w)))).
Proof.
  intros Hf CONTROL x o w Hw.
  destruct Hf as [-> | ->]; factory_cases x m; simpl;
    try (split; [exact Hw | auto]; fail).
  - (* websocket *)
    split; [extend_well_named [(CONTROL, length (promises w))] (@nil URLWaiter)
              (@nil (nat * PromiseId))
           | repeat split; intros ? H; try apply in_or_app; auto].
  - (* localhost *)
    unfold bind, new_URL. destruct (URL_parse "http://localhost:3080"); simpl.
    + split; [extend_well_named (@nil (PortId * PromiseId)) (@nil URLWaiter)
                [(length (sockets w), length (promises w))]
             | repeat split; intros ? H; try apply in_or_app; auto].
    + split; [exact Hw | auto].
  - (* bundle *)
    split; [extend_well_named [(CONTROL, length (promises w))] (@nil URLWaiter)
              (@nil (nat * PromiseId))
           | repeat split; intros ? H; try apply in_or_app; auto].
  - (* unsupported *)
    split; [extend_well_named (@nil (PortId * PromiseId)) (@nil URLWaiter)
              (@nil (nat * PromiseId))
           | auto].
  - (* websocket *)
    split; [extend_well_named [(CONTROL, length (promises w))] (@nil URLWaiter)
              (@nil (nat * PromiseId))
           | repeat split; intros ? H; try apply in_or_app; auto].
  - (* waiting for the URL *)
    split; [extend_well_named (@nil (PortId * PromiseId))
              [{| waiter_id := id x; waiter_root := options_root o;
                  waiter_promise := length (promises w) |}]
              (@nil (nat * PromiseId))
           | repeat split; intros ? H; try apply in_or_app; auto].
  - (* bundle *)
    split; [extend_well_named [(CONTROL, length (promises w))] (@nil URLWaiter)
              (@nil (nat * PromiseId))
           | repeat split; intros ? H; try apply in_or_app; auto].
  - (* unsupported *)
    split; [extend_well_named (@nil (PortId * PromiseId)) (@nil URLWaiter)
              (@nil (nat * PromiseId))
           | auto].
Qed.

Lemma call_listeners_other (port : PortId) (response : ControlResponse) (q : PromiseId)
  (ls : list (PortId * PromiseId)) :
  forall w,
    (forall l, In l ls -> snd l <> q) ->
    promises (snd (call_listeners ls port response w)) !! q = promises w !! q.
Proof.
  induction ls as [|[k p] ls IH]; intros w H; [reflexivity|].
  cbn [call_listeners]. unfold bind at 1.
  assert (Hp : p <> q) by (apply (H (k, p)); now left).
  assert (Hrest : forall l, In l ls -> snd l <> q) by (intros l Hl; apply H; now right).
  destruct (Nat.eqb k port).
  - destruct (onMessage_listener_run p response w)
      as (w1 & -> & _ & _ & _ & _ & _ & _ & Hoth & _).
    rewrite IH by assumption. apply Hoth. auto.
  - unfold ret at 1. now apply IH.
Qed.

Lemma In_combine_snd {A B} (l : list A) (l' : list B) (a : A) (b : B) :
  In (a, b) (combine l l') -> In b l'.
Proof. apply in_combine_r. Qed.

Section Apart.

Variable URL_parse : string -> option URL.
Variable URL_href : URL -> string.
Variable f : Factory.
Hypothesis f_factory : is_factory URL_parse URL_href f.
Variable CONTROL : PortId.

(** The arrival of the URL hands the promises of the waiting callbacks
    to listeners for sockets, or settles them. *)
Lemma onURL_socket_listeners (urlString : string) (w : Browser) (s : nat * PromiseId) :
  In s (socket_listeners (snd (onURL URL_parse URL_href urlString w))) ->
  In s (socket_listeners w) \/ exists k, In k (waiters w) /\ waiter_promise k = snd s.
Proof.
  unfold onURL, bind, get, modify. cbn [fst snd].
  destruct (URL_parse urlString) as [base|] eqn:Hparse.
  - destruct (call_waiters_opened URL_parse URL_href urlString base (waiters w) Hparse
                (set_waiters [] w)) as (-> & _).
    intros [Hin|Hin]%in_app_or; [now left | right].
    destruct s as [so p]. apply In_combine_snd in Hin.
    apply in_map_iff in Hin. destruct Hin as (k & <- & Hk). eauto.
  - rewrite (call_waiters_unparsed URL_parse URL_href urlString (waiters w) Hparse).
    now left.
Qed.

Lemma onSocket_frame (socket : nat) (failure : option string) (w : Browser) :
  listeners (snd (onSocket socket failure w)) = listeners w /\
  waiters (snd (onSocket socket failure w)) = waiters w /\
  socket_listeners (snd (onSocket socket failure w)) = socket_listeners w /\
  length (promises (snd (onSocket socket failure w))) = length (promises w) /\
  (forall q, (forall s, In s (socket_listeners w) -> snd s <> q) ->
             promises (snd (onSocket socket failure w)) !! q = promises w !! q).
Proof.
  unfold onSocket, bind, get.
  destruct (call_socket_listeners_run socket failure (socket_listeners w) w)
    as (w' & -> & _ & _ & Hls & _ & Hwa & Hsl & Hlen & Hoth & _).
  auto.
Qed.

Lemma step_well_named (w : Browser) (ev : Event) :
  well_named w -> well_named (step URL_parse URL_href f CONTROL w ev).
Proof.
  intros Hw. destruct ev as [x o|j response|urlString|socket|socket reason]; cbn [step].
  - now apply (factory_well_named _ _ _ f_factory).
  - destruct Hw as (H1 & H2 & H3 & H4 & H5 & H6).
    unfold onMessage, bind, get.
    pose proof (call_listeners_socket_listeners CONTROL response (listeners w) w) as Hsl.
    destruct (call_listeners_run CONTROL response (listeners w) w)
      as (w' & Hrun & _ & Hls' & _ & Hwa' & _ & Hlen & _).
    rewrite Hrun in *. cbn [snd] in *.
    unfold well_named. rewrite Hls', Hwa', Hlen, Hsl. auto 10.
  - destruct Hw as (H1 & H2 & H3 & H4 & H5 & H6).
    pose proof (onURL_socket_listeners urlString w) as Hsl.
    destruct (onURL_run URL_parse URL_href urlString w)
      as (w' & Hrun & _ & _ & Hls' & Hwa' & _ & Hlen & _).
    rewrite Hrun in *. cbn [snd] in *.
    unfold well_named. rewrite Hls', Hwa', Hlen.
    split; [assumption|]. split; [intros k []|]. split; [|split; [intros l k _ []|split]].
    + intros s [Hs|(k & Hk & <-)]%Hsl; auto.
    + intros l s Hl [Hs|(k & Hk & <-)]%Hsl; auto.
    + intros k s [].
  - destruct Hw as (H1 & H2 & H3 & H4 & H5 & H6).
    destruct (onSocket_frame socket None w) as (Hls & Hwa & Hsl & Hlen & _).
    unfold well_named. rewrite Hls, Hwa, Hsl, Hlen. auto 10.
  - destruct Hw as (H1 & H2 & H3 & H4 & H5 & H6).
    destruct (onSocket_frame socket (Some reason) w) as (Hls & Hwa & Hsl & Hlen & _).
    unfold well_named. rewrite Hls, Hwa, Hsl, Hlen. auto 10.
Qed.

Lemma run_well_named (evs : list Event) :
  forall w, well_named w -> well_named (run URL_parse URL_href f CONTROL evs w).
Proof.
  induction evs as [|ev evs IH]; intros w Hw; simpl; [assumption|].
  apply IH, step_well_named, Hw.
Qed.

(** A promise held by a waiting callback stays pending, and stays held,
    as long as no URL arrives. *)
Lemma waiting_stays_pending (evs : list Event) :
  forall w p,
    well_named w ->
    (exists k, In k (waiters w) /\ waiter_promise k = p) ->
    promises w !! p = Some Pending ->
    forallb (fun ev => negb (is_url_event ev)) evs = true ->
    promises (run URL_parse URL_href f CONTROL evs w) !! p = Some Pending.
Proof.
  induction evs as [|ev evs IH]; intros w p Hw Hk Hpend Hevs; simpl; [assumption|].
  simpl in Hevs. apply andb_prop in Hevs. destruct Hevs as [Hev Hevs].
  apply IH; try assumption.
  - now apply step_well_named.
  - destruct Hk as (k & Hk & Hkp).
    destruct ev as [x o|j response|urlString|socket|socket reason]; cbn [step];
      [| |discriminate| |].
    + exists k. split; [|assumption].
      now apply (factory_well_named _ _ _ f_factory CONTROL x o w Hw).
    + unfold onMessage, bind, get.
      destruct (call_listeners_run CONTROL response (listeners w) w)
        as (w' & -> & _ & _ & _ & Hwa' & _).
      simpl. rewrite Hwa'. eauto.
    + destruct (onSocket_frame socket None w) as (_ & -> & _). eauto.
    + destruct (onSocket_frame socket (Some reason) w) as (_ & -> & _). eauto.
  - destruct Hw as (_ & _ & _ & H4 & _ & H6). destruct Hk as (k & Hk & <-).
    destruct ev as [x o|j response|urlString|socket|socket reason]; cbn [step];
      [| |discriminate| |].
    + destruct (factory_frame _ _ _ f_factory CONTROL x o w) as (_ & _ & Hpr & _).
      eapply prefix_lookup_Some; eassumption.
    + unfold onMessage, bind, get.
      rewrite call_listeners_other; [assumption|].
      intros l Hl. now apply H4.
    + destruct (onSocket_frame socket None w) as (_ & _ & _ & _ & Hoth).
      rewrite Hoth; [assumption|].
      intros s Hs Heq. now apply (H6 k s).
    + destruct (onSocket_frame socket (Some reason) w) as (_ & _ & _ & _ & Hoth).
      rewrite Hoth; [assumption|].
      intros s Hs Heq. now apply (H6 k s).
Qed.

(** A promise held by a listener stays pending, and stays held, as long
    as no message arrives on the control port. *)
Lemma listening_stays_pending (evs : list Event) :
  forall w p,
    well_named w ->
    (exists l, In l (listeners w) /\ snd l = p) ->
    promises w !! p = Some Pending ->
    forallb (fun ev => negb (is_control_event ev)) evs = true ->
    promises (run URL_parse URL_href f CONTROL evs w) !! p = Some Pending.
Proof.
  induction evs as [|ev evs IH]; intros w p Hw Hl Hpend Hevs; simpl; [assumption|].
  simpl in Hevs. apply andb_prop in Hevs. destruct Hevs as [Hev Hevs].
  apply IH; try assumption.
  - now apply step_well_named.
  - destruct Hl as (l & Hl & Hlp).
    destruct ev as [x o|j response|urlString|socket|socket reason]; cbn [step];
      [|discriminate| | |].
    + exists l. split; [|assumption].
      now apply (factory_well_named _ _ _ f_factory CONTROL x o w Hw).
    + destruct (onURL_run URL_parse URL_href urlString w)
        as (w' & -> & _ & _ & Hls' & _).
      simpl. rewrite Hls'. eauto.
    + destruct (onSocket_frame socket None w) as (-> & _). eauto.
    + destruct (onSocket_frame socket (Some reason) w) as (-> & _). eauto.
  - destruct Hw as (_ & _ & _ & H4 & H5 & _). destruct Hl as (l & Hl & <-).
    destruct ev as [x o|j response|urlString|socket|socket reason]; cbn [step];
      [|discriminate| | |].
    + destruct (factory_frame _ _ _ f_factory CONTROL x o w) as (_ & _ & Hpr & _).
      eapply prefix_lookup_Some; eassumption.
    + unfold onURL, bind, get, modify. cbn [fst snd].
      destruct (call_waiters_run URL_parse URL_href urlString (waiters w) (set_waiters [] w))
        as (w' & -> & _ & _ & _ & _ & _ & _ & Hoth & _).
      cbn [snd]. rewrite Hoth; [exact Hpend|].
      apply Forall_forall. intros k Hk%list_elem_of_In Heq.
      now apply (H4 l k).
    + destruct (onSocket_frame socket None w) as (_ & _ & _ & _ & Hoth).
      rewrite Hoth; [assumption|].
      intros s Hs Heq. now apply (H5 l s).
    + destruct (onSocket_frame socket (Some reason) w) as (_ & _ & _ & _ & Hoth).
      rewrite Hoth; [assumption|].
      intros s Hs Heq. now apply (H5 l s).
Qed.

End Apart.

Lemma loaded_well_named : well_named (snd loaded).
Proof. repeat split; simpl; intros; contradiction. Qed.

(** X17.  Messages on the control port never settle a tcp activation.
    In the copy that waits for the Sourcegraph URL, the promise returned
    for a tcp extension, at any point of the life of the module, is
    still pending after any further activations, control messages and
    socket events: nothing settles it before the URL arrives. *)
Theorem tcp_activation_waits_for_url
  (URL_parse : string -> option URL) (URL_href : URL -> string)
  (evs later : list Event) (x : CXPExtensionWithManifest) (o : ClientOptions)
  (m : SourcegraphExtension) :
  manifest x = Manifest m ->
  type (platform m) = "tcp" ->
  forallb (fun ev => negb (is_url_event ev)) later = true ->
  exists p,
    fst (CxpModule.createMessageTransports (fst loaded) x o
           (life URL_parse URL_href CxpModule.createMessageTransports evs))
    = Normal p /\
    promises (life URL_parse URL_href CxpModule.createMessageTransports
                (evs ++ Activate x o :: later)) !! p
    = Some Pending.
Proof.
  intros Hm Hty Hlater.
  set (W := life URL_parse URL_href CxpModule.createMessageTransports evs).
  assert (Hf : is_factory URL_parse URL_href CxpModule.createMessageTransports)
    by (right; reflexivity).
  assert (HW : well_named W).
  { apply (run_well_named _ _ _ Hf), loaded_well_named. }
  exists (length (promises W)).
  assert (Hcall : CxpModule.createMessageTransports (fst loaded) x o W
                  = (Normal (length (promises W)),
                     {| ports := ports W; posted := posted W; listeners := listeners W;
                        sockets := sockets W; promises := promises W ++ [Pending];
                        waiters := waiters W ++
                                   [{| waiter_id := id x; waiter_root := options_root o;
                                       waiter_promise := length (promises W) |}];
                        socket_listeners := socket_listeners W |})).
  { unfold CxpModule.createMessageTransports. rewrite Hm, Hty. reflexivity. }
  split; [now rewrite Hcall|].
  unfold life, run. rewrite fold_left_app. cbn [fold_left].
  fold (run URL_parse URL_href CxpModule.createMessageTransports (fst loaded) evs (snd loaded)).
  fold (life URL_parse URL_href CxpModule.createMessageTransports evs). fold W.
  apply (waiting_stays_pending _ _ _ Hf); [| | |exact Hlater].
  - now apply step_well_named.
  - cbn [step]. rewrite Hcall. cbn [snd waiters]. eexists. split.
    + apply in_or_app. right. left. reflexivity.
    + reflexivity.
  - cbn [step]. rewrite Hcall. cbn [snd promises].
    rewrite lookup_app_r by lia. now rewrite Nat.sub_diag.
Qed.

Lemma tcp_activation_waits_for_url_witness :
  exists p,
    fst (CxpModule.createMessageTransports (fst loaded) ext_go sample_options
           (life sample_parse sample_href CxpModule.createMessageTransports
              [Activate ext_wild sample_options]))
    = Normal p /\
    promises (life sample_parse sample_href CxpModule.createMessageTransports
                ([Activate ext_wild sample_options]
                   ++ Activate ext_go sample_options
                   :: [ControlMessage 0 (PortName "c1");
                       ControlMessage 1 (ErrorResponse "no")])) !! p
    = Some Pending.
Proof.
  exact (tcp_activation_waits_for_url sample_parse sample_href
           [Activate ext_wild sample_options]
           [ControlMessage 0 (PortName "c1"); ControlMessage 1 (ErrorResponse "no")]
           ext_go sample_options _ eq_refl eq_refl eq_refl).
Defined.

(** X18.  The Sourcegraph URL never settles a relayed activation.  With
    either copy, the promise returned for a websocket or bundle
    extension is still pending after any further activations, arrivals
    of the URL and socket events: only a message on the control port
    settles it. *)
Theorem relay_activation_waits_for_response
  (URL_parse : string -> option URL) (URL_href : URL -> string) (f : Factory)
  (evs later : list Event) (x : CXPExtensionWithManifest) (o : ClientOptions)
  (m : SourcegraphExtension) :
  is_factory URL_parse URL_href f ->
  manifest x = Manifest m ->
  type (platform m) = "websocket" \/ type (platform m) = "bundle" ->
  forallb (fun ev => negb (is_control_event ev)) later = true ->
  exists p,
    fst (f (fst loaded) x o (life URL_parse URL_href f evs)) = Normal p /\
    promises (life URL_parse URL_href f (evs ++ Activate x o :: later)) !! p
    = Some Pending.
Proof.
  intros Hf Hm Hty Hlater.
  set (W := life URL_parse URL_href f evs).
  assert (HW : well_named W).
  { apply (run_well_named _ _ _ Hf), loaded_well_named. }
  exists (length (promises W)).
  pose proof (relay_activation URL_parse URL_href f (fst loaded) x o m W Hf Hm Hty) as Hcall.
  split; [now rewrite Hcall|].
  unfold life, run. rewrite fold_left_app. cbn [fold_left].
  fold (run URL_parse URL_href f (fst loaded) evs (snd loaded)).
  fold (life URL_parse URL_href f evs). fold W.
  apply (listening_stays_pending _ _ _ Hf); [| | |exact Hlater].
  - now apply step_well_named.
  - cbn [step]. rewrite Hcall. cbn [snd listeners]. eexists. split.
    + apply in_or_app. right. left. reflexivity.
    + reflexivity.
  - cbn [step]. rewrite Hcall. cbn [snd promises].
    rewrite lookup_app_r by lia. now rewrite Nat.sub_diag.
Qed.

Lemma relay_activation_waits_for_response_witness :
  exists p,
    fst (CxpModule.createMessageTransports (fst loaded) ext_wild sample_options
           (life sample_parse sample_href CxpModule.createMessageTransports
              [Activate ext_go sample_options]))
    = Normal p /\
    promises (life sample_parse sample_href CxpModule.createMessageTransports
                ([Activate ext_go sample_options]
                   ++ Activate ext_wild sample_options
                   :: [SourcegraphURL "https://sourcegraph.com";
                       Activate ext_both sample_options])) !! p
    = Some Pending.
Proof.
  exact (relay_activation_waits_for_response sample_parse sample_href
           CxpModule.createMessageTransports
           [Activate ext_go sample_options]
           [SourcegraphURL "https://sourcegraph.com"; Activate ext_both sample_options]
           ext_wild sample_options _ (or_intror eq_refl) eq_refl (or_introl eq_refl) eq_refl).
Defined.

(** ** The parameters of the bridged URL *)

Lemma count_params_without (name other : string) (l : list (string * string)) :
  count_params name (List.filter (fun nv => negb (String.eqb (fst nv) other)) l)
  = if String.eqb name other then 0 else count_params name l.
Proof.
  unfold count_params. induction l as [|[n v] l IH]; simpl.
  - now destruct (String.eqb name other).
  - destruct (String.eqb n other) eqn:E; simpl.
    + apply String.eqb_eq in E. subst n. rewrite IH.
      rewrite (String.eqb_sym other name).
      destruct (String.eqb name other); reflexivity.
    + destruct (String.eqb n name) eqn:E'; simpl; rewrite IH.
      * apply String.eqb_eq in E'. subst n. rewrite E. reflexivity.
      * destruct (String.eqb name other); reflexivity.
Qed.

Lemma count_params_set (name other value : string) (l : list (string * string)) :
  count_params name (URLSearchParams_set other value l)
  = if String.eqb name other then 1 else count_params name l.
Proof.
  induction l as [|[n v] l IH]; simpl.
  - unfold count_params. simpl. rewrite (String.eqb_sym other name).
    now destruct (String.eqb name other).
  - destruct (String.eqb n other) eqn:E.
    + apply String.eqb_eq in E. subst n.
      change (count_params name ((other, value) :: ?l))
        with (length (List.filter (fun nv => String.eqb (fst nv) name) ((other, value) :: l))).
      unfold count_params at 1. simpl. rewrite (String.eqb_sym other name).
      pose proof (count_params_without name other l) as H. unfold count_params in H at 1.
      destruct (String.eqb name other); simpl; rewrite H; reflexivity.
    + unfold count_params in *. simpl.
      destruct (String.eqb n name) eqn:E'; simpl; rewrite IH.
      * apply String.eqb_eq in E'. subst n. rewrite E. reflexivity.
      * destruct (String.eqb name other); reflexivity.
Qed.

(** X19.  The bridged URL has exactly one parameter mode and exactly one
    parameter rootUri, whatever parameters of those names the base URL
    had; every other parameter of the base URL is kept, as often as it
    was there and with the value read for it. *)
Theorem bridgeURL_parameters (base : URL) (extension_id root : string) :
  count_params "mode" (searchParams (bridgeURL base extension_id root)) = 1 /\
  count_params "rootUri" (searchParams (bridgeURL base extension_id root)) = 1 /\
  (forall name,
     name <> "mode" -> name <> "rootUri" ->
     count_params name (searchParams (bridgeURL base extension_id root))
     = count_params name (searchParams base) /\
     URLSearchParams_get name (searchParams (bridgeURL base extension_id root))
     = URLSearchParams_get name (searchParams base)).
Proof.
  unfold bridgeURL. simpl. split; [|split].
  - rewrite !count_params_set. reflexivity.
  - rewrite count_params_set. reflexivity.
  - intros name Hm Hr. apply String.eqb_neq in Hm as Hm', Hr as Hr'. split.
    + rewrite !count_params_set, Hm', Hr'. reflexivity.
    + rewrite !URLSearchParams_get_set_other by assumption. reflexivity.
Qed.

Lemma bridgeURL_parameters_witness :
  URLSearchParams_get "utm"
    (searchParams (bridgeURL {| protocol := "https:"; host := "sourcegraph.com";
                                pathname := "/";
                                searchParams := [("mode", "old"); ("utm", "1"); ("mode", "x")];
                                hash := EmptyString |} "lang-go" "git://repo"))
  = Some "1".
Proof.
  exact (proj2 (proj2 (proj2 (bridgeURL_parameters
                                {| protocol := "https:"; host := "sourcegraph.com";
                                   pathname := "/";
                                   searchParams := [("mode", "old"); ("utm", "1"); ("mode", "x")];
                                   hash := EmptyString |} "lang-go" "git://repo"))
                  "utm" ltac:(discriminate) ltac:(discriminate))).
Defined.

(** ** The decoration renderer, further *)


Lemma node_at_update_at_apart (p q : Dom.Path) (g : Dom.Node -> Dom.Node) (t : Dom.Node) :
  apart p q -> Dom.node_at q (Dom.update_at p g t) = Dom.node_at q t.
Proof.
  intros (r & i & j & p' & q' & -> & -> & Hne).
  revert t. induction r as [|a r IH]; intros t; simpl.
  - destruct t as [tag at' s cs|d]; simpl; [|reflexivity].
    now rewrite list_lookup_alter_ne.
  - destruct t as [tag at' s cs|d]; simpl; [|reflexivity].
    rewrite list_lookup_alter_eq.
    destruct (cs !! a) as [c|]; simpl; [apply IH | reflexivity].
Qed.

(** What a successful [applyDecoration] has done and what its
    disposable will do, on the line element. *)
Lemma applyDecoration_shape (CSS_color : string -> option string)
  (decoration : Protocol.TextDocumentDecoration)
  (fileElement : Dom.Node) (disposable : Disposable) (page : Dom.Node) :
  applyDecoration CSS_color decoration fileElement = (Normal disposable, page) ->
  exists lineNumberElement lineElement,
    Dom.querySelectorAll_td_line (decimal (Protocol.line decoration + 1)) fileElement
    = [lineNumberElement] /\
    Dom.nextElementSibling lineNumberElement fileElement = Some lineElement /\
    page = Dom.update_at lineElement (decorated CSS_color decoration) fileElement /\
    forall s,
      disposable s
      = (Normal tt,
         Dom.update_at lineElement
           (undone CSS_color decoration
              match Dom.node_at lineElement fileElement with
              | Some n => length (Dom.children_of n)
              | None => 0
              end) s).
Proof.
  unfold applyDecoration, bind at 1, get, decorated, undone.
  destruct (Dom.querySelectorAll_td_line _ fileElement) as [|ne [|ne' l]];
    simpl; try discriminate.
  destruct (Dom.nextElementSibling ne fileElement) as [lp|] eqn:Hlp; [|discriminate].
  intros H. exists ne, lp. split; [reflexivity|]. split; [exact Hlp|].
  revert H.
  destruct (nonempty (Protocol.decoration_backgroundColor decoration)) as [c|];
    destruct (Protocol.after decoration) as [a|];
    unfold bind, modify, ret, get; simpl; intros H; injection H as <- <-.
  - split; [apply update_at_twice|]. intros s.
    unfold bind, modify, ret. simpl. rewrite update_at_twice. do 2 f_equal.
    rewrite node_at_update_at.
    destruct (Dom.node_at lp fileElement) as [[tag at' st cs|d]|]; reflexivity.
  - split; [reflexivity|]. intros s.
    unfold bind, modify, ret. reflexivity.
  - split; [reflexivity|]. intros s.
    unfold bind, modify, ret. reflexivity.
  - split; [symmetry; apply update_at_same|]. intros s.
    unfold ret. f_equal. symmetry. apply update_at_same.
Qed.

(** X21.  When exactly one cell is marked with the line number but no
    element comes after it among its siblings, [applyDecoration] throws
    the error that the line is falsy and the page is as it was. *)
Theorem applyDecoration_no_line_element (CSS_color : string -> option string)
  (decoration : Protocol.TextDocumentDecoration) (fileElement : Dom.Node)
  (lineNumberElement : Dom.Path) :
  Dom.querySelectorAll_td_line (decimal (Protocol.line decoration + 1)) fileElement
  = [lineNumberElement] ->
  Dom.nextElementSibling lineNumberElement fileElement = None ->
  applyDecoration CSS_color decoration fileElement
  = (Throw (Error ("Line " +:+ decimal (Protocol.line decoration + 1)
                     +:+ " is falsy: [object HTMLTableCellElement]")),
     fileElement).
Proof.
  intros Hq Hn. unfold applyDecoration, bind, get. rewrite Hq. simpl. rewrite Hn.
  reflexivity.
Qed.

Lemma applyDecoration_no_line_element_witness :
  applyDecoration sample_color (sample_decoration 0) lonely_page
  = (Throw (Error "Line 1 is falsy: [object HTMLTableCellElement]"), lonely_page).
Proof.
  exact (applyDecoration_no_line_element sample_color (sample_decoration 0) lonely_page [0; 0]
           eq_refl eq_refl).
Defined.

(** The style and the children of a decorated element. *)
Lemma decorated_parts (CSS_color : string -> option string)
  (decoration : Protocol.TextDocumentDecoration) (n : Dom.Node) :
  Dom.isElement n = true ->
  Dom.style_of (decorated CSS_color decoration n)
  = match nonempty (Protocol.decoration_backgroundColor decoration) with
    | Some c => Dom.assign_backgroundColor CSS_color (Some c) (Dom.style_of n)
    | None => Dom.style_of n
    end /\
  Dom.children_of (decorated CSS_color decoration n)
  = Dom.children_of n ++ match Protocol.after decoration with
                         | Some a => [annotation_of CSS_color a]
                         | None => []
                         end.
Proof.
  destruct n as [tag a s cs|d]; [intros _ | discriminate].
  unfold decorated.
  destruct (nonempty (Protocol.decoration_backgroundColor decoration)) as [c|];
    destruct (Protocol.after decoration) as [at'|]; simpl;
    rewrite ?app_nil_r; split; reflexivity.
Qed.

Lemma assign_accepted (CSS_color : string -> option string) (v : option string) (c w : string)
  (s : Dom.StyleAttribute) :
  nonempty v = Some c ->
  CSS_color c = Some w ->
  Dom.assign_backgroundColor CSS_color (Some c) s
  = Dom.Written {| Dom.backgroundColor := w; Dom.color := Dom.color (Dom.declared s) |}.
Proof.
  intros Hc%nonempty_Some%String.eqb_neq Hw. unfold Dom.assign_backgroundColor.
  now rewrite Hc, Hw.
Qed.

Lemma assign_ignored (CSS_color : string -> option string) (v : option string) (c : string)
  (s : Dom.StyleAttribute) :
  nonempty v = Some c ->
  CSS_color c = None ->
  Dom.assign_backgroundColor CSS_color (Some c) s = s.
Proof.
  intros Hc%nonempty_Some%String.eqb_neq Hw. unfold Dom.assign_backgroundColor.
  now rewrite Hc, Hw.
Qed.

(** X22.  A decoration that is applied changes the line element and
    nothing beside it.  The line element is an element that comes after
    the marked cell under the same parent.  When the decoration has a
    background colour that the browser takes for a colour, the line
    element gets a style attribute written by the browser that declares
    it (as the browser reads it) beside the colour declared before; when
    the decoration has none, or one that is no colour, the style
    attribute of the line element is what it was.  The line element
    gets the annotation as its last child, if the decoration has one,
    and keeps its other children.  Every node on a path that parts from
    the path to the line element, the marked cell among them, is what it
    was. *)
Theorem applyDecoration_effect (CSS_color : string -> option string)
  (decoration : Protocol.TextDocumentDecoration) (fileElement : Dom.Node)
  (disposable : Disposable) (page : Dom.Node) :
  applyDecoration CSS_color decoration fileElement = (Normal disposable, page) ->
  exists lineNumberElement lineElement n,
    Dom.querySelectorAll_td_line (decimal (Protocol.line decoration + 1)) fileElement
    = [lineNumberElement] /\
    Dom.nextElementSibling lineNumberElement fileElement = Some lineElement /\
    Dom.node_at lineElement fileElement = Some n /\ Dom.isElement n = true /\
    Dom.node_at lineElement page = Some (decorated CSS_color decoration n) /\
    (forall q, apart lineElement q -> Dom.node_at q page = Dom.node_at q fileElement) /\
    Dom.node_at lineNumberElement page = Dom.node_at lineNumberElement fileElement /\
    (forall c v,
       nonempty (Protocol.decoration_backgroundColor decoration) = Some c ->
       CSS_color c = Some v ->
       Dom.style_of (decorated CSS_color decoration n)
       = Dom.Written {| Dom.backgroundColor := v;
                        Dom.color := Dom.color (Dom.declared (Dom.style_of n)) |}) /\
    (nonempty (Protocol.decoration_backgroundColor decoration) = None \/
     (exists c, nonempty (Protocol.decoration_backgroundColor decoration) = Some c /\
                CSS_color c = None) ->
     Dom.style_of (decorated CSS_color decoration n) = Dom.style_of n) /\
    Dom.children_of (decorated CSS_color decoration n)
    = Dom.children_of n ++ match Protocol.after decoration with
                           | Some a => [annotation_of CSS_color a]
                           | None => []
                           end.
Proof.
  intros H.
  destruct (applyDecoration_shape _ _ _ _ _ H) as (ne & lp & Hq & Hs & -> & _).
  destruct (nextElementSibling_spec _ _ _ Hs) as (parent & i & j & n & -> & -> & Hij & Hn & He).
  destruct (decorated_parts CSS_color decoration n He) as (Hstyle & Hchildren).
  exists (parent ++ [i]), (parent ++ [j]), n.
  do 4 (split; [assumption|]).
  split; [rewrite node_at_update_at, Hn; reflexivity|].
  split; [intros q Hq'; now apply node_at_update_at_apart|].
  split; [apply node_at_update_at_apart; exists parent, j, i, [], []; repeat split; lia|].
  split; [|split; [|exact Hchildren]].
  - intros c v Hc Hv. rewrite Hstyle, Hc. eapply assign_accepted; eassumption.
  - intros [Hnone | (c & Hc & Hv)]; rewrite Hstyle.
    + now rewrite Hnone.
    + rewrite Hc. eapply assign_ignored; eassumption.
Qed.

Lemma applyDecoration_effect_witness :
  exists lineNumberElement lineElement n,
    Dom.querySelectorAll_td_line "2" sample_page = [lineNumberElement] /\
    Dom.nextElementSibling lineNumberElement sample_page = Some lineElement /\
    Dom.node_at lineElement sample_page = Some n /\ Dom.isElement n = true /\
    Dom.node_at lineElement
      (snd (applyDecoration sample_color (sample_decoration 1) sample_page))
    = Some (decorated sample_color (sample_decoration 1) n) /\
    (forall q, apart lineElement q ->
               Dom.node_at q
                 (snd (applyDecoration sample_color (sample_decoration 1) sample_page))
               = Dom.node_at q sample_page) /\
    Dom.node_at lineNumberElement
      (snd (applyDecoration sample_color (sample_decoration 1) sample_page))
    = Dom.node_at lineNumberElement sample_page /\
    Dom.style_of (decorated sample_color (sample_decoration 1) n)
    = Dom.Written {| Dom.backgroundColor := "red";
                     Dom.color := Dom.color (Dom.declared (Dom.style_of n)) |} /\
    Dom.children_of (decorated sample_color (sample_decoration 1) n)
    = Dom.children_of n ++ [annotation_of sample_color sample_attachment].
Proof.
  destruct (applyDecoration sample_color (sample_decoration 1) sample_page)
    as [[d|e] page] eqn:E.
  - destruct (applyDecoration_effect sample_color (sample_decoration 1) sample_page d page E)
      as (ne & lp & n & H1 & H2 & H3 & H4 & H5 & H6 & H7 & H8 & _ & H10).
    exists ne, lp, n. do 7 (split; [assumption|]).
    split; [exact (H8 "red" "red" eq_refl eq_refl) | exact H10].
  - vm_compute in E. discriminate E.
Defined.

(** A red background on the yellow line of the sample, and a
    background that is no colour on the same line. *)
Example applyDecoration_effect_sample :
  Dom.style_of <$> Dom.node_at [1; 1]
                     (snd (applyDecoration sample_color (sample_decoration 1) sample_page))
  = Some (Dom.Written {| Dom.backgroundColor := "red"; Dom.color := EmptyString |}) /\
  applyDecoration sample_color odd_decoration sample_page
  = (Normal (mergeDisposables [modify (Dom.update_at [1; 1]
                                         (Dom.set_backgroundColor sample_color None))]),
     sample_page).
Proof. split; reflexivity. Qed.

Lemma undone_decorated (CSS_color : string -> option string)
  (decoration : Protocol.TextDocumentDecoration) (n : Dom.Node) :
  undone CSS_color decoration (length (Dom.children_of n)) (decorated CSS_color decoration n)
  = cleared CSS_color decoration n.
Proof.
  unfold undone, decorated, cleared.
  destruct (nonempty (Protocol.decoration_backgroundColor decoration)) as [c|];
    destruct (Protocol.after decoration) as [a|]; simpl.
  - destruct n as [tag at' s cs|d]; simpl; [|reflexivity].
    f_equal. rewrite (delete_middle cs [] (annotation_of CSS_color a)). apply app_nil_r.
  - reflexivity.
  - apply remove_appended.
  - reflexivity.
Qed.

Lemma delete_beyond {A} (l : list A) :
  forall i, length l <= i -> delete i l = l.
Proof.
  induction l as [|a l IH]; intros i H; [now destruct i|].
  destruct i as [|i]; simpl in *; [lia|]. f_equal. apply IH. lia.
Qed.

(** Taking a declaration out twice is taking it out once. *)
Lemma remove_backgroundColor_twice (s : Dom.StyleAttribute) :
  Dom.remove_backgroundColor (Dom.remove_backgroundColor s) = Dom.remove_backgroundColor s.
Proof.
  unfold Dom.remove_backgroundColor.
  destruct (String.eqb (Dom.backgroundColor (Dom.declared s)) EmptyString) eqn:E.
  - now rewrite E.
  - reflexivity.
Qed.

Lemma undone_cleared (CSS_color : string -> option string)
  (decoration : Protocol.TextDocumentDecoration) (n : Dom.Node) :
  undone CSS_color decoration (length (Dom.children_of n)) (cleared CSS_color decoration n)
  = cleared CSS_color decoration n.
Proof.
  unfold undone, cleared.
  destruct (nonempty (Protocol.decoration_backgroundColor decoration)) as [c|];
    destruct (Protocol.after decoration) as [a|];
    destruct n as [tag at' s cs|d]; cbn [Dom.set_backgroundColor Dom.removeChild
                                           Dom.children_of Dom.assign_backgroundColor];
    try reflexivity;
    rewrite ?remove_backgroundColor_twice, ?delete_beyond by (simpl; lia);
    reflexivity.
Qed.

(** X23.  Disposing twice is disposing once: the second call of
    [dispose], made right after the first, leaves the page as the first
    left it. *)
Theorem dispose_twice (CSS_color : string -> option string)
  (decoration : Protocol.TextDocumentDecoration) (fileElement : Dom.Node)
  (disposable : Disposable) (page : Dom.Node) :
  applyDecoration CSS_color decoration fileElement = (Normal disposable, page) ->
  disposable (snd (disposable page)) = (Normal tt, snd (disposable page)).
Proof.
  intros H.
  destruct (applyDecoration_shape _ _ _ _ _ H) as (ne & lp & _ & _ & -> & Hd).
  rewrite !Hd. cbn [snd]. f_equal.
  rewrite !update_at_twice.
  apply update_at_ext. intros n Hn. rewrite Hn.
  rewrite undone_decorated. apply undone_cleared.
Qed.

Lemma dispose_twice_witness :
  match applyDecoration sample_color (sample_decoration 1) sample_page with
  | (Normal disposable, page) =>
      disposable (snd (disposable page)) = (Normal tt, snd (disposable page))
  | (Throw _, _) => False
  end.
Proof.
  destruct (applyDecoration sample_color (sample_decoration 1) sample_page) as [[d|e] page] eqn:E.
  - exact (dispose_twice sample_color (sample_decoration 1) sample_page d page E).
  - vm_compute in E. discriminate E.
Defined.

(** X24.  A decoration with neither background colour nor annotation
    (absent or empty) still needs its line on the page; when it is
    there, applying the decoration leaves the page as it is, and so does
    its disposable, on any page. *)
Theorem applyDecoration_nothing_to_show (CSS_color : string -> option string)
  (decoration : Protocol.TextDocumentDecoration) (fileElement : Dom.Node)
  (disposable : Disposable) (page : Dom.Node) :
  nonempty (Protocol.decoration_backgroundColor decoration) = None ->
  Protocol.after decoration = None ->
  applyDecoration CSS_color decoration fileElement = (Normal disposable, page) ->
  page = fileElement /\ forall s, disposable s = (Normal tt, s).
Proof.
  intros Hbg Hafter H.
  destruct (applyDecoration_shape _ _ _ _ _ H) as (ne & lp & _ & _ & -> & Hd).
  split.
  - rewrite <- (update_at_same lp fileElement) at 2.
    apply update_at_ext. intros n _. unfold decorated. now rewrite Hbg, Hafter.
  - intros s. rewrite Hd. f_equal.
    rewrite <- (update_at_same lp s) at 2.
    apply update_at_ext. intros n _. unfold undone. now rewrite Hbg, Hafter.
Qed.

Lemma applyDecoration_nothing_to_show_witness :
  snd (applyDecoration sample_color (plain_decoration 0) sample_page) = sample_page.
Proof.
  destruct (applyDecoration sample_color (plain_decoration 0) sample_page) as [[d|e] page] eqn:E.
  - exact (proj1 (applyDecoration_nothing_to_show sample_color (plain_decoration 0)
                    sample_page d page
                    eq_refl eq_refl E)).
  - vm_compute in E. discriminate E.
Defined.

(** ** Decorations on a decorated page *)

Lemma descendants_Element (tag : string) (a : list (string * string))
  (s : Dom.StyleAttribute)
  (cs : list Dom.Node) :
  Dom.descendants (Dom.Element tag a s cs) = descendants_from 0 cs.
Proof.
  simpl. generalize 0. induction cs as [|c cs IH]; intros i; simpl; [reflexivity|].
  do 2 f_equal; auto.
Qed.

Lemma descendants_from_app (l1 l2 : list Dom.Node) :
  forall i, descendants_from i (l1 ++ l2)
            = descendants_from i l1 ++ descendants_from (i + length l1) l2.
Proof.
  induction l1 as [|c l1 IH]; intros i; simpl.
  - now rewrite Nat.add_0_r.
  - replace (i + S (length l1)) with (S i + length l1) by lia.
    rewrite IH. f_equal. now rewrite app_assoc.
Qed.

Lemma hits_app (v : string) (l1 l2 : list (Dom.Path * Dom.Node)) :
  hits v (l1 ++ l2) = hits v l1 ++ hits v l2.
Proof. unfold hits. now rewrite List.filter_app, map_app. Qed.

Lemma hits_below (v : string) (i : nat) (l : list (Dom.Path * Dom.Node)) :
  hits v (map (fun pd => (i :: fst pd, snd pd)) l) = map (cons i) (hits v l).
Proof.
  unfold hits. induction l as [|[p n] l IH]; simpl; [reflexivity|].
  destruct (Dom.matches_td_line v n); simpl; now rewrite IH.
Qed.

Lemma hits_cons (v : string) (p : Dom.Path) (n : Dom.Node) (l : list (Dom.Path * Dom.Node)) :
  hits v ((p, n) :: l) = (if Dom.matches_td_line v n then [p] else []) ++ hits v l.
Proof. unfold hits. simpl. now destruct (Dom.matches_td_line v n). Qed.

Lemma same_hits_refl (v : string) (n : Dom.Node) : same_hits v n n.
Proof. split; reflexivity. Qed.

Lemma hits_descendants_alter (v : string) (g : Dom.Node -> Dom.Node) (cs : list Dom.Node) :
  forall k i,
    (forall c, cs !! k = Some c -> same_hits v c (g c)) ->
    hits v (descendants_from i (alter g k cs)) = hits v (descendants_from i cs).
Proof.
  induction cs as [|c cs IH]; intros k i H; [reflexivity|].
  destruct k as [|k]; simpl.
  - destruct (H c eq_refl) as (Hm & Hd).
    rewrite !hits_cons, !hits_app, !hits_below, Hm, Hd. reflexivity.
  - rewrite !hits_cons, !hits_app. do 2 f_equal. apply IH. intros c' Hc'. now apply H.
Qed.

Lemma same_hits_update_at (v : string) (g : Dom.Node -> Dom.Node) (p : Dom.Path) :
  (forall n, same_hits v n (g n)) ->
  forall t, same_hits v t (Dom.update_at p g t).
Proof.
  intros Hg. induction p as [|k p IH]; intros t; simpl; [apply Hg|].
  destruct t as [tag a s cs|d]; [|apply same_hits_refl].
  split; [reflexivity|].
  rewrite !descendants_Element. apply hits_descendants_alter.
  intros c _. apply IH.
Qed.

Lemma annotation_no_hits (CSS_color : string -> option string) (v : string)
  (a : Protocol.DecorationAttachment) :
  Dom.matches_td_line v (annotation_of CSS_color a) = false /\
  hits v (Dom.descendants (annotation_of CSS_color a)) = [].
Proof.
  unfold annotation_of, linkTo.
  destruct (nonempty (Protocol.linkURL a)) as [u|];
    destruct (nonempty (Protocol.contentText a)) as [c|]; simpl.
  all: destruct (String.eqb c EmptyString) || idtac; split; reflexivity.
Qed.

Lemma same_hits_decorated (CSS_color : string -> option string) (v : string)
  (decoration : Protocol.TextDocumentDecoration)
  (n : Dom.Node) :
  same_hits v n (decorated CSS_color decoration n).
Proof.
  unfold decorated.
  destruct n as [tag at' s cs|d].
  2:{ destruct (nonempty _), (Protocol.after decoration); apply same_hits_refl. }
  assert (Hbg : forall c, Dom.set_backgroundColor CSS_color c (Dom.Element tag at' s cs)
                          = Dom.Element tag at' (Dom.assign_backgroundColor CSS_color c s) cs)
    by reflexivity.
  assert (Happ : forall s' a,
             same_hits v (Dom.Element tag at' s cs)
               (Dom.appendChild (annotation_of CSS_color a) (Dom.Element tag at' s' cs))).
  { intros s' a. split; [reflexivity|]. simpl Dom.appendChild.
    rewrite !descendants_Element, descendants_from_app, hits_app. simpl.
    destruct (annotation_no_hits CSS_color v a) as (Hm & Hd).
    rewrite hits_cons, Hm, hits_app, hits_below, Hd. simpl. apply app_nil_r. }
  destruct (nonempty (Protocol.decoration_backgroundColor decoration)) as [c|];
    destruct (Protocol.after decoration) as [a|]; rewrite ?Hbg.
  - apply Happ.
  - split; reflexivity.
  - apply Happ.
  - apply same_hits_refl.
Qed.

Lemma decorated_page_markers (CSS_color : string -> option string)
  (decoration : Protocol.TextDocumentDecoration)
  (lineElement : Dom.Path) (fileElement : Dom.Node) (value : string) :
  Dom.querySelectorAll_td_line value
    (Dom.update_at lineElement (decorated CSS_color decoration) fileElement)
  = Dom.querySelectorAll_td_line value fileElement.
Proof.
  apply (same_hits_update_at value (decorated CSS_color decoration) lineElement).
  intros n. apply same_hits_decorated.
Qed.

(** X25.  Applying a decoration does not change what the selector for
    any line number finds on the page: the cells marked are the same, at
    the same paths (the annotation is built of [a] and [span] elements
    and text, never of [td] cells). *)
Theorem applyDecoration_keeps_markers (CSS_color : string -> option string)
  (decoration : Protocol.TextDocumentDecoration) (fileElement : Dom.Node)
  (disposable : Disposable) (page : Dom.Node) (value : string) :
  applyDecoration CSS_color decoration fileElement = (Normal disposable, page) ->
  Dom.querySelectorAll_td_line value page = Dom.querySelectorAll_td_line value fileElement.
Proof.
  intros H.
  destruct (applyDecoration_shape _ _ _ _ _ H) as (ne & lp & _ & _ & -> & _).
  apply decorated_page_markers.
Qed.

Lemma applyDecoration_keeps_markers_witness :
  Dom.querySelectorAll_td_line "2"
    (snd (applyDecoration sample_color (sample_decoration 1) sample_page))
  = Dom.querySelectorAll_td_line "2" sample_page.
Proof.
  destruct (applyDecoration sample_color (sample_decoration 1) sample_page) as [[d|e] page] eqn:E.
  - exact (applyDecoration_keeps_markers sample_color (sample_decoration 1) sample_page
             d page "2" E).
  - vm_compute in E. discriminate E.
Defined.

Lemma split_last_snoc (parent : Dom.Path) (i : nat) :
  Dom.split_last (parent ++ [i]) = Some (parent, i).
Proof.
  induction parent as [|a parent IH]; [reflexivity|].
  simpl. rewrite IH. destruct (parent ++ [i]) eqn:E; [|reflexivity].
  destruct parent; discriminate.
Qed.

Lemma node_at_update_at_below (parent q : Dom.Path) (g : Dom.Node -> Dom.Node) :
  forall t, Dom.node_at parent (Dom.update_at (parent ++ q) g t)
            = Dom.update_at q g <$> Dom.node_at parent t.
Proof.
  induction parent as [|a parent IH]; intros t; simpl; [reflexivity|].
  destruct t as [tag at' s cs|d]; simpl; [|reflexivity].
  rewrite list_lookup_alter_eq.
  destruct (cs !! a) as [c|]; simpl; [apply IH | reflexivity].
Qed.

Lemma first_element_from_kinds (l l' : list Dom.Node) :
  map Dom.isElement l = map Dom.isElement l' ->
  forall i, Dom.first_element_from i l = Dom.first_element_from i l'.
Proof.
  revert l'. induction l as [|c l IH]; intros [|c' l'] H i; try discriminate; [reflexivity|].
  simpl in *. injection H as Hc Hl. rewrite Hc.
  destruct (Dom.isElement c'); [reflexivity | now apply IH].
Qed.

Lemma isElement_alter (g : Dom.Node -> Dom.Node) (cs : list Dom.Node) :
  (forall n, Dom.isElement (g n) = Dom.isElement n) ->
  forall k, map Dom.isElement (alter g k cs) = map Dom.isElement cs.
Proof.
  intros Hg. induction cs as [|c cs IH]; intros [|k]; try reflexivity.
  - cbn. now rewrite Hg.
  - cbn. f_equal. apply IH.
Qed.

Lemma isElement_decorated (CSS_color : string -> option string)
  (decoration : Protocol.TextDocumentDecoration) (n : Dom.Node) :
  Dom.isElement (decorated CSS_color decoration n) = Dom.isElement n.
Proof.
  unfold decorated.
  destruct (nonempty _), (Protocol.after decoration), n; reflexivity.
Qed.

(** The sibling after a cell is found again when that sibling has been
    changed into an element of whatever content. *)
Lemma nextElementSibling_update_sibling (parent : Dom.Path) (i j : nat)
  (g : Dom.Node -> Dom.Node) (t : Dom.Node) :
  (forall n, Dom.isElement (g n) = Dom.isElement n) ->
  Dom.nextElementSibling (parent ++ [i]) (Dom.update_at (parent ++ [j]) g t)
  = Dom.nextElementSibling (parent ++ [i]) t.
Proof.
  intros Hg. unfold Dom.nextElementSibling.
  rewrite split_last_snoc, node_at_update_at_below.
  destruct (Dom.node_at parent t) as [pn|]; simpl; [|reflexivity].
  destruct pn as [tag at' s cs|d]; simpl; [|reflexivity].
  erewrite first_element_from_kinds; [reflexivity|].
  rewrite <- !skipn_map. f_equal. now apply isElement_alter.
Qed.

Lemma applyDecoration_succeeds (CSS_color : string -> option string)
  (decoration : Protocol.TextDocumentDecoration)
  (t : Dom.Node) (ne lp : Dom.Path) :
  Dom.querySelectorAll_td_line (decimal (Protocol.line decoration + 1)) t = [ne] ->
  Dom.nextElementSibling ne t = Some lp ->
  exists disposable,
    applyDecoration CSS_color decoration t
    = (Normal disposable, Dom.update_at lp (decorated CSS_color decoration) t).
Proof.
  intros Hq Hs. unfold applyDecoration, bind at 1, get, decorated. rewrite Hq. simpl.
  rewrite Hs.
  destruct (nonempty (Protocol.decoration_backgroundColor decoration)) as [c|];
    destruct (Protocol.after decoration) as [a|];
    unfold bind, modify, ret, get; simpl; eexists; f_equal;
    rewrite ?update_at_twice, ?update_at_same; reflexivity.
Qed.

(** The background colour an element shows once decorated. *)
Lemma backgroundColor_decorated (CSS_color : string -> option string)
  (decoration : Protocol.TextDocumentDecoration) (n : Dom.Node) :
  Dom.isElement n = true ->
  Dom.backgroundColor_of (decorated CSS_color decoration n)
  = match nonempty (Protocol.decoration_backgroundColor decoration) with
    | Some c => match CSS_color c with
                | Some v => v
                | None => Dom.backgroundColor_of n
                end
    | None => Dom.backgroundColor_of n
    end.
Proof.
  intros He. unfold Dom.backgroundColor_of.
  destruct (decorated_parts CSS_color decoration n He) as (-> & _).
  destruct (nonempty (Protocol.decoration_backgroundColor decoration)) as [c|] eqn:Hc;
    [|reflexivity].
  destruct (CSS_color c) as [v|] eqn:Hv.
  - erewrite assign_accepted by eassumption. reflexivity.
  - erewrite assign_ignored by eassumption. reflexivity.
Qed.

(** X26.  Decorations stack.  After a decoration has been applied, any
    decoration for the same line can be applied to the page as it now
    is; it finds the same line element and decorates it further.  Its
    annotation comes after the one before.  Its background colour, if
    the browser takes it for a colour, is the one the line shows from
    then on; if it has none, or one that is no colour, the line goes on
    showing what it showed after the first decoration. *)
Theorem decorations_stack (CSS_color : string -> option string)
  (first second : Protocol.TextDocumentDecoration) (fileElement : Dom.Node)
  (disposable : Disposable) (page : Dom.Node) :
  applyDecoration CSS_color first fileElement = (Normal disposable, page) ->
  Protocol.line second = Protocol.line first ->
  exists lineNumberElement lineElement disposable' n,
    Dom.nextElementSibling lineNumberElement fileElement = Some lineElement /\
    Dom.node_at lineElement fileElement = Some n /\
    applyDecoration CSS_color second page
    = (Normal disposable',
       Dom.update_at lineElement
         (fun n => decorated CSS_color second (decorated CSS_color first n)) fileElement) /\
    Dom.children_of (decorated CSS_color second (decorated CSS_color first n))
    = Dom.children_of n
        ++ match Protocol.after first with
           | Some a => [annotation_of CSS_color a]
           | None => []
           end
        ++ match Protocol.after second with
           | Some a => [annotation_of CSS_color a]
           | None => []
           end /\
    Dom.backgroundColor_of (decorated CSS_color second (decorated CSS_color first n))
    = match nonempty (Protocol.decoration_backgroundColor second) with
      | Some c => match CSS_color c with
                  | Some v => v
                  | None => Dom.backgroundColor_of (decorated CSS_color first n)
                  end
      | None => Dom.backgroundColor_of (decorated CSS_color first n)
      end.
Proof.
  intros H Hline.
  destruct (applyDecoration_shape _ _ _ _ _ H) as (ne & lp & Hq & Hs & -> & _).
  pose proof (decorated_page_markers CSS_color first lp fileElement
                (decimal (Protocol.line first + 1))) as Hsame.
  destruct (nextElementSibling_spec _ _ _ Hs) as (parent & i & j & n & -> & -> & _ & Hn & He).
  destruct (applyDecoration_succeeds CSS_color second
              (Dom.update_at (parent ++ [j]) (decorated CSS_color first) fileElement)
              (parent ++ [i]) (parent ++ [j])) as (d' & Hd').
  - rewrite Hline, Hsame. exact Hq.
  - rewrite nextElementSibling_update_sibling; [exact Hs|].
    intros n'. apply isElement_decorated.
  - assert (He' : Dom.isElement (decorated CSS_color first n) = true)
      by now rewrite isElement_decorated.
    exists (parent ++ [i]), (parent ++ [j]), d', n. split; [exact Hs|].
    split; [exact Hn|].
    split; [rewrite Hd'; f_equal; apply update_at_twice|].
    split; [|now apply backgroundColor_decorated].
    destruct (decorated_parts CSS_color second _ He') as (_ & ->).
    destruct (decorated_parts CSS_color first n He) as (_ & ->).
    now rewrite <- app_assoc.
Qed.

Lemma decorations_stack_witness :
  exists lineNumberElement lineElement disposable' n,
    Dom.nextElementSibling lineNumberElement sample_page = Some lineElement /\
    Dom.node_at lineElement sample_page = Some n /\
    applyDecoration sample_color second_decoration
      (snd (applyDecoration sample_color (sample_decoration 1) sample_page))
    = (Normal disposable',
       Dom.update_at lineElement
         (fun n => decorated sample_color second_decoration
                     (decorated sample_color (sample_decoration 1) n))
         sample_page) /\
    Dom.backgroundColor_of
      (decorated sample_color second_decoration
         (decorated sample_color (sample_decoration 1) n))
    = "green".
Proof.
  destruct (applyDecoration sample_color (sample_decoration 1) sample_page)
    as [[d|e] page] eqn:E.
  - destruct (decorations_stack sample_color (sample_decoration 1) second_decoration
                sample_page d page E eq_refl)
      as (ne & lp & d' & n & H1 & H2 & H3 & _ & H5).
    exists ne, lp, d', n. do 3 (split; [assumption|]). exact H5.
  - vm_compute in E. discriminate E.
Defined.

(** On the line of the sample made red, a background that is no colour
    leaves red, and one that is a colour replaces it. *)
Example decorations_stack_sample :
  Dom.backgroundColor_of
    <$> Dom.node_at [1; 1]
          (snd (applyDecoration sample_color odd_decoration
                  (snd (applyDecoration sample_color (sample_decoration 1) sample_page))))
  = Some "red" /\
  Dom.backgroundColor_of
    <$> Dom.node_at [1; 1]
          (snd (applyDecoration sample_color second_decoration
                  (snd (applyDecoration sample_color (sample_decoration 1) sample_page))))
  = Some "green".
Proof. split; reflexivity. Qed.
